(** * Calendar agent: tool handlers, calendar adapter and time parsing

    A shallow embedding of the orchestration core of the calendar agent
    ([utils/helpers.py], [integrations/google_calendar_service.py],
    [mcp_server/handlers.py], [mcp_server/server.py],
    [agent/calendar_agent.py]) together with the properties of its
    natural-language specification and further properties of the code.

    Conventions of the embedding.
    - A Python [str] is a list of characters ([pystr]); a character is a
      code point below 256.
    - The remote calendar, the clock and the id generator are an abstract
      environment ([Env]); every call to it is threaded through an explicit
      state and recorded in a trace.
    - A Python exception is a value of [exn]; a [try]/[except] is a match on
      the outcome of the guarded block.
    - Console output ([print]) is not modelled.  The success messages of the
      handlers end in a check mark (U+2713) in the source; it lies outside
      the character range and is left out with the space before it.
    - [datetime] follows CPython: the proleptic Gregorian calendar of the
      years 1 to 9999, [strptime] through the regular expressions of
      [_strptime.py] and with the texts of its errors, [fromisoformat] with
      the grammar of Python 3.7 to 3.10. *)

From Stdlib Require Import List String Ascii ZArith Bool Lia DecimalString.
From Stdlib Require Import Sorting.Permutation Sorting.Sorted.
Import ListNotations.
Local Open Scope Z_scope.

(* ===================================================================== *)
(** * Python strings *)
(* ===================================================================== *)

Module PyStr.

Definition pystr := list ascii.

(** String literals of the source. *)
Definition lit (s : string) : pystr := list_ascii_of_string s.

Definition code (a : ascii) : Z := Z.of_nat (nat_of_ascii a).

(** Regex [\d] and the digits [int] reads, on code points below 256. *)
Definition is_digit (a : ascii) : bool := (48 <=? code a) && (code a <=? 57).

(** [str.isspace] / regex [\s] on code points below 256: TAB..CR, FS..US,
    SPACE, NEL and NBSP. *)
Definition is_space (a : ascii) : bool :=
  ((9 <=? code a) && (code a <=? 13)) || ((28 <=? code a) && (code a <=? 32))
  || (code a =? 133) || (code a =? 160).

Definition str_eqb (s t : pystr) : bool :=
  if list_eq_dec ascii_dec s t then true else false.

Fixpoint lstrip (s : pystr) : pystr :=
  match s with
  | a :: s' => if is_space a then lstrip s' else s
  | [] => []
  end.

Definition rstrip (s : pystr) : pystr := rev (lstrip (rev s)).

(** [s.strip()] *)
Definition strip (s : pystr) : pystr := rstrip (lstrip s).

(** [c in s] for a one-character [c]. *)
Definition contains_char (c : ascii) (s : pystr) : bool :=
  existsb (Ascii.eqb c) s.

Fixpoint starts_with (p s : pystr) : bool :=
  match p, s with
  | [], _ => true
  | a :: p', b :: s' => Ascii.eqb a b && starts_with p' s'
  | _ :: _, [] => false
  end.

(** [p in s] for strings. *)
Fixpoint contains (p s : pystr) : bool :=
  starts_with p s ||
  match s with
  | [] => false
  | _ :: s' => contains p s'
  end.

(** [s.split(c)[0]]: the text before the first [c]. *)
Fixpoint before_first (c : ascii) (s : pystr) : pystr :=
  match s with
  | [] => []
  | a :: s' => if Ascii.eqb a c then [] else a :: before_first c s'
  end.

(** [sep.join(l)] *)
Fixpoint join (sep : pystr) (l : list pystr) : pystr :=
  match l with
  | [] => []
  | [x] => x
  | x :: l' => x ++ sep ++ join sep l'
  end.

(** [s.lower()] on code points below 256: A..Z and the accented capitals
    0xC0..0xDE (but the multiplication sign 0xD7) move up by 32. *)
Definition lower_char (a : ascii) : ascii :=
  let c := code a in
  if ((65 <=? c) && (c <=? 90)) || ((192 <=? c) && (c <=? 222) && negb (c =? 215))
  then ascii_of_nat (Z.to_nat (c + 32)) else a.

Definition lower (s : pystr) : pystr := map lower_char s.

Definition upper_char (a : ascii) : ascii :=
  let c := code a in
  if ((97 <=? c) && (c <=? 122)) then ascii_of_nat (Z.to_nat (c - 32)) else a.

(** [s.upper()], used by the source on the strings AM, PM, am, pm only. *)
Definition upper (s : pystr) : pystr := map upper_char s.

Definition digit_char (n : Z) : ascii := ascii_of_nat (Z.to_nat (48 + n mod 10)).

(** ["%0wd" % n] for [0 <= n < 10^w]: exactly [w] decimal digits. *)
Fixpoint zpad (w : nat) (n : Z) : pystr :=
  match w with
  | O => []
  | S w' => zpad w' (n / 10) ++ [digit_char n]
  end.

Definition digits_value (s : pystr) : Z :=
  fold_left (fun acc a => 10 * acc + (code a - 48)) s 0.

(** [int(s)] on the strings the source passes to it: surrounding white space
    is ignored and what remains must be a non-empty run of digits, otherwise
    [ValueError] ([None]). *)
Definition py_int (s : pystr) : option Z :=
  let t := strip s in
  match t with
  | [] => None
  | _ => if forallb is_digit t then Some (digits_value t) else None
  end.

(** [str(n)] for an integer. *)
Definition decimal (n : Z) : pystr :=
  list_ascii_of_string (DecimalString.NilZero.string_of_int (Z.to_int n)).

Definition backslash : ascii := "092"%char.

Definition double_quote : ascii := "034"%char.

Definition hex_char (n : Z) : ascii :=
  ascii_of_nat (Z.to_nat (if n <? 10 then 48 + n else 87 + n)).

(** [str.isprintable] on code points below 256: all but the controls
    0x00..0x1F and 0x7F..0x9F, NBSP and the soft hyphen. *)
Definition is_printable (a : ascii) : bool :=
  let c := code a in
  ((32 <=? c) && (c <=? 126)) || ((161 <=? c) && negb (c =? 173)).

(** One character of [repr(s)] inside the quotes [quote]. *)
Definition repr_char (quote a : ascii) : pystr :=
  if Ascii.eqb a quote || Ascii.eqb a backslash then [backslash; a]
  else if Ascii.eqb a "009"%char then [backslash; "t"%char]
  else if Ascii.eqb a "010"%char then [backslash; "n"%char]
  else if Ascii.eqb a "013"%char then [backslash; "r"%char]
  else if is_printable a then [a]
  else [backslash; "x"%char; hex_char (code a / 16); hex_char (code a mod 16)].

(** [repr(s)], the [%r] of the error messages: double quotes when the text
    holds a single quote and no double quote, single quotes otherwise. *)
Definition py_repr (s : pystr) : pystr :=
  let quote :=
    if contains_char "'"%char s && negb (contains_char double_quote s)
    then double_quote else "'"%char in
  quote :: flat_map (repr_char quote) s ++ [quote].

End PyStr.
Import PyStr.

(* ===================================================================== *)
(** * Regular expressions ([re.match]) *)
(* ===================================================================== *)

(** A backtracking matcher for the fragment of [re] the program uses:
    character classes, sequence, ordered alternation, a greedy star over a
    class, and capturing groups.  Alternatives are tried left to right and
    the first overall success wins, as in Python. *)
Module Re.

Inductive cls : Type :=
| CDigit                       (* \d *)
| CSpace                       (* \s *)
| CChar (a : ascii)            (* a literal character *)
| CRange (lo hi : ascii).      (* [lo-hi] *)

Definition cls_mem (c : cls) (a : ascii) : bool :=
  match c with
  | CDigit => is_digit a
  | CSpace => is_space a
  | CChar b => Ascii.eqb a b
  | CRange lo hi => (code lo <=? code a) && (code a <=? code hi)
  end.

Inductive re : Type :=
| Eps
| Cls (c : cls)
| Seq (r1 r2 : re)
| Alt (r1 r2 : re)
| Star (c : cls)
| Grp (name : string) (r : re).

(** [r?] (greedy) *)
Definition Opt (r : re) : re := Alt r Eps.

Fixpoint Lit (s : pystr) : re :=
  match s with
  | [] => Eps
  | a :: s' => Seq (Cls (CChar a)) (Lit s')
  end.

Definition captures := list (string * pystr).

(** [m.group(name)]; [None] for a group that took no part in the match. *)
Fixpoint group (name : string) (c : captures) : option pystr :=
  match c with
  | [] => None
  | (n, v) :: c' => if String.eqb n name then Some v else group name c'
  end.

Section Matcher.
Context {A : Type}.

Fixpoint star_k (c : cls) (s : pystr) (k : pystr -> option A) : option A :=
    match s with
    | a :: s' =>
        if cls_mem c a then
          match star_k c s' k with
          | Some r => Some r
          | None => k s
          end
        else k s
    | [] => k s
    end.

Fixpoint matchk (r : re) (s : pystr) (caps : captures)
           (k : pystr -> captures -> option A) : option A :=
    match r with
    | Eps => k s caps
    | Cls c =>
        match s with
        | a :: s' => if cls_mem c a then k s' caps else None
        | [] => None
        end
    | Seq r1 r2 => matchk r1 s caps (fun s' c' => matchk r2 s' c' k)
    | Alt r1 r2 =>
        match matchk r1 s caps k with
        | Some x => Some x
        | None => matchk r2 s caps k
        end
    | Star c => star_k c s (fun s' => k s' caps)
    | Grp name r1 =>
        matchk r1 s caps
          (fun s' c' => k s' ((name, firstn (List.length s - List.length s') s) :: c'))
    end.
End Matcher.

(** [$]: the end of the string, or just before a final newline. *)
Definition at_end (s : pystr) : bool :=
  match s with
  | [] => true
  | [a] => Ascii.eqb a "010"%char
  | _ => false
  end.

(** [re.match('^' r '$', s)]: the groups of the match, if any. *)
Definition match_anchored (r : re) (s : pystr) : option captures :=
  matchk r s [] (fun s' c => if at_end s' then Some c else None).

(** [re.match(r, s)] followed by the test that the match covers all of [s],
    as [_strptime] does: the first match decides, there is no retry. *)
Definition match_all (r : re) (s : pystr) : option captures :=
  match matchk r s [] (fun s' c => Some (s', c)) with
  | Some ([], c) => Some c
  | _ => None
  end.

End Re.
Import Re.

(* ===================================================================== *)
(** * [datetime] *)
(* ===================================================================== *)

(** The part of Python's [datetime] the program relies on.  Dates are
    proleptic Gregorian, years 1..9999.  Time zones only occur as the fixed
    UTC suffix written by the adapter and as an offset that
    [fromisoformat] validates and the program never reads. *)
Module Datetime.

Record datetime : Type := mkdt {
  year : Z; month : Z; day : Z;
  hour : Z; minute : Z; second : Z; microsecond : Z
}.

Definition MAXORDINAL : Z := 3652059.

Definition is_leap (y : Z) : bool :=
  (y mod 4 =? 0) && (negb (y mod 100 =? 0) || (y mod 400 =? 0)).

Definition days_in_month (y m : Z) : Z :=
  if m =? 2 then (if is_leap y then 29 else 28)
  else if (m =? 4) || (m =? 6) || (m =? 9) || (m =? 11) then 30
  else 31.

Definition days_before_year (y : Z) : Z :=
  let y' := y - 1 in y' * 365 + y' / 4 - y' / 100 + y' / 400.

Definition days_before_month (y m : Z) : Z :=
  nth (Z.to_nat m) [0; 0; 31; 59; 90; 120; 151; 181; 212; 243; 273; 304; 334] 0
  + (if (2 <? m) && is_leap y then 1 else 0).

(** [date.toordinal()]: 1 for 0001-01-01. *)
Definition ymd2ord (y m d : Z) : Z :=
  days_before_year y + days_before_month y m + d.

(** [date.fromordinal(n)] *)
Definition ord2ymd (n0 : Z) : Z * Z * Z :=
  let n := n0 - 1 in
  let n400 := n / 146097 in let n := n mod 146097 in
  let y := n400 * 400 + 1 in
  let n100 := n / 36524 in let n := n mod 36524 in
  let n4 := n / 1461 in let n := n mod 1461 in
  let n1 := n / 365 in let n := n mod 365 in
  let y := y + n100 * 100 + n4 * 4 + n1 in
  if (n1 =? 4) || (n100 =? 4) then (y - 1, 12, 31)
  else
    let leapyear := (n1 =? 3) && (negb (n4 =? 24) || (n100 =? 3)) in
    let m := Z.shiftr (n + 50) 5 in
    let preceding := days_before_month 1 m + (if (2 <? m) && leapyear then 1 else 0) in
    if n <? preceding then
      let m' := m - 1 in
      let preceding' :=
        preceding - (days_in_month 1 m' + (if (m' =? 2) && leapyear then 1 else 0)) in
      (y, m', n - preceding' + 1)
    else (y, m, n - preceding + 1).

Definition valid_date (y m d : Z) : bool :=
  (1 <=? y) && (y <=? 9999) && (1 <=? m) && (m <=? 12)
  && (1 <=? d) && (d <=? days_in_month y m).

Definition valid_time (h mi s us : Z) : bool :=
  (0 <=? h) && (h <=? 23) && (0 <=? mi) && (mi <=? 59)
  && (0 <=? s) && (s <=? 59) && (0 <=? us) && (us <=? 999999).

(** The constructor [datetime(y, m, d, h, mi, s, us)]; [None] is its
    [ValueError]. *)
Definition make (y m d h mi s us : Z) : option datetime :=
  if valid_date y m d && valid_time h mi s us
  then Some (mkdt y m d h mi s us) else None.

Definition wf (dt : datetime) : bool :=
  valid_date (year dt) (month dt) (day dt)
  && valid_time (hour dt) (minute dt) (second dt) (microsecond dt).

Definition fields (dt : datetime) : list Z :=
  [year dt; month dt; day dt; hour dt; minute dt; second dt; microsecond dt].

Fixpoint lex_lt (a b : list Z) : bool :=
  match a, b with
  | x :: a', y :: b' => (x <? y) || ((x =? y) && lex_lt a' b')
  | _, _ => false
  end.

(** [a < b] on naive datetimes: the fields compared in order. *)
Definition lt (a b : datetime) : bool := lex_lt (fields a) (fields b).

(** [a > b] *)
Definition gt (a b : datetime) : bool := lt b a.

Definition us_per_day : Z := 86400 * 1000000.

(** [dt + timedelta(microseconds=delta)]; [None] is [OverflowError]. *)
Definition add_us (dt : datetime) (delta : Z) : option datetime :=
  let total :=
    ((ymd2ord (year dt) (month dt) (day dt) * 86400
      + hour dt * 3600 + minute dt * 60 + second dt) * 1000000
     + microsecond dt) + delta in
  let days := total / us_per_day in
  let rem := total mod us_per_day in
  let secs := rem / 1000000 in
  if (0 <? days) && (days <=? MAXORDINAL) then
    let '(y, m, d) := ord2ymd days in
    Some (mkdt y m d (secs / 3600) ((secs mod 3600) / 60) (secs mod 60)
               (rem mod 1000000))
  else None.

(** [dt + timedelta(minutes=n)] *)
Definition add_minutes (dt : datetime) (n : Z) : option datetime :=
  add_us dt (n * 60 * 1000000).

(** [dt + timedelta(days=n)] *)
Definition add_days (dt : datetime) (n : Z) : option datetime :=
  add_us dt (n * us_per_day).

(** [dt.replace(hour=0, minute=0, second=0, microsecond=0)] *)
Definition midnight (dt : datetime) : datetime :=
  mkdt (year dt) (month dt) (day dt) 0 0 0 0.

(** [dt.replace(hour=0, minute=0, second=0)] *)
Definition replace_hms0 (dt : datetime) : datetime :=
  mkdt (year dt) (month dt) (day dt) 0 0 0 (microsecond dt).

(** ** [strptime] *)

(** The regular expression of a directive, from [_strptime.TimeRE]. *)
Definition directive (d : ascii) : option re :=
  let dg := Cls CDigit in
  let rg lo hi := Cls (CRange lo hi) in
  if Ascii.eqb d "Y" then Some (Grp "Y" (Seq dg (Seq dg (Seq dg dg))))
  else if Ascii.eqb d "m" then
    Some (Grp "m" (Alt (Seq (Cls (CChar "1")) (rg "0"%char "2"%char))
                  (Alt (Seq (Cls (CChar "0")) (rg "1"%char "9"%char)) (rg "1"%char "9"%char))))
  else if Ascii.eqb d "d" then
    Some (Grp "d" (Alt (Seq (Cls (CChar "3")) (rg "0"%char "1"%char))
                  (Alt (Seq (rg "1"%char "2"%char) dg)
                  (Alt (Seq (Cls (CChar "0")) (rg "1"%char "9"%char))
                  (Alt (rg "1"%char "9"%char) (Seq (Cls (CChar " ")) (rg "1"%char "9"%char)))))))
  else if Ascii.eqb d "H" then
    Some (Grp "H" (Alt (Seq (Cls (CChar "2")) (rg "0"%char "3"%char))
                  (Alt (Seq (rg "0"%char "1"%char) dg) dg)))
  else if Ascii.eqb d "M" then
    Some (Grp "M" (Alt (Seq (rg "0"%char "5"%char) dg) dg))
  else None.

(** [TimeRE.pattern]: a directive becomes its expression, a run of white
    space becomes [\s+], any other character stands for itself. *)
Fixpoint pattern (after_space : bool) (fmt : pystr) : option re :=
  match fmt with
  | [] => Some Eps
  | a :: rest =>
      if Ascii.eqb a "%" then
        match rest with
        | d :: rest' =>
            match directive d, pattern false rest' with
            | Some r, Some r' => Some (Seq r r')
            | _, _ => None
            end
        | [] => None
        end
      else if is_space a then
        match pattern true rest with
        | Some r' =>
            Some (if after_space then r' else Seq (Cls CSpace) (Seq (Star CSpace) r'))
        | None => None
        end
      else
        match pattern false rest with
        | Some r' => Some (Seq (Cls (CChar a)) r')
        | None => None
        end
  end.

Definition int_group (name : string) (default : Z) (c : captures) : option Z :=
  match group name c with
  | Some s => py_int s
  | None => Some default
  end.

(** [datetime.strptime(s, fmt)]; [None] is its [ValueError]. *)
Definition strptime (s fmt : pystr) : option datetime :=
  match pattern false fmt with
  | None => None
  | Some r =>
      match match_all r s with
      | None => None
      | Some c =>
          match int_group "Y" 1900 c, int_group "m" 1 c, int_group "d" 1 c,
                int_group "H" 0 c, int_group "M" 0 c with
          | Some y, Some m, Some d, Some h, Some mi => make y m d h mi 0 0
          | _, _, _, _, _ => None
          end
      end
  end.

(** ** The errors of [strptime] *)

(** The first fault of a format: a [%] at its end ([None]) or a character
    after a [%] that is no directive. *)
Fixpoint format_fault (fmt : pystr) : option (option ascii) :=
  match fmt with
  | [] => None
  | a :: rest =>
      if Ascii.eqb a "%" then
        match rest with
        | d :: rest' =>
            match directive d with
            | Some _ => format_fault rest'
            | None => Some (Some d)
            end
        | [] => Some None
        end
      else format_fault rest
  end.

Definition format_message (fmt : pystr) : pystr :=
  match format_fault fmt with
  | Some (Some d) =>
      lit "'" ++ [d] ++ lit "' is a bad directive in format '" ++ fmt ++ lit "'"
  | _ => lit "stray % in format '" ++ fmt ++ lit "'"
  end.

(** The message of [int] for the first group, in the order of the format,
    that it cannot read. *)
Definition int_message (c : captures) : pystr :=
  match find (fun g => match py_int (snd g) with None => true | Some _ => false end)
             (rev c) with
  | Some g => lit "invalid literal for int() with base 10: " ++ py_repr (snd g)
  | None => []
  end.

(** The message of the constructors [date(y, m, d)] and
    [datetime(y, m, d, h, mi)] for fields out of range, checked in this
    order, in the words of CPython 3.11. *)
Definition range_message (y m d h mi : Z) : pystr :=
  if negb ((1 <=? y) && (y <=? 9999))
  then lit "year " ++ decimal y ++ lit " is out of range"
  else if negb ((1 <=? m) && (m <=? 12)) then lit "month must be in 1..12"
  else if negb ((1 <=? d) && (d <=? days_in_month y m))
  then lit "day is out of range for month"
  else if negb ((0 <=? h) && (h <=? 23)) then lit "hour must be in 0..23"
  else lit "minute must be in 0..59".

(** [datetime.strptime(s, fmt)] with the text of its [ValueError]: the
    format is compiled, the text is matched from its start, the match has to
    reach the end of the text, the groups are read as integers and the date
    is built. *)
Definition strptime_outcome (s fmt : pystr) : pystr + datetime :=
  match pattern false fmt with
  | None => inl (format_message fmt)
  | Some r =>
      match matchk r s [] (fun s' c => Some (s', c)) with
      | None =>
          inl (lit "time data " ++ py_repr s ++ lit " does not match format "
               ++ py_repr fmt)
      | Some ((a :: rest), _) => inl (lit "unconverted data remains: " ++ a :: rest)
      | Some ([], c) =>
          match int_group "Y" 1900 c, int_group "m" 1 c, int_group "d" 1 c,
                int_group "H" 0 c, int_group "M" 0 c with
          | Some y, Some m, Some d, Some h, Some mi =>
              match make y m d h mi 0 0 with
              | Some dt => inr dt
              | None => inl (range_message y m d h mi)
              end
          | _, _, _, _, _ => inl (int_message c)
          end
      end
  end.

(** [str(e)] for the [ValueError] of [datetime.strptime(s, fmt)]. *)
Definition strptime_message (s fmt : pystr) : pystr :=
  match strptime_outcome s fmt with
  | inl message => message
  | inr _ => []
  end.

(** ** [strftime] and [isoformat] *)

(** [dt.strftime(fmt)] for the directives the program uses, the year
    written with four digits. *)
Fixpoint strftime (dt : datetime) (fmt : pystr) : pystr :=
  match fmt with
  | [] => []
  | a :: rest =>
      if Ascii.eqb a "%" then
        match rest with
        | d :: rest' =>
            (if Ascii.eqb d "Y" then zpad 4 (year dt)
             else if Ascii.eqb d "m" then zpad 2 (month dt)
             else if Ascii.eqb d "d" then zpad 2 (day dt)
             else if Ascii.eqb d "H" then zpad 2 (hour dt)
             else if Ascii.eqb d "M" then zpad 2 (minute dt)
             else [a; d]) ++ strftime dt rest'
        | [] => [a]
        end
      else a :: strftime dt rest
  end.

(** [dt.isoformat()] of a naive datetime. *)
Definition isoformat (dt : datetime) : pystr :=
  zpad 4 (year dt) ++ lit "-" ++ zpad 2 (month dt) ++ lit "-" ++ zpad 2 (day dt)
  ++ lit "T" ++ zpad 2 (hour dt) ++ lit ":" ++ zpad 2 (minute dt) ++ lit ":"
  ++ zpad 2 (second dt)
  ++ (if microsecond dt =? 0 then [] else lit "." ++ zpad 6 (microsecond dt)).

(** [pytz.timezone("UTC").localize(dt).isoformat()] *)
Definition isoformat_utc (dt : datetime) : pystr := isoformat dt ++ lit "+00:00".

(** ** [fromisoformat] (the grammar of Python 3.7 to 3.10) *)

Definition digits_n (n : nat) (s : pystr) : option Z :=
  if (List.length s =? n)%nat && forallb is_digit s then Some (digits_value s)
  else None.

(** [HH[:MM[:SS[.fff[fff]]]]] *)
Definition parse_hh_mm_ss_ff (s : pystr) : option (Z * Z * Z * Z) :=
  match digits_n 2 (firstn 2 s), skipn 2 s with
  | None, _ => None
  | Some h, [] => Some (h, 0, 0, 0)
  | Some h, c1 :: s1 =>
      if negb (Ascii.eqb c1 ":") then None else
      match digits_n 2 (firstn 2 s1), skipn 2 s1 with
      | None, _ => None
      | Some mi, [] => Some (h, mi, 0, 0)
      | Some mi, c2 :: s2 =>
          if negb (Ascii.eqb c2 ":") then None else
          match digits_n 2 (firstn 2 s2), skipn 2 s2 with
          | None, _ => None
          | Some sec, [] => Some (h, mi, sec, 0)
          | Some sec, c3 :: s3 =>
              if negb (Ascii.eqb c3 ".") then None else
              match digits_n 3 s3, digits_n 6 s3 with
              | Some ms, _ => Some (h, mi, sec, ms * 1000)
              | None, Some us => Some (h, mi, sec, us)
              | None, None => None
              end
          end
      end
  end.

Fixpoint split_at_sign (s : pystr) : pystr * option pystr :=
  match s with
  | [] => ([], None)
  | a :: s' =>
      if Ascii.eqb a "-" || Ascii.eqb a "+" then ([], Some s')
      else let '(t, z) := split_at_sign s' in (a :: t, z)
  end.

(** A UTC offset must be shorter than a day. *)
Definition valid_offset (z : pystr) : bool :=
  match List.length z with
  | 5%nat | 8%nat | 15%nat =>
      match parse_hh_mm_ss_ff z with
      | Some (h, mi, s, us) =>
          ((h * 3600 + mi * 60 + s) * 1000000 + us <? us_per_day)
      | None => false
      end
  | _ => false
  end.

(** [datetime.fromisoformat(s)]; [None] is its [ValueError].  The result
    carries the wall-clock fields of [s]; the offset is checked only. *)
Definition fromisoformat (s : pystr) : option datetime :=
  let dstr := firstn 10 s in
  let tstr := skipn 11 s in
  match digits_n 4 (firstn 4 dstr), nth_error dstr 4,
        digits_n 2 (firstn 2 (skipn 5 dstr)), nth_error dstr 7,
        digits_n 2 (skipn 8 dstr) with
  | Some y, Some s1, Some m, Some s2, Some d =>
      if negb (Ascii.eqb s1 "-" && Ascii.eqb s2 "-") then None else
      match tstr with
      | [] => make y m d 0 0 0 0
      | _ =>
          if (List.length tstr <? 2)%nat then None else
          let '(t, z) := split_at_sign tstr in
          match parse_hh_mm_ss_ff t with
          | None => None
          | Some (h, mi, sec, us) =>
              match z with
              | Some zs => if valid_offset zs then make y m d h mi sec us else None
              | None => make y m d h mi sec us
              end
          end
      end
  | _, _, _, _, _ => None
  end.

End Datetime.
Import Datetime.

(* ===================================================================== *)
(** * [utils/helpers.py] *)
(* ===================================================================== *)

Module Helpers.

(** [formats] of [parse_date], in the order of the source. *)
Definition formats : list pystr :=
  [lit "%Y-%m-%d"; lit "%Y/%m/%d"; lit "%d-%m-%Y"; lit "%d/%m/%Y"].

(** The loop of [parse_date]: the first format that [strptime] accepts. *)
Fixpoint first_parse (date_str : pystr) (fmts : list pystr) : option datetime :=
  match fmts with
  | [] => None
  | fmt :: rest =>
      match strptime date_str fmt with
      | Some dt => Some dt
      | None => first_parse date_str rest
      end
  end.

Definition parse_date (date_str : pystr) : option datetime :=
  first_parse date_str formats.

(** [s.split(c)] *)
Fixpoint split (c : ascii) (s : pystr) : list pystr :=
  match s with
  | [] => [[]]
  | a :: s' =>
      if Ascii.eqb a c then [] :: split c s'
      else match split c s' with
           | p :: ps => (a :: p) :: ps
           | [] => [[a]]
           end
  end.

Definition dg : re := Cls CDigit.

(** [^\d{1,2}:\d{2}$] *)
Definition re_24h : re :=
  Seq dg (Seq (Opt dg) (Seq (Cls (CChar ":")) (Seq dg dg))).

(** [^(\d{1,2}):?(\d{2})?\s*(AM|PM|am|pm)$] *)
Definition re_12h : re :=
  Seq (Grp "1" (Seq dg (Opt dg)))
 (Seq (Opt (Cls (CChar ":")))
 (Seq (Opt (Grp "2" (Seq dg dg)))
 (Seq (Star CSpace)
      (Grp "3" (Alt (Lit (lit "AM")) (Alt (Lit (lit "PM"))
               (Alt (Lit (lit "am")) (Lit (lit "pm"))))))))).

Definition in_range (hour minute : Z) : bool :=
  (0 <=? hour) && (hour <=? 23) && (0 <=? minute) && (minute <=? 59).

(** [f"{hour:02d}:{minute:02d}"] *)
Definition hhmm (hour minute : Z) : pystr :=
  zpad 2 hour ++ lit ":" ++ zpad 2 minute.

(** The 24-hour branch: [Some] when it returns, [None] when control falls
    through to the 12-hour branch. *)
Definition parse_time_24h (time_str : pystr) : option pystr :=
  match match_anchored re_24h time_str with
  | None => None
  | Some _ =>
      let parts := split ":" time_str in
      match nth_error parts 0, nth_error parts 1 with
      | Some p0, Some p1 =>
          match py_int p0, py_int p1 with
          | Some hour, Some minute =>
              if in_range hour minute then Some (hhmm hour minute) else None
          | _, _ => None
          end
      | _, _ => None
      end
  end.

Definition parse_time_12h (time_str : pystr) : option pystr :=
  match match_anchored re_12h time_str with
  | None => None
  | Some m =>
      match group "1" m, group "3" m with
      | Some g1, Some g3 =>
          match py_int g1,
                (match group "2" m with
                 | Some ((_ :: _) as g2) => py_int g2
                 | _ => Some 0
                 end) with
          | Some hour, Some minute =>
              let period := upper g3 in
              let hour :=
                if str_eqb period (lit "PM") && negb (hour =? 12) then hour + 12
                else if str_eqb period (lit "AM") && (hour =? 12) then 0
                else hour in
              if in_range hour minute then Some (hhmm hour minute) else None
          | _, _ => None
          end
      | _, _ => None
      end
  end.

Definition parse_time (time_str : pystr) : option pystr :=
  let time_str := strip time_str in
  match parse_time_24h time_str with
  | Some r => Some r
  | None => parse_time_12h time_str
  end.

(** [f"{date_str} {time_str}"] parsed with ["%Y-%m-%d %H:%M"]. *)
Definition combine (date_str time_str : pystr) : option datetime :=
  strptime (date_str ++ lit " " ++ time_str) (lit "%Y-%m-%d %H:%M").

(** [is_future_datetime], given the reading of [datetime.now()]; every
    exception of the guarded block yields [False]. *)
Definition is_future_datetime (date_str time_str : pystr) (now : datetime) : bool :=
  match combine date_str time_str with
  | Some dt => gt dt now
  | None => false
  end.

End Helpers.
Import Helpers.

(* ===================================================================== *)
(** * Data model *)
(* ===================================================================== *)

(** Truthiness of a string ([if s:]). *)
Definition truthy (s : pystr) : bool :=
  match s with [] => false | _ => true end.

(** Truthiness of an optional string ([None] and [""] are falsy). *)
Definition otruthy (s : option pystr) : bool :=
  match s with Some t => truthy t | None => false end.

(** [str(x)] of an optional string, as an f-string prints it. *)
Definition ostr (s : option pystr) : pystr :=
  match s with Some t => t | None => lit "None" end.

Definition opt_eqb (a b : option pystr) : bool :=
  match a, b with
  | Some x, Some y => str_eqb x y
  | None, None => true
  | _, _ => false
  end.

(** [str(n)] of an integer. *)
Definition str_of_Z (n : Z) : pystr :=
  list_ascii_of_string (DecimalString.NilZero.string_of_int (Z.to_int n)).

(** The local meeting dictionary.  The keys every producer sets are plain
    fields; the others are optional. *)
Record Meeting : Type := mkMeeting {
  m_id : option pystr;
  m_title : pystr;
  m_date : pystr;
  m_time : pystr;
  m_participants : list pystr;
  m_description : pystr;
  m_created_at : option pystr;
  m_google_event_id : option pystr;
  m_synced_to_google : bool;
  m_google_link : option pystr;
  m_meet_link : option pystr
}.

Record Attendee : Type := mkAttendee {
  a_email : option pystr;
  a_displayName : option pystr
}.

Record EventTime : Type := mkEventTime {
  et_dateTime : option pystr;
  et_date : option pystr;
  et_timeZone : option pystr
}.

(** The provider's event object; an absent key is [None]. *)
Record GEvent : Type := mkGEvent {
  g_id : option pystr;
  g_summary : option pystr;
  g_description : option pystr;
  g_start : option EventTime;
  g_end : option EventTime;
  g_attendees : option (list Attendee);
  g_reminder_overrides : list (pystr * Z);
  g_private : option (option pystr * pystr);   (* local_id, created_by *)
  g_conference_request : option pystr;         (* createRequest.requestId *)
  g_htmlLink : option pystr;
  g_hangoutLink : option pystr
}.

(** The entries of [GOOGLE_CALENDAR_CONFIG] the core reads. *)
Record Config : Type := mkConfig {
  enabled : bool;
  calendar_id : pystr;
  default_reminder_minutes : Z;
  send_notifications : bool;
  add_conference_link : bool;
  enable_conflict_detection : option bool
}.

(** The values of [config/google_calendar_config.py]; the key
    [enable_conflict_detection] is not in that dictionary. *)
Definition GOOGLE_CALENDAR_CONFIG : Config :=
  mkConfig true (lit "primary") 15 true true None.

(** Exceptions; [str(e)] is [exn_msg]. *)
Inductive exn : Type :=
| HttpError (status : Z) (msg : pystr)
| ValueError (msg : pystr)
| OverflowError (msg : pystr)
| TypeError (msg : pystr)
| RuntimeError (msg : pystr)
| OtherError (msg : pystr).

Definition exn_msg (e : exn) : pystr :=
  match e with
  | HttpError _ m | ValueError m | OverflowError m | TypeError m
  | RuntimeError m | OtherError m => m
  end.

Definition is_http (e : exn) : bool :=
  match e with HttpError _ _ => true | _ => false end.

(** The uniform result dictionary of the tool handlers. *)
Record Result : Type := mkResult {
  success : bool;
  error : option pystr;
  meeting : option Meeting;
  meetings : option (list Meeting);
  deleted_meeting : option Meeting;
  message : option pystr;
  count : option Z
}.

Definition failure (msg : pystr) : Result :=
  mkResult false (Some msg) None None None None None.

(* ===================================================================== *)
(** * Environment: provider, clock, id generator *)
(* ===================================================================== *)

(** What the program calls and does not own.  Each operation may depend on
    and change the state of the outside world. *)
Record Env : Type := mkEnv {
  world : Type;
  (** [datetime.now()] *)
  env_now : world -> datetime * world;
  (** [str(uuid.uuid4())[:8]] *)
  env_uuid8 : world -> pystr * world;
  (** [events().list(calendarId, timeMin, timeMax, maxResults,
      singleEvents=True, orderBy="startTime").execute()]: the [items]. *)
  env_list : pystr -> pystr -> pystr -> Z -> world -> (exn + list GEvent) * world;
  (** [events().insert(calendarId, body, ...).execute()] *)
  env_insert : pystr -> GEvent -> world -> (exn + GEvent) * world;
  (** [events().update(calendarId, eventId, body, ...).execute()] *)
  env_update : pystr -> pystr -> GEvent -> world -> (exn + GEvent) * world;
  (** [events().delete(calendarId, eventId, ...).execute()] *)
  env_delete : pystr -> pystr -> world -> (exn + unit) * world
}.

(** The calls the handlers make, in the order they are made: those on the
    adapter ([Svc...]) and those the adapter sends on ([Api...]). *)
Inductive call : Type :=
| SvcGetEvents (time_min time_max : datetime)
| SvcCreate (m : Meeting)
| SvcUpdate (m : Meeting) (event_id : pystr)
| SvcDelete (event_id : pystr)
| ApiList (time_min time_max : pystr) (max_results : Z)
| ApiInsert (body : GEvent)
| ApiUpdate (event_id : pystr) (body : GEvent)
| ApiDelete (event_id : pystr).

Section Program.

Variable E : Env.

Record state : Type := mkState {
  st_world : world E;
  st_trace : list call
}.

(** Computations that read and change the state and may raise. *)
Definition M (A : Type) : Type := state -> (exn + A) * state.

Definition ret {A} (a : A) : M A := fun s => (inr a, s).
Definition raise {A} (e : exn) : M A := fun s => (inl e, s).
Definition bind {A B} (c : M A) (f : A -> M B) : M B :=
  fun s => match c s with
           | (inr a, s') => f a s'
           | (inl e, s') => (inl e, s')
           end.
(** [try: c except Exception as e: h e] *)
Definition try_except {A} (c : M A) (h : exn -> M A) : M A :=
  fun s => match c s with
           | (inr a, s') => (inr a, s')
           | (inl e, s') => h e s'
           end.

Notation "x <- c ;; k" := (bind c (fun x => k))
  (at level 61, c at next level, right associativity).
Notation "c ;;; k" := (bind c (fun _ => k))
  (at level 61, right associativity).

Definition record (c : call) : M unit :=
  fun s => (inr tt, mkState (st_world s) (st_trace s ++ [c])).

Definition lift_world {A} (f : world E -> A * world E) : M A :=
  fun s => let '(a, w) := f (st_world s) in (inr a, mkState w (st_trace s)).

Definition lift_api {A} (f : world E -> (exn + A) * world E) : M A :=
  fun s => let '(r, w) := f (st_world s) in (r, mkState w (st_trace s)).

Definition now : M datetime := lift_world (env_now E).
Definition generate_meeting_id : M pystr := lift_world (env_uuid8 E).

(** [raise] on [None]. *)
Definition expect {A} (o : option A) (e : exn) : M A :=
  match o with Some a => ret a | None => raise e end.

(* ===================================================================== *)
(** * [integrations/google_calendar_service.py] *)
(* ===================================================================== *)

(** The adapter object: its copy of the configuration and whether
    [self.service] is set. *)
Record Service : Type := mkService {
  config : Config;
  authenticated : bool
}.

Variable svc : Service.

Definition is_enabled : bool := enabled (config svc) && authenticated svc.

Definition is_email (s : pystr) : bool :=
  contains_char "@" s && contains_char "." s.

(** The loop over [participants]: the attendees and the non-e-mail
    participants, both in order. *)
Fixpoint partition_participants (ps : list pystr) : list Attendee * list pystr :=
  match ps with
  | [] => ([], [])
  | p :: rest =>
      let '(att, non) := partition_participants rest in
      if truthy p then
        let participant_str := strip p in
        if is_email participant_str
        then (mkAttendee (Some participant_str) None :: att, non)
        else (att, participant_str :: non)
      else (att, non)
  end.

Definition newline : ascii := "010"%char.

Definition build_description (description : pystr) (non_email : list pystr) : pystr :=
  match non_email with
  | [] => description
  | _ =>
      let participants_text :=
        [newline; newline] ++ lit "Participants: " ++ join (lit ", ") non_email in
      if truthy description then description ++ participants_text
      else strip participants_text
  end.

(** The [ValueError] of [datetime.strptime(s, "%Y-%m-%d %H:%M")]. *)
Definition strptime_error (s : pystr) : exn :=
  ValueError (strptime_message s (lit "%Y-%m-%d %H:%M")).

Definition overflow_error : exn := OverflowError (lit "date value out of range").

Definition _convert_to_google_event (meeting : Meeting) : exn + GEvent :=
  let date_str := m_date meeting in
  let time_str := m_time meeting in
  match combine date_str time_str with
  | None => inl (strptime_error (date_str ++ lit " " ++ time_str))
  | Some start_datetime =>
      match add_minutes start_datetime 60 with
      | None => inl overflow_error
      | Some end_datetime =>
          let start_iso := isoformat_utc start_datetime in
          let end_iso := isoformat_utc end_datetime in
          let '(attendees, non_email_participants) :=
            partition_participants (m_participants meeting) in
          let description :=
            build_description (m_description meeting) non_email_participants in
          let minutes := default_reminder_minutes (config svc) in
          inr (mkGEvent
                 None
                 (Some (m_title meeting))
                 (Some description)
                 (Some (mkEventTime (Some start_iso) None (Some (lit "UTC"))))
                 (Some (mkEventTime (Some end_iso) None (Some (lit "UTC"))))
                 (match attendees with [] => None | _ => Some attendees end)
                 [(lit "email", minutes); (lit "popup", minutes)]
                 (Some (m_id meeting, lit "calendar_mcp_agent"))
                 (if add_conference_link (config svc)
                  then Some (lit "meet-" ++ ostr (m_id meeting)) else None)
                 None None)
      end
  end.

(** [s.replace("Z", "+00:00")] *)
Fixpoint replace_Z (s : pystr) : pystr :=
  match s with
  | [] => []
  | a :: s' => if Ascii.eqb a "Z" then lit "+00:00" ++ replace_Z s' else a :: replace_Z s'
  end.

Definition attendee_name (a : Attendee) : pystr :=
  if otruthy (a_displayName a) then ostr (a_displayName a)
  else before_first "@" (match a_email a with Some e => e | None => [] end).

Definition _convert_from_google_event (event : GEvent) : option Meeting :=
  let start_datetime_str :=
    match g_start event with
    | None => []
    | Some start =>
        match et_dateTime start with
        | Some s => s
        | None => match et_date start with Some s => s | None => [] end
        end
    end in
  if negb (truthy start_datetime_str) then None else
  match (if contains_char "T" start_datetime_str
         then fromisoformat (replace_Z start_datetime_str)
         else strptime start_datetime_str (lit "%Y-%m-%d")) with
  | None => None
  | Some start_dt =>
      let participants :=
        map attendee_name (match g_attendees event with Some l => l | None => [] end) in
      let local_id :=
        match g_private event with Some (l, _) => l | None => None end in
      Some (mkMeeting
              (if otruthy local_id then local_id else g_id event)
              (match g_summary event with Some s => s | None => lit "Untitled" end)
              (strftime start_dt (lit "%Y-%m-%d"))
              (strftime start_dt (lit "%H:%M"))
              participants
              (match g_description event with Some s => s | None => [] end)
              None
              (g_id event)
              false
              (Some (match g_htmlLink event with Some s => s | None => [] end))
              (if otruthy (g_hangoutLink event) then g_hangoutLink event else None))
  end.

(** [try: c except HttpError: return fallback]; other exceptions pass. *)
Definition except_http {A} (c : M A) (fallback : A) : M A :=
  try_except c (fun e => if is_http e then ret fallback else raise e).

Definition lift_sum {A} (r : exn + A) : M A :=
  match r with inr a => ret a | inl e => raise e end.

Definition create_event (meeting : Meeting) : M (option pystr) :=
  record (SvcCreate meeting) ;;;
  if negb is_enabled then ret None else
  except_http
    (event <- lift_sum (_convert_to_google_event meeting) ;;
     record (ApiInsert event) ;;;
     result <- lift_api (env_insert E (calendar_id (config svc)) event) ;;
     ret (g_id result))
    None.

Definition update_event (meeting : Meeting) (google_event_id : pystr) : M bool :=
  record (SvcUpdate meeting google_event_id) ;;;
  if negb is_enabled then ret false else
  except_http
    (event <- lift_sum (_convert_to_google_event meeting) ;;
     record (ApiUpdate google_event_id event) ;;;
     _ <- lift_api (env_update E (calendar_id (config svc)) google_event_id event) ;;
     ret true)
    false.

Definition delete_event (google_event_id : pystr) : M bool :=
  record (SvcDelete google_event_id) ;;;
  if negb is_enabled then ret false else
  except_http
    (record (ApiDelete google_event_id) ;;;
     _ <- lift_api (env_delete E (calendar_id (config svc)) google_event_id) ;;
     ret true)
    false.

(** The conversion loop of [get_events]: events that do not convert are
    dropped. *)
Fixpoint convert_all (events : list GEvent) : list Meeting :=
  match events with
  | [] => []
  | event :: rest =>
      match _convert_from_google_event event with
      | Some meeting => meeting :: convert_all rest
      | None => convert_all rest
      end
  end.

(** [get_events(time_min, time_max)]; the handlers always pass both bounds
    and leave [max_results] at 100. *)
Definition get_events (time_min time_max : datetime) : M (list Meeting) :=
  record (SvcGetEvents time_min time_max) ;;;
  if negb is_enabled then ret [] else
  except_http
    (let time_min_iso := isoformat time_min ++ lit "Z" in
     let time_max_iso := isoformat time_max ++ lit "Z" in
     record (ApiList time_min_iso time_max_iso 100) ;;;
     events <- lift_api (env_list E (calendar_id (config svc))
                                  time_min_iso time_max_iso 100) ;;
     ret (convert_all events))
    [].

(** [sync_event(meeting, action)] *)
Definition sync_event (meeting : Meeting) (action : pystr) : M (option pystr) :=
  if negb is_enabled then ret None else
  let google_event_id := m_google_event_id meeting in
  if str_eqb action (lit "create") then create_event meeting
  else if str_eqb action (lit "update") && otruthy google_event_id then
    success <- update_event meeting (ostr google_event_id) ;;
    ret (if success then google_event_id else None)
  else if str_eqb action (lit "delete") && otruthy google_event_id then
    success <- delete_event (ostr google_event_id) ;;
    ret (if success then google_event_id else None)
  else ret None.

(* ===================================================================== *)
(** * [mcp_server/handlers.py] *)
(* ===================================================================== *)

(** The module-level [GOOGLE_CALENDAR_CONFIG] the handlers consult. *)
Variable module_config : Config.

(** [meeting_datetime < event_end and meeting_end > event_datetime] *)
Definition overlaps (meeting_datetime meeting_end event_datetime event_end : datetime)
  : bool :=
  lt meeting_datetime event_end && gt meeting_end event_datetime.

(** The loop of [_check_time_conflict] over the fetched events. *)
Fixpoint conflict_loop (meeting_datetime meeting_end : datetime)
         (exclude_event_id : option pystr) (events : list Meeting)
  : exn + option Meeting :=
  match events with
  | [] => inr None
  | event :: rest =>
      if otruthy exclude_event_id
         && opt_eqb (m_google_event_id event) exclude_event_id
      then conflict_loop meeting_datetime meeting_end exclude_event_id rest
      else
        match combine (m_date event) (m_time event) with
        | None => inl (strptime_error (m_date event ++ lit " " ++ m_time event))
        | Some event_datetime =>
            match add_minutes event_datetime 60 with
            | None => inl overflow_error
            | Some event_end =>
                if overlaps meeting_datetime meeting_end event_datetime event_end
                then inr (Some event)
                else conflict_loop meeting_datetime meeting_end exclude_event_id rest
            end
        end
  end.

(** The guarded block of [_check_time_conflict]. *)
Definition check_time_conflict_body (date_str time_str : pystr)
           (exclude_event_id : option pystr) : M (option Meeting) :=
  meeting_datetime <- expect (combine date_str time_str)
                             (strptime_error (date_str ++ lit " " ++ time_str)) ;;
  meeting_end <- expect (add_minutes meeting_datetime 60) overflow_error ;;
  let day_start := midnight meeting_datetime in
  day_end <- expect (add_days day_start 1) overflow_error ;;
  events <- get_events day_start day_end ;;
  lift_sum (conflict_loop meeting_datetime meeting_end exclude_event_id events).

Definition _check_time_conflict (date_str time_str : pystr)
           (exclude_event_id : option pystr) : M (option Meeting) :=
  try_except (check_time_conflict_body date_str time_str exclude_event_id)
             (fun _ => ret None).

(** [is_future_datetime] with its reading of the clock, which happens only
    once the text has parsed. *)
Definition is_future_datetime_now (date_str time_str : pystr) : M bool :=
  match combine date_str time_str with
  | None => ret false
  | Some _ => n <- now ;; ret (is_future_datetime date_str time_str n)
  end.

Definition conflict_error (conflict : Meeting) : pystr :=
  lit "Time conflict with '" ++ m_title conflict ++ lit "' at "
  ++ m_date conflict ++ lit " " ++ m_time conflict.

Definition conflict_detection_on : bool :=
  match enable_conflict_detection module_config with
  | Some b => b
  | None => true
  end.

Definition schedule_meeting (title date time : pystr)
           (participants : option (list pystr)) (description : pystr) : M Result :=
  try_except
    (let participants := match participants with Some l => l | None => [] end in
     let participants :=
       filter (fun p => truthy p && truthy (strip p)) participants in
     if negb (truthy title && truthy date && truthy time) then
       ret (failure (lit "Missing required fields (title, date, time)"))
     else
     match parse_date date with
     | None =>
         ret (failure (lit "Invalid date format '" ++ date ++ lit "'. Use YYYY-MM-DD"))
     | Some parsed_date =>
     let date_formatted := strftime parsed_date (lit "%Y-%m-%d") in
     match parse_time time with
     | None =>
         ret (failure (lit "Invalid time format '" ++ time
                       ++ lit "'. Use HH:MM or 12-hour format"))
     | Some parsed_time =>
     if negb (truthy parsed_time) then
         ret (failure (lit "Invalid time format '" ++ time
                       ++ lit "'. Use HH:MM or 12-hour format"))
     else
     future <- is_future_datetime_now date_formatted parsed_time ;;
     if negb future then
       ret (failure (lit "Cannot schedule meetings in the past"))
     else
     conflict <- (if conflict_detection_on
                  then _check_time_conflict date_formatted parsed_time None
                  else ret None) ;;
     match conflict with
     | Some c => ret (failure (conflict_error c))
     | None =>
     new_id <- generate_meeting_id ;;
     created <- now ;;
     let meeting :=
       mkMeeting (Some new_id) title date_formatted parsed_time participants
                 description (Some (isoformat created)) None false None None in
     google_event_id <- create_event meeting ;;
     if otruthy google_event_id then
       let meeting :=
         mkMeeting (Some new_id) title date_formatted parsed_time participants
                   description (Some (isoformat created)) google_event_id true
                   None None in
       ret (mkResult true None (Some meeting) None None
              (Some (lit "Successfully scheduled '" ++ title ++ lit "' on "
                     ++ date_formatted ++ lit " at " ++ parsed_time
                     ++ lit " (Synced to Google Calendar)"))
              None)
     else ret (failure (lit "Failed to create event in Google Calendar"))
     end end end)
    (fun e => ret (failure (lit "Error scheduling meeting: " ++ exn_msg e))).

Definition matches_participant (participant : pystr) (m : Meeting) : bool :=
  existsb (fun p => contains (lower participant) (lower p)) (m_participants m).

Definition matches_title (title : pystr) (m : Meeting) : bool :=
  contains (lower title) (lower (m_title m)).

Definition matches_id (meeting_id : pystr) (m : Meeting) : bool :=
  opt_eqb (m_google_event_id m) (Some meeting_id)
  || opt_eqb (m_id m) (Some meeting_id).

(** [filtered = [m for m in filtered if f m]] when the argument is truthy. *)
Definition filter_if (arg : option pystr) (f : pystr -> Meeting -> bool)
           (l : list Meeting) : list Meeting :=
  match arg with
  | Some a => if truthy a then filter (f a) l else l
  | None => l
  end.

Definition len {A} (l : list A) : Z := Z.of_nat (List.length l).

(** The part of [get_meeting_details] after the time range is known. *)
Definition query_range (time_min time_max : datetime)
           (participant title meeting_id : option pystr) : M Result :=
  meetings <- get_events time_min time_max ;;
  match meetings with
  | [] => ret (mkResult true None None (Some []) None
                 (Some (lit "No meetings found")) None)
  | _ =>
      let filtered := filter_if participant matches_participant meetings in
      let filtered := filter_if title matches_title filtered in
      let filtered := filter_if meeting_id matches_id filtered in
      ret (mkResult true None None (Some filtered) None
             (Some (lit "Found " ++ str_of_Z (len filtered)
                    ++ lit " meeting(s) in Google Calendar"))
             (Some (len filtered)))
  end.

Definition get_meeting_details (date participant title meeting_id : option pystr)
  : M Result :=
  try_except
    (if otruthy date then
       match parse_date (ostr date) with
       | None => ret (failure (lit "Invalid date format '" ++ ostr date
                               ++ lit "'. Use YYYY-MM-DD"))
       | Some parsed_date =>
           let time_min := replace_hms0 parsed_date in
           time_max <- expect (add_days time_min 1) overflow_error ;;
           query_range time_min time_max participant title meeting_id
       end
     else
       time_min <- now ;;
       time_max <- expect (add_days time_min 30) overflow_error ;;
       query_range time_min time_max participant title meeting_id)
    (fun e => ret (failure (lit "Error retrieving meetings: " ++ exn_msg e))).

(** The sort keys of [list_all_meetings]; [None] when one of them raises. *)
Fixpoint sort_keys (l : list Meeting) : option (list (datetime * Meeting)) :=
  match l with
  | [] => Some []
  | m :: rest =>
      match combine (m_date m) (m_time m), sort_keys rest with
      | Some k, Some ks => Some ((k, m) :: ks)
      | _, _ => None
      end
  end.

Fixpoint insert_sorted (x : datetime * Meeting) (l : list (datetime * Meeting))
  : list (datetime * Meeting) :=
  match l with
  | [] => [x]
  | y :: l' => if lt (fst y) (fst x) then y :: insert_sorted x l' else x :: l
  end.

(** [sorted(meetings, key=...)]: stable, ascending. *)
Definition sorted_by_key (l : list (datetime * Meeting)) : list Meeting :=
  map snd (fold_right insert_sorted [] l).

Definition list_all_meetings : M Result :=
  try_except
    (time_min <- now ;;
     time_max <- expect (add_days time_min 30) overflow_error ;;
     meetings <- get_events time_min time_max ;;
     match meetings with
     | [] => ret (mkResult true None None (Some []) None
                    (Some (lit "No upcoming meetings in Google Calendar")) (Some 0))
     | _ =>
         let sorted_meetings :=
           match sort_keys meetings with
           | Some keyed => sorted_by_key keyed
           | None => meetings
           end in
         ret (mkResult true None None (Some sorted_meetings) None
                (Some (lit "Found " ++ str_of_Z (len sorted_meetings)
                       ++ lit " upcoming meeting(s) in Google Calendar"))
                (Some (len sorted_meetings)))
     end)
    (fun e => ret (failure (lit "Error listing meetings: " ++ exn_msg e))).

Definition not_found (meeting_id : pystr) : Result :=
  failure (lit "Meeting with ID '" ++ meeting_id ++ lit "' not found in Google Calendar").

(** [not result.get("success") or not result.get("meetings")] fails: the
    first meeting of the result. *)
Definition first_meeting (result : Result) : option Meeting :=
  if success result then
    match meetings result with
    | Some (m :: _) => Some m
    | _ => None
    end
  else None.

Definition set_title (m : Meeting) (v : pystr) : Meeting :=
  mkMeeting (m_id m) v (m_date m) (m_time m) (m_participants m) (m_description m)
    (m_created_at m) (m_google_event_id m) (m_synced_to_google m)
    (m_google_link m) (m_meet_link m).
Definition set_date (m : Meeting) (v : pystr) : Meeting :=
  mkMeeting (m_id m) (m_title m) v (m_time m) (m_participants m) (m_description m)
    (m_created_at m) (m_google_event_id m) (m_synced_to_google m)
    (m_google_link m) (m_meet_link m).
Definition set_time (m : Meeting) (v : pystr) : Meeting :=
  mkMeeting (m_id m) (m_title m) (m_date m) v (m_participants m) (m_description m)
    (m_created_at m) (m_google_event_id m) (m_synced_to_google m)
    (m_google_link m) (m_meet_link m).
Definition set_participants (m : Meeting) (v : list pystr) : Meeting :=
  mkMeeting (m_id m) (m_title m) (m_date m) (m_time m) v (m_description m)
    (m_created_at m) (m_google_event_id m) (m_synced_to_google m)
    (m_google_link m) (m_meet_link m).
Definition set_description (m : Meeting) (v : pystr) : Meeting :=
  mkMeeting (m_id m) (m_title m) (m_date m) (m_time m) (m_participants m) v
    (m_created_at m) (m_google_event_id m) (m_synced_to_google m)
    (m_google_link m) (m_meet_link m).

(** The field updates of [update_meeting], in the order of the source; an
    early [return] is the left alternative. *)
Definition merge_fields (meeting : Meeting) (title date time : option pystr)
           (participants : option (list pystr)) (description : option pystr)
  : Result + Meeting :=
  let meeting := if otruthy title then set_title meeting (ostr title) else meeting in
  match (if otruthy date then
           match parse_date (ostr date) with
           | None => inl (failure (lit "Invalid date format '" ++ ostr date ++ lit "'"))
           | Some parsed_date =>
               inr (set_date meeting (strftime parsed_date (lit "%Y-%m-%d")))
           end
         else inr meeting) with
  | inl r => inl r
  | inr meeting =>
  match (if otruthy time then
           match parse_time (ostr time) with
           | None => inl (failure (lit "Invalid time format '" ++ ostr time ++ lit "'"))
           | Some parsed_time =>
               if truthy parsed_time then inr (set_time meeting parsed_time)
               else inl (failure (lit "Invalid time format '" ++ ostr time ++ lit "'"))
           end
         else inr meeting) with
  | inl r => inl r
  | inr meeting =>
      let meeting :=
        match participants with
        | Some ((_ :: _) as ps) => set_participants meeting ps
        | _ => meeting
        end in
      let meeting :=
        match description with
        | Some d => set_description meeting d
        | None => meeting
        end in
      inr meeting
  end end.

Definition update_meeting (meeting_id : pystr) (title date time : option pystr)
           (participants : option (list pystr)) (description : option pystr)
  : M Result :=
  try_except
    (result <- get_meeting_details None None None (Some meeting_id) ;;
     match first_meeting result with
     | None => ret (not_found meeting_id)
     | Some meeting =>
     match m_google_event_id meeting with
     | Some ((_ :: _) as google_event_id) =>
         match merge_fields meeting title date time participants description with
         | inl early => ret early
         | inr meeting =>
             conflict <- (if otruthy date || otruthy time
                          then _check_time_conflict (m_date meeting) (m_time meeting)
                                                    (Some google_event_id)
                          else ret None) ;;
             match conflict with
             | Some c => ret (failure (conflict_error c))
             | None =>
                 ok <- update_event meeting google_event_id ;;
                 if ok then
                   ret (mkResult true None (Some meeting) None None
                          (Some (lit "Successfully updated meeting '" ++ m_title meeting
                                 ++ lit "' in Google Calendar"))
                          None)
                 else ret (failure (lit "Failed to update event in Google Calendar"))
             end
         end
     | _ => ret (failure (lit "Cannot update meeting: Google event ID not found"))
     end
     end)
    (fun e => ret (failure (lit "Error updating meeting: " ++ exn_msg e))).

Definition delete_meeting (meeting_id : pystr) : M Result :=
  try_except
    (result <- get_meeting_details None None None (Some meeting_id) ;;
     match first_meeting result with
     | None => ret (not_found meeting_id)
     | Some meeting =>
     match m_google_event_id meeting with
     | Some ((_ :: _) as google_event_id) =>
         ok <- delete_event google_event_id ;;
         if ok then
           ret (mkResult true None None None (Some meeting)
                  (Some (lit "Successfully deleted meeting '" ++ m_title meeting
                         ++ lit "' from Google Calendar"))
                  None)
         else ret (failure (lit "Failed to delete event from Google Calendar"))
     | _ => ret (failure (lit "Cannot delete meeting: Google event ID not found"))
     end
     end)
    (fun e => ret (failure (lit "Error deleting meeting: " ++ exn_msg e))).

(* ===================================================================== *)
(** * [agent/calendar_agent.py]: the tool dispatcher *)
(* ===================================================================== *)

(** The arguments of a tool call: the declared parameters, each typed as
    its declaration says, and the names of any other keys present. *)
Record ToolInput : Type := mkToolInput {
  ti_title : option pystr;
  ti_date : option pystr;
  ti_time : option pystr;
  ti_participants : option (list pystr);
  ti_description : option pystr;
  ti_participant : option pystr;
  ti_meeting_id : option pystr;
  ti_other_keys : list pystr
}.

Definition present {A} (o : option A) : bool :=
  match o with Some _ => true | None => false end.

Definition unexpected_keyword : exn :=
  TypeError (lit "got an unexpected keyword argument").
Definition missing_argument : exn :=
  TypeError (lit "missing required positional argument").

(** [CalendarHandlers()]: raises when the adapter is not enabled. *)
Definition new_handlers : M unit :=
  if is_enabled then ret tt
  else raise (RuntimeError (lit "Google Calendar integration is not enabled or authenticated")).

(** The body of the [try]: the handler named [tool_name] is called with the
    keys of [tool_input] as keyword arguments.  Python binds them to the
    parameters of the handler and raises [TypeError] on a key that is no
    parameter or on a required parameter without a key;
    [list_all_meetings] is called without arguments. *)
Definition dispatch (tool_name : pystr) (i : ToolInput) : M Result :=
  let extra := match ti_other_keys i with [] => false | _ => true end in
  if str_eqb tool_name (lit "schedule_meeting") then
    if extra || present (ti_participant i) || present (ti_meeting_id i)
    then raise unexpected_keyword else
    match ti_title i, ti_date i, ti_time i with
    | Some title, Some date, Some time =>
        schedule_meeting title date time (ti_participants i)
          (match ti_description i with Some d => d | None => [] end)
    | _, _, _ => raise missing_argument
    end
  else if str_eqb tool_name (lit "get_meeting_details") then
    if extra || present (ti_time i) || present (ti_participants i)
       || present (ti_description i)
    then raise unexpected_keyword else
    get_meeting_details (ti_date i) (ti_participant i) (ti_title i) (ti_meeting_id i)
  else if str_eqb tool_name (lit "list_all_meetings") then
    list_all_meetings
  else if str_eqb tool_name (lit "update_meeting") then
    if extra || present (ti_participant i) then raise unexpected_keyword else
    match ti_meeting_id i with
    | Some meeting_id =>
        update_meeting meeting_id (ti_title i) (ti_date i) (ti_time i)
          (ti_participants i) (ti_description i)
    | None => raise missing_argument
    end
  else if str_eqb tool_name (lit "delete_meeting") then
    if extra || present (ti_title i) || present (ti_date i) || present (ti_time i)
       || present (ti_participants i) || present (ti_description i)
       || present (ti_participant i)
    then raise unexpected_keyword else
    match ti_meeting_id i with
    | Some meeting_id => delete_meeting meeting_id
    | None => raise missing_argument
    end
  else ret (failure (lit "Unknown tool: " ++ tool_name)).

Definition _execute_tool (tool_name : pystr) (tool_input : ToolInput) : M Result :=
  new_handlers ;;;
  try_except (dispatch tool_name tool_input)
    (fun e => ret (failure (lit "Tool execution error: " ++ exn_msg e))).

(* ===================================================================== *)
(** * [mcp_server/server.py]: the tool router *)
(* ===================================================================== *)

(** [call_tool] reads every parameter with [arguments.get], so a handler
    receives [None] for a key that is absent, also where its signature says
    [str].  The three handlers concerned, at such arguments. *)

(** [schedule_meeting] when [title], [date] or [time] may be [None]: [None]
    is falsy, so the handler returns at [not all([title, date, time])]. *)
Definition schedule_meeting_by (title date time : option pystr)
           (participants : option (list pystr)) (description : pystr) : M Result :=
  match title, date, time with
  | Some title, Some date, Some time =>
      schedule_meeting title date time participants description
  | _, _, _ => ret (failure (lit "Missing required fields (title, date, time)"))
  end.

(** [update_meeting] when [meeting_id] may be [None]. *)
Definition update_meeting_by (meeting_id : option pystr) (title date time : option pystr)
           (participants : option (list pystr)) (description : option pystr)
  : M Result :=
  try_except
    (result <- get_meeting_details None None None meeting_id ;;
     match first_meeting result with
     | None => ret (not_found (ostr meeting_id))
     | Some meeting =>
     match m_google_event_id meeting with
     | Some ((_ :: _) as google_event_id) =>
         match merge_fields meeting title date time participants description with
         | inl early => ret early
         | inr meeting =>
             conflict <- (if otruthy date || otruthy time
                          then _check_time_conflict (m_date meeting) (m_time meeting)
                                                    (Some google_event_id)
                          else ret None) ;;
             match conflict with
             | Some c => ret (failure (conflict_error c))
             | None =>
                 ok <- update_event meeting google_event_id ;;
                 if ok then
                   ret (mkResult true None (Some meeting) None None
                          (Some (lit "Successfully updated meeting '" ++ m_title meeting
                                 ++ lit "' in Google Calendar"))
                          None)
                 else ret (failure (lit "Failed to update event in Google Calendar"))
             end
         end
     | _ => ret (failure (lit "Cannot update meeting: Google event ID not found"))
     end
     end)
    (fun e => ret (failure (lit "Error updating meeting: " ++ exn_msg e))).

(** [delete_meeting] when [meeting_id] may be [None]. *)
Definition delete_meeting_by (meeting_id : option pystr) : M Result :=
  try_except
    (result <- get_meeting_details None None None meeting_id ;;
     match first_meeting result with
     | None => ret (not_found (ostr meeting_id))
     | Some meeting =>
     match m_google_event_id meeting with
     | Some ((_ :: _) as google_event_id) =>
         ok <- delete_event google_event_id ;;
         if ok then
           ret (mkResult true None None None (Some meeting)
                  (Some (lit "Successfully deleted meeting '" ++ m_title meeting
                         ++ lit "' from Google Calendar"))
                  None)
         else ret (failure (lit "Failed to delete event from Google Calendar"))
     | _ => ret (failure (lit "Cannot delete meeting: Google event ID not found"))
     end
     end)
    (fun e => ret (failure (lit "Error deleting meeting: " ++ exn_msg e))).

(** [call_tool(name, arguments)] up to the dictionary it hands to
    [json.dumps]; the serialisation into a [TextContent] is not modelled.
    Keys of [arguments] that no branch reads are ignored. *)
Definition call_tool (name : pystr) (arguments : ToolInput) : M Result :=
  try_except
    (if str_eqb name (lit "schedule_meeting") then
       schedule_meeting_by (ti_title arguments) (ti_date arguments)
         (ti_time arguments) (ti_participants arguments)
         (match ti_description arguments with Some d => d | None => [] end)
     else if str_eqb name (lit "get_meeting_details") then
       get_meeting_details (ti_date arguments) (ti_participant arguments)
         (ti_title arguments) (ti_meeting_id arguments)
     else if str_eqb name (lit "list_all_meetings") then
       list_all_meetings
     else if str_eqb name (lit "update_meeting") then
       update_meeting_by (ti_meeting_id arguments) (ti_title arguments)
         (ti_date arguments) (ti_time arguments) (ti_participants arguments)
         (ti_description arguments)
     else if str_eqb name (lit "delete_meeting") then
       delete_meeting_by (ti_meeting_id arguments)
     else ret (failure (lit "Unknown tool: " ++ name)))
    (fun e => ret (failure (lit "Tool execution error: " ++ exn_msg e))).

End Program.

Arguments ret {E A}.
Arguments mkState {E}.
Arguments st_world {E}.
Arguments st_trace {E}.

(* ===================================================================== *)
(** * A calendar held in memory *)
(* ===================================================================== *)

(** A provider that stores each event body as it receives it and lists the
    stored events in insertion order; its clock stands still.  It is the
    concrete environment of the examples below. *)
Module MemoryCalendar.

Record mem : Type := mkMem {
  mem_now : datetime;
  mem_next : Z;
  mem_events : list GEvent;
  mem_failure : option exn
}.

Definition with_id (id : pystr) (body : GEvent) : GEvent :=
  mkGEvent (Some id) (g_summary body) (g_description body) (g_start body)
    (g_end body) (g_attendees body) (g_reminder_overrides body) (g_private body)
    (g_conference_request body) (g_htmlLink body) (g_hangoutLink body).

Definition has_id (id : pystr) (ev : GEvent) : bool := opt_eqb (g_id ev) (Some id).

Definition m_list (_ _ _ : pystr) (_ : Z) (w : mem) : (exn + list GEvent) * mem :=
  match mem_failure w with
  | Some e => (inl e, w)
  | None => (inr (mem_events w), w)
  end.

Definition m_insert (_ : pystr) (body : GEvent) (w : mem) : (exn + GEvent) * mem :=
  match mem_failure w with
  | Some e => (inl e, w)
  | None =>
      let ev := with_id (lit "evt" ++ str_of_Z (mem_next w)) body in
      (inr ev, mkMem (mem_now w) (mem_next w + 1) (mem_events w ++ [ev]) None)
  end.

Definition m_update (_ id : pystr) (body : GEvent) (w : mem) : (exn + GEvent) * mem :=
  match mem_failure w with
  | Some e => (inl e, w)
  | None =>
      if existsb (has_id id) (mem_events w) then
        let ev := with_id id body in
        (inr ev,
         mkMem (mem_now w) (mem_next w)
               (map (fun old => if has_id id old then ev else old) (mem_events w))
               None)
      else (inl (HttpError 404 (lit "Not Found")), w)
  end.

Definition m_delete (_ id : pystr) (w : mem) : (exn + unit) * mem :=
  match mem_failure w with
  | Some e => (inl e, w)
  | None =>
      if existsb (has_id id) (mem_events w) then
        (inr tt,
         mkMem (mem_now w) (mem_next w)
               (filter (fun old => negb (has_id id old)) (mem_events w)) None)
      else (inl (HttpError 410 (lit "Resource has been deleted")), w)
  end.

Definition env : Env :=
  mkEnv mem
    (fun w => (mem_now w, w))
    (fun w => (lit "id" ++ str_of_Z (mem_next w),
               mkMem (mem_now w) (mem_next w + 1) (mem_events w) (mem_failure w)))
    m_list m_insert m_update m_delete.

Definition service : Service := mkService GOOGLE_CALENDAR_CONFIG true.

(** An empty calendar read on 2025-06-01 at 09:00. *)
Definition empty : state env :=
  mkState (mkMem (mkdt 2025 6 1 9 0 0 0) 1 [] None : world env) [].

(** The meeting "Standup" of 2025-06-10 at 14:00 as the calendar holds it
    once [schedule_meeting] has created it. *)
Definition standup_event : GEvent :=
  mkGEvent (Some (lit "evt1")) (Some (lit "Standup"))
    (Some (lit "Participants: Bob"))
    (Some (mkEventTime (Some (lit "2025-06-10T14:00:00+00:00")) None (Some (lit "UTC"))))
    (Some (mkEventTime (Some (lit "2025-06-10T15:00:00+00:00")) None (Some (lit "UTC"))))
    (Some [mkAttendee (Some (lit "alice@example.com")) None])
    [(lit "email", 15); (lit "popup", 15)]
    (Some (Some (lit "id1"), lit "calendar_mcp_agent"))
    (Some (lit "meet-id1")) None None.

(** The calendar with that one meeting. *)
Definition booked : state env :=
  mkState (mkMem (mkdt 2025 6 1 9 0 0 0) 2 [standup_event] None : world env) [].

(** A calendar whose every request fails with [e]. *)
Definition failing (e : exn) : state env :=
  mkState (mkMem (mkdt 2025 6 1 9 0 0 0) 1 [] (Some e) : world env) [].

(** Scheduling "Standup" on the empty calendar: the result and the state
    it leaves. *)
Definition schedule_standup : (exn + Result) * state env :=
  schedule_meeting env service GOOGLE_CALENDAR_CONFIG
    (lit "Standup") (lit "2025-06-10") (lit "14:00")
    (Some [lit "alice@example.com"; lit "Bob"]) [] empty.

Definition standup_result : Result :=
  match fst schedule_standup with
  | inr r => r
  | inl e => failure (exn_msg e)
  end.

Definition after_standup : state env := snd schedule_standup.

(** [standup_event] read back by the adapter. *)
Definition standup_fetched : Meeting :=
  mkMeeting (Some (lit "id1")) (lit "Standup") (lit "2025-06-10") (lit "14:00")
    [lit "alice"] (lit "Participants: Bob") None (Some (lit "evt1")) false
    (Some []) None.

End MemoryCalendar.

(* ===================================================================== *)
(** * Definitions of the specification and of the proofs *)
(* ===================================================================== *)

(** ** Conflict detection in the words of the specification *)

(** Two meetings of sixty minutes each overlap iff each starts strictly
    before the other ends. *)
Definition sixty_minute_overlap (proposed_start event_start : datetime) : bool :=
  match add_minutes event_start 60, add_minutes proposed_start 60 with
  | Some event_end, Some proposed_end =>
      lt proposed_start event_end && lt event_start proposed_end
  | _, _ => false
  end.

(** The event an update must not collide with: the one whose remote id is
    the excluded id. *)
Definition excluded (exclude_event_id : option pystr) (event : Meeting) : bool :=
  match exclude_event_id with
  | Some id => opt_eqb (m_google_event_id event) (Some id)
  | None => false
  end.

Definition conflicts_with (proposed_start : datetime)
           (exclude_event_id : option pystr) (event : Meeting) : bool :=
  negb (excluded exclude_event_id event)
  && match combine (m_date event) (m_time event) with
     | Some event_start => sixty_minute_overlap proposed_start event_start
     | None => false
     end.

(** The first conflicting event in the order of the list. *)
Definition first_conflict (proposed_start : datetime)
           (exclude_event_id : option pystr) (events : list Meeting)
  : option Meeting :=
  find (conflicts_with proposed_start exclude_event_id) events.

(** An event whose start parses and whose end is a date. *)
Definition well_timed (event : Meeting) : Prop :=
  exists event_start event_end,
    combine (m_date event) (m_time event) = Some event_start
    /\ add_minutes event_start 60 = Some event_end.

(** ** Runs of the adapter and of the handlers *)

Section Runs.
Variable E : Env.
Variable svc : Service.

(** The request [get_events] sends to the provider, and what it answers. *)
Definition list_request (time_min time_max : datetime) (s : state E)
  : (exn + list GEvent) * world E :=
  env_list E (calendar_id (config svc)) (isoformat time_min ++ lit "Z")
           (isoformat time_max ++ lit "Z") 100 (st_world s).

(** The state [get_events] leaves when the provider has moved to [w]. *)
Definition after_list (time_min time_max : datetime) (s : state E) (w : world E)
  : state E :=
  mkState w ((st_trace s ++ [SvcGetEvents time_min time_max])
             ++ [ApiList (isoformat time_min ++ lit "Z")
                         (isoformat time_max ++ lit "Z") 100]).

(** The outcome of the last step of [update_meeting]. *)
Definition update_outcome (merged : Meeting) (gid : pystr) (s : state E)
  : (exn + Result) * state E :=
  match update_event E svc merged gid s with
  | (inr true, s') =>
      (inr (mkResult true None (Some merged) None None
              (Some (lit "Successfully updated meeting '" ++ m_title merged
                     ++ lit "' in Google Calendar"))
              None), s')
  | (inr false, s') =>
      (inr (failure (lit "Failed to update event in Google Calendar")), s')
  | (inl e, s') =>
      (inr (failure (lit "Error updating meeting: " ++ exn_msg e)), s')
  end.

(** Every result the computation can return satisfies [P]. *)
Definition returns {A} (P : A -> Prop) (c : M E A) : Prop :=
  forall s r s', c s = (inr r, s') -> P r.

(** The computation returns; it does not raise. *)
Definition total {A} (c : M E A) : Prop :=
  forall s, exists r s', c s = (inr r, s').

End Runs.

(** ** The result envelope, the trace and the update frame *)

(** A failure carries a non-empty error text; a success carries none. *)
Definition well_formed (r : Result) : Prop :=
  (success r = false -> exists e, error r = Some e /\ e <> [])
  /\ (success r = true -> error r = None).

(** Calls that only read the calendar. *)
Definition is_read (c : call) : Prop :=
  match c with
  | SvcGetEvents _ _ | ApiList _ _ _ => True
  | _ => False
  end.

(** What an update that supplies nothing but a time may change. *)
Definition same_but_time (m m' : Meeting) : Prop :=
  m_title m' = m_title m
  /\ m_participants m' = m_participants m
  /\ m_description m' = m_description m
  /\ m_date m' = m_date m
  /\ m_id m' = m_id m
  /\ m_google_event_id m' = m_google_event_id m.

(** ** Participants and round trip *)

(** [event.get("attendees", [])] *)
Definition attendees_of (ev : GEvent) : list Attendee :=
  match g_attendees ev with Some l => l | None => [] end.

Definition email_attendee (s : pystr) : Attendee := mkAttendee (Some s) None.

(** A string that ends in a character that is not white space. *)
Definition ends_solid (s : pystr) : Prop :=
  exists t a, s = t ++ [a] /\ is_space a = false.

(** The description that carries the participants without an address. *)
Definition description_with (description : pystr) (names : list pystr) : pystr :=
  (if truthy description then description ++ [newline; newline] else [])
  ++ lit "Participants: " ++ join (lit ", ") names.

(** The provider returns the stored event under the id [gid] with the
    fields the adapter reads exactly as the adapter wrote them. *)
Definition echoes (body ev : GEvent) (gid : pystr) : Prop :=
  g_id ev = Some gid
  /\ g_summary ev = g_summary body
  /\ g_description ev = g_description body
  /\ g_start ev = g_start body
  /\ g_attendees ev = g_attendees body
  /\ g_private ev = g_private body.

(** The name under which an address is read back: the text before its
    first [@], after stripping. *)
Definition local_part (p : pystr) : pystr := before_first "@" (strip p).

(** What [schedule_meeting] puts into the meeting it creates. *)
Definition created_from (title date time description : pystr)
           (participants : option (list pystr)) (m : Meeting) : Prop :=
  exists parsed_date hour minute,
    parse_date date = Some parsed_date
    /\ parse_time time = Some (hhmm hour minute)
    /\ in_range hour minute = true
    /\ m_title m = title
    /\ m_date m = strftime parsed_date (lit "%Y-%m-%d")
    /\ m_time m = hhmm hour minute
    /\ m_participants m
       = filter (fun p => truthy p && truthy (strip p))
                (match participants with Some l => l | None => [] end)
    /\ m_description m = description
    /\ otruthy (m_google_event_id m) = true.

(** ** Padded stamps *)

Definition two_digits (v : Z) : pystr := [digit_char (v / 10); digit_char v].

(** The expressions inside the groups of the directives. *)
Definition inner (d : ascii) : re :=
  match directive d with
  | Some (Grp _ r) => r
  | _ => Eps
  end.

(** The expression [_strptime] builds for ["%Y-%m-%d %H:%M"]. *)
Definition re_stamp : re :=
  Seq (Grp "Y" (inner "Y")) (Seq (Cls (CChar "-"))
 (Seq (Grp "m" (inner "m")) (Seq (Cls (CChar "-"))
 (Seq (Grp "d" (inner "d")) (Seq (Cls CSpace) (Seq (Star CSpace)
 (Seq (Grp "H" (inner "H")) (Seq (Cls (CChar ":"))
 (Seq (Grp "M" (inner "M")) Eps))))))))).

(** ["%Y-%m-%d %H:%M" % (y, m, d, h, mi)] with every field padded. *)
Definition stamp (y m d h mi : Z) : pystr :=
  zpad 4 y ++ lit "-" ++ zpad 2 m ++ lit "-" ++ zpad 2 d ++ lit " "
  ++ zpad 2 h ++ lit ":" ++ zpad 2 mi.

Definition stamp_groups (y m d h mi : Z) : captures :=
  [("M"%string, two_digits mi); ("H"%string, two_digits h);
   ("d"%string, two_digits d); ("m"%string, two_digits m);
   ("Y"%string, zpad 4 y)].

(** The start the adapter writes for a meeting at [h:mi] on [y-m-d]. *)
Definition utc_stamp (y m d h mi : Z) : pystr :=
  isoformat_utc (mkdt y m d h mi 0 0).

(** ** What the matcher accepts *)

(** [accepts r p f]: in front of any remainder, [r] consumes exactly [p]
    on the path the matcher takes first, leaving the groups [f caps]. *)
Definition accepts (r : re) (p : pystr) (f : captures -> captures) : Prop :=
  forall (A : Type) (rest : pystr) (caps : captures)
         (k : pystr -> captures -> option A) (res : A),
    k rest (f caps) = Some res -> matchk r (p ++ rest) caps k = Some res.

(** [Matches r p c c']: the expression [r] can consume exactly [p],
    turning the groups [c] into [c']. *)
Inductive Matches : re -> pystr -> captures -> captures -> Prop :=
| MEps c : Matches Eps [] c c
| MCls cl a c : cls_mem cl a = true -> Matches (Cls cl) [a] c c
| MSeq r1 r2 p1 p2 c c1 c2 :
    Matches r1 p1 c c1 -> Matches r2 p2 c1 c2 ->
    Matches (Seq r1 r2) (p1 ++ p2) c c2
| MAltL r1 r2 p c c' : Matches r1 p c c' -> Matches (Alt r1 r2) p c c'
| MAltR r1 r2 p c c' : Matches r2 p c c' -> Matches (Alt r1 r2) p c c'
| MStar cl p c : Forall (fun a => cls_mem cl a = true) p -> Matches (Star cl) p c c
| MGrp name r p c c' :
    Matches r p c c' -> Matches (Grp name r) p c ((name, p) :: c').

(** ** The shapes of a time text *)

Definition digit_string (s : pystr) : Prop := Forall (fun a => is_digit a = true) s.

Definition space_string (s : pystr) : Prop := Forall (fun a => is_space a = true) s.

(** One or two digits. *)
Definition hour_digits (h : pystr) : Prop :=
  digit_string h /\ (List.length h = 1 \/ List.length h = 2)%nat.

(** Exactly two digits. *)
Definition two_digit_string (m : pystr) : Prop :=
  digit_string m /\ List.length m = 2%nat.

(** No minutes, or exactly two digits. *)
Definition optional_minutes (m : pystr) : Prop := m = [] \/ two_digit_string m.

(** The suffixes the source lists. *)
Definition suffixes : list pystr := [lit "AM"; lit "PM"; lit "am"; lit "pm"].

Definition minute_group (m : pystr) : captures :=
  match m with [] => [] | _ => [("2"%string, m)] end.

(** [H:MM] or [HH:MM]. *)
Definition form_24h (t : pystr) (hour minute : Z) : Prop :=
  exists h m,
    t = h ++ lit ":" ++ m /\ hour_digits h /\ two_digit_string m
    /\ hour = digits_value h /\ minute = digits_value m.

(** One or two hour digits, an optional colon, optional two minute digits,
    optional white space and one of the suffixes AM, PM, am, pm. *)
Definition form_12h (t : pystr) (hour minute : Z) (period : pystr) : Prop :=
  exists h colon m ws suffix,
    t = h ++ colon ++ m ++ ws ++ suffix
    /\ hour_digits h
    /\ (colon = [] \/ colon = lit ":")
    /\ optional_minutes m
    /\ space_string ws
    /\ In suffix suffixes
    /\ hour = digits_value h /\ minute = digits_value m /\ period = upper suffix.

(** 12 PM is 12, 12 AM is 0, PM adds 12 to any other hour. *)
Definition civil_hour (hour : Z) (period : pystr) : Z :=
  if str_eqb period (lit "PM") then (if hour =? 12 then 12 else hour + 12)
  else if hour =? 12 then 0 else hour.

Definition time_spec (t r : pystr) : Prop :=
  (exists hour minute,
      form_24h t hour minute
      /\ in_range hour minute = true /\ r = hhmm hour minute)
  \/ (exists hour minute period,
        form_12h t hour minute period
        /\ in_range (civil_hour hour period) minute = true
        /\ r = hhmm (civil_hour hour period) minute).

(** The leading digits of a text and what follows them. *)
Fixpoint span_digits (s : pystr) : pystr * pystr :=
  match s with
  | a :: s' =>
      if is_digit a then let '(d, r) := span_digits s' in (a :: d, r) else ([], s)
  | [] => ([], [])
  end.

(** Empty, or starting with a character that is no digit. *)
Definition starts_solid (s : pystr) : Prop :=
  match s with [] => True | a :: _ => is_digit a = false end.

(** ** Dates as text *)

(** The expression [_strptime] builds for ["%Y-%m-%d"]. *)
Definition re_date : re :=
  Seq (Grp "Y" (inner "Y")) (Seq (Cls (CChar "-"))
 (Seq (Grp "m" (inner "m")) (Seq (Cls (CChar "-"))
 (Seq (Grp "d" (inner "d")) Eps)))).

(** ["%Y-%m-%d" % (y, m, d)] with every field padded. *)
Definition date_stamp (y m d : Z) : pystr :=
  zpad 4 y ++ lit "-" ++ zpad 2 m ++ lit "-" ++ zpad 2 d.

(** ** What a computation may call *)

Section Calls.
Variable E : Env.

(** Whatever the outcome, every call the computation adds to the trace
    satisfies [ok]. *)
Definition only {A} (ok : call -> Prop) (c : M E A) : Prop :=
  forall s r s', c s = (r, s') ->
                 exists l, st_trace s' = st_trace s ++ l /\ Forall ok l.

(** The computation raises no [HttpError]. *)
Definition no_http {A} (c : M E A) : Prop :=
  forall s e s', c s = (inl e, s') -> is_http e = false.

End Calls.

(** The calls of each kind, on the adapter and on the provider. *)
Definition is_create (c : call) : Prop :=
  match c with SvcCreate _ | ApiInsert _ => True | _ => False end.
Definition is_update (c : call) : Prop :=
  match c with SvcUpdate _ _ | ApiUpdate _ _ => True | _ => False end.
Definition is_delete (c : call) : Prop :=
  match c with SvcDelete _ | ApiDelete _ => True | _ => False end.

(** Requests sent to the provider. *)
Definition is_request (c : call) : Prop :=
  match c with
  | ApiList _ _ _ | ApiInsert _ | ApiUpdate _ _ | ApiDelete _ => True
  | _ => False
  end.

(** ** The last step of [schedule_meeting] *)

Section Creation.
Variable E : Env.
Variable svc : Service.

(** What [schedule_meeting] does once the checks have passed: it draws an
    id, reads the clock, creates the event and reports. *)
Definition schedule_outcome (title date_formatted parsed_time : pystr)
           (participants : list pystr) (description : pystr) (s : state E)
  : (exn + Result) * state E :=
  let '(new_id, w1) := env_uuid8 E (st_world s) in
  let '(created, w2) := env_now E w1 in
  let meeting google_event_id synced :=
    mkMeeting (Some new_id) title date_formatted parsed_time participants
              description (Some (isoformat created)) google_event_id synced
              None None in
  match create_event E svc (meeting None false) (mkState w2 (st_trace s)) with
  | (inr google_event_id, s') =>
      if otruthy google_event_id then
        (inr (mkResult true None (Some (meeting google_event_id true)) None None
                (Some (lit "Successfully scheduled '" ++ title ++ lit "' on "
                       ++ date_formatted ++ lit " at " ++ parsed_time
                       ++ lit " (Synced to Google Calendar)"))
                None), s')
      else (inr (failure (lit "Failed to create event in Google Calendar")), s')
  | (inl e, s') =>
      (inr (failure (lit "Error scheduling meeting: " ++ exn_msg e)), s')
  end.

End Creation.

(** ** Queries *)

(** The meetings a query keeps: those that pass every filter that is
    supplied, an empty filter counting as not supplied. *)
Definition selected (participant title meeting_id : option pystr) (m : Meeting)
  : bool :=
  (negb (otruthy participant) || matches_participant (ostr participant) m)
  && (negb (otruthy title) || matches_title (ostr title) m)
  && (negb (otruthy meeting_id) || matches_id (ostr meeting_id) m).

(** ** [sync_event] *)

(** The calls that belong to the action asked of [sync_event]. *)
Definition requested (action : pystr) (c : call) : Prop :=
  (action = lit "create" /\ is_create c)
  \/ (action = lit "update" /\ is_update c)
  \/ (action = lit "delete" /\ is_delete c).

(** ** Start times as the provider sends them *)

(** The local time [h:mi] on [y-m-d] with the UTC offset [sign oh:om],
    as in [2025-06-10T14:00:00+05:30]. *)
Definition offset_stamp (y m d h mi : Z) (sign : ascii) (oh om : Z) : pystr :=
  isoformat (mkdt y m d h mi 0 0) ++ sign :: two_digits oh ++ lit ":" ++ two_digits om.

(** ** The order of a listing *)

(** [a] starts no later than [b]; both have a start that parses. *)
Definition starts_no_later (a b : Meeting) : Prop :=
  exists start_a start_b,
    combine (m_date a) (m_time a) = Some start_a
    /\ combine (m_date b) (m_time b) = Some start_b
    /\ lt start_b start_a = false.

(** [p] comes no later than [q], by the keys of the sort. *)
Definition key_le (p q : datetime * Meeting) : Prop := lt (fst q) (fst p) = false.

(** Each meeting is paired with the start that its date and time denote. *)
Definition keyed_right (l : list (datetime * Meeting)) : Prop :=
  Forall (fun p => combine (m_date (snd p)) (m_time (snd p)) = Some (fst p)) l.

(** ** Tool arguments *)

(** The arguments Python can bind to the parameters of the handler named
    [name]: no key that is no parameter, every required parameter
    present.  [list_all_meetings] is called without arguments and an
    unknown name calls nothing, so for them any arguments do. *)
Definition binds (name : pystr) (i : ToolInput) : bool :=
  let no_extra := match ti_other_keys i with [] => true | _ => false end in
  if str_eqb name (lit "schedule_meeting") then
    no_extra && negb (present (ti_participant i)) && negb (present (ti_meeting_id i))
    && present (ti_title i) && present (ti_date i) && present (ti_time i)
  else if str_eqb name (lit "get_meeting_details") then
    no_extra && negb (present (ti_time i)) && negb (present (ti_participants i))
    && negb (present (ti_description i))
  else if str_eqb name (lit "list_all_meetings") then true
  else if str_eqb name (lit "update_meeting") then
    no_extra && negb (present (ti_participant i)) && present (ti_meeting_id i)
  else if str_eqb name (lit "delete_meeting") then
    no_extra && negb (present (ti_title i)) && negb (present (ti_date i))
    && negb (present (ti_time i)) && negb (present (ti_participants i))
    && negb (present (ti_description i)) && negb (present (ti_participant i))
    && present (ti_meeting_id i)
  else true.

(** ** A calendar with two meetings *)

(** A review on 2025-06-09 at 10:00, stored after the stand-up of
    2025-06-10. *)
Definition review_event : GEvent :=
  mkGEvent (Some (lit "evt2")) (Some (lit "Review")) None
    (Some (mkEventTime (Some (lit "2025-06-09T10:00:00+00:00")) None (Some (lit "UTC"))))
    (Some (mkEventTime (Some (lit "2025-06-09T11:00:00+00:00")) None (Some (lit "UTC"))))
    None [] (Some (Some (lit "id2"), lit "calendar_mcp_agent")) None None None.

Definition review_fetched : Meeting :=
  mkMeeting (Some (lit "id2")) (lit "Review") (lit "2025-06-09") (lit "10:00")
    [] [] None (Some (lit "evt2")) false (Some []) None.

Definition two_booked : state MemoryCalendar.env :=
  mkState (MemoryCalendar.mkMem (mkdt 2025 6 1 9 0 0 0) 3
             [MemoryCalendar.standup_event; review_event] None
           : world MemoryCalendar.env) [].

(** ** Groups of an expression *)

(** The names of the groups of an expression. *)
Fixpoint group_names (r : re) : list string :=
  match r with
  | Grp name r1 => name :: group_names r1
  | Seq r1 r2 | Alt r1 r2 => group_names r1 ++ group_names r2
  | Eps | Cls _ | Star _ => []
  end.

(** ** Update requests *)

(** The update requests among the calls carry no attendees. *)
Definition updates_without_attendees (l : list call) : Prop :=
  forall g body, In (ApiUpdate g body) l -> g_attendees body = None.

(** ** The tools the agent declares *)

(** A function declaration of [_define_mcp_tools]: the name, the keys of
    [properties] and the list [required]. *)
Record Declaration : Type := mkDeclaration {
  d_name : pystr;
  d_properties : list pystr;
  d_required : list pystr
}.

(** [function_declarations] of [_define_mcp_tools], in the order of the
    source; descriptions and types are left out. *)
Definition function_declarations : list Declaration :=
  [mkDeclaration (lit "schedule_meeting")
     [lit "title"; lit "date"; lit "time"; lit "participants"; lit "description"]
     [lit "title"; lit "date"; lit "time"];
   mkDeclaration (lit "get_meeting_details")
     [lit "date"; lit "participant"; lit "title"; lit "meeting_id"]
     [];
   mkDeclaration (lit "list_all_meetings") [] [];
   mkDeclaration (lit "update_meeting")
     [lit "meeting_id"; lit "title"; lit "date"; lit "time"; lit "participants";
      lit "description"]
     [lit "meeting_id"];
   mkDeclaration (lit "delete_meeting") [lit "meeting_id"] [lit "meeting_id"]].

(** The names [ToolInput] holds in fields of their own. *)
Definition parameter_names : list pystr :=
  [lit "title"; lit "date"; lit "time"; lit "participants"; lit "description";
   lit "participant"; lit "meeting_id"].

(** The keys of a tool input. *)
Definition keys (i : ToolInput) : list pystr :=
  (if present (ti_title i) then [lit "title"] else [])
  ++ (if present (ti_date i) then [lit "date"] else [])
  ++ (if present (ti_time i) then [lit "time"] else [])
  ++ (if present (ti_participants i) then [lit "participants"] else [])
  ++ (if present (ti_description i) then [lit "description"] else [])
  ++ (if present (ti_participant i) then [lit "participant"] else [])
  ++ (if present (ti_meeting_id i) then [lit "meeting_id"] else [])
  ++ ti_other_keys i.

Definition member (k : pystr) (l : list pystr) : bool := existsb (str_eqb k) l.

(** The input has declared keys only and every required key. *)
Definition conforms (d : Declaration) (i : ToolInput) : bool :=
  forallb (fun k => member k (d_properties d)) (keys i)
  && forallb (fun k => member k (keys i)) (d_required d).

(** ** The texts of the [ValueError] of [strptime] *)

(** The ranges of the directives of [strptime]. *)
Definition directive_ranges : list (ascii * Z * Z) :=
  [("Y"%char, 0, 9999); ("m"%char, 1, 12); ("d"%char, 1, 31);
   ("H"%char, 0, 23); ("M"%char, 0, 59)].

(** The texts with which [strptime(s, "%Y-%m-%d %H:%M")] fails: no match
    at the start of [s]; a match that stops before the end of [s]; the year
    0; a day the month does not have. *)
Definition error_text (s message : pystr) : Prop :=
  message = lit "time data " ++ py_repr s
            ++ lit " does not match format '%Y-%m-%d %H:%M'"
  \/ (exists p rest,
        s = p ++ rest /\ rest <> []
        /\ message = lit "unconverted data remains: " ++ rest)
  \/ message = lit "year 0 is out of range"
  \/ message = lit "day is out of range for month".

(** ** Supplied fields of an update *)


(* ===================================================================== *)
(** * Properties *)
(* ===================================================================== *)

(** ** Sample runs of the time library and of the parsers *)

Module DatetimeTests.
Definition tenth_of_june := mkdt 2025 6 10 14 0 0 0.
Example strptime_ex :
    strptime (lit "2025-06-10 14:00") (lit "%Y-%m-%d %H:%M") = Some tenth_of_june.
  Proof. vm_compute. reflexivity. Qed.
Example iso_ex : isoformat_utc tenth_of_june = lit "2025-06-10T14:00:00+00:00".
  Proof. vm_compute. reflexivity. Qed.
Example fromiso_ex : fromisoformat (isoformat_utc tenth_of_june) = Some tenth_of_june.
  Proof. vm_compute. reflexivity. Qed.
Example add_ex :
    add_minutes (mkdt 2024 2 28 23 30 0 0) 60 = Some (mkdt 2024 2 29 0 30 0 0).
  Proof. vm_compute. reflexivity. Qed.
Example add_ex2 :
    add_minutes (mkdt 2023 12 31 23 30 0 0) 60 = Some (mkdt 2024 1 1 0 30 0 0).
  Proof. vm_compute. reflexivity. Qed.
Example add_overflow : add_minutes (mkdt 9999 12 31 23 30 0 0) 60 = None.
  Proof. vm_compute. reflexivity. Qed.
Example strptime_bad : strptime (lit "2025-02-30") (lit "%Y-%m-%d") = None.
  Proof. vm_compute. reflexivity. Qed.
Example strftime_ex : strftime tenth_of_june (lit "%Y-%m-%d") = lit "2025-06-10".
  Proof. vm_compute. reflexivity. Qed.
End DatetimeTests.

Module HelpersTests.
Example pt1 : parse_time (lit " 9:05 ") = Some (lit "09:05").
  Proof. vm_compute. reflexivity. Qed.
Example pt2 : parse_time (lit "25:00") = None.
  Proof. vm_compute. reflexivity. Qed.
Example pt3 : parse_time (lit "12am") = Some (lit "00:00").
  Proof. vm_compute. reflexivity. Qed.
Example pt4 : parse_time (lit "12 PM") = Some (lit "12:00").
  Proof. vm_compute. reflexivity. Qed.
Example pt5 : parse_time (lit "230pm") = Some (lit "14:30").
  Proof. vm_compute. reflexivity. Qed.
Example pt6 : parse_time (lit "2:30 pm") = Some (lit "14:30").
  Proof. vm_compute. reflexivity. Qed.
Example pt7 : parse_time (lit "13pm") = None.
  Proof. vm_compute. reflexivity. Qed.
Example pt8 : parse_time (lit "13am") = Some (lit "13:00").
  Proof. vm_compute. reflexivity. Qed.
Example pt9 : parse_time (lit "2Pm") = None.
  Proof. vm_compute. reflexivity. Qed.
Example pd1 : parse_date (lit "01-02-2025") = Some (mkdt 2025 2 1 0 0 0 0).
  Proof. vm_compute. reflexivity. Qed.
Example pd2 : parse_date (lit "2025/6/1") = Some (mkdt 2025 6 1 0 0 0 0).
  Proof. vm_compute. reflexivity. Qed.
Example pd3 : parse_date (lit "June 1") = None.
  Proof. vm_compute. reflexivity. Qed.
End HelpersTests.

(** ** Auxiliary facts *)

Lemma first_parse_some (s : pystr) (fmts : list pystr) (d : datetime) :
  first_parse s fmts = Some d <->
  exists before fmt after,
    fmts = before ++ fmt :: after
    /\ strptime s fmt = Some d
    /\ Forall (fun f => strptime s f = None) before.
Proof.
  induction fmts as [|f fmts IH]; simpl.
  - split; [discriminate|].
    intros (b & g & a & Heq & _). destruct b; discriminate.
  - destruct (strptime s f) as [d'|] eqn:Hf.
    + split.
      * intros [= <-]. exists [], f, fmts. repeat split; auto.
      * intros (b & g & a & Heq & Hg & Hb).
        destruct b as [|f' b]; simpl in Heq; injection Heq as -> Heq.
        -- congruence.
        -- inversion Hb; subst. congruence.
    + rewrite IH. split.
      * intros (b & g & a & -> & Hg & Hb).
        exists (f :: b), g, a. repeat split; auto.
      * intros (b & g & a & Heq & Hg & Hb).
        destruct b as [|f' b]; simpl in Heq; injection Heq as -> Heq.
        -- congruence.
        -- inversion Hb; subst. exists b, g, a. auto.
Qed.

Lemma first_parse_none (s : pystr) (fmts : list pystr) :
  first_parse s fmts = None <-> Forall (fun f => strptime s f = None) fmts.
Proof.
  induction fmts as [|f fmts IH]; simpl.
  - split; auto.
  - destruct (strptime s f) eqn:Hf.
    + split; [discriminate|]. intros H. inversion H; subst. congruence.
    + rewrite IH. split; intros H.
      * constructor; auto.
      * inversion H; auto.
Qed.

Lemma str_eqb_eq (s t : pystr) : str_eqb s t = true <-> s = t.
Proof.
  unfold str_eqb. destruct (list_eq_dec ascii_dec s t); split; congruence.
Qed.

Lemma opt_eqb_eq (a b : option pystr) : opt_eqb a b = true <-> a = b.
Proof.
  destruct a, b; simpl; try (split; congruence).
  rewrite str_eqb_eq. split; congruence.
Qed.

Lemma conflict_loop_first (proposed_start proposed_end : datetime)
      (exclude : option pystr) (events : list Meeting) :
  add_minutes proposed_start 60 = Some proposed_end ->
  exclude <> Some [] ->
  Forall well_timed events ->
  conflict_loop proposed_start proposed_end exclude events
  = inr (first_conflict proposed_start exclude events).
Proof.
  intros Hend Hex Hall. unfold first_conflict.
  induction Hall as [|ev events (es & ee & Hs & He) _ IH]; simpl; auto.
  rewrite IH.
  generalize (find (conflicts_with proposed_start exclude) events) as tail.
  intros tail.
  unfold conflicts_with, excluded, sixty_minute_overlap.
  rewrite Hs, He, Hend.
  assert (Hskip : otruthy exclude && opt_eqb (m_google_event_id ev) exclude
                  = match exclude with
                    | Some id => opt_eqb (m_google_event_id ev) (Some id)
                    | None => false
                    end).
  { destruct exclude as [[|a x]|]; simpl; auto. exfalso; apply Hex; reflexivity. }
  rewrite Hskip.
  destruct (match exclude with Some id => _ | None => false end); simpl; auto.
  unfold overlaps, gt.
  destruct (lt proposed_start ee && lt es proposed_end); auto.
Qed.

(** ** Time parser *)

(** C9.  [parse_date] returns the result of the first of the four formats
    YYYY-MM-DD, YYYY/MM/DD, DD-MM-YYYY, DD/MM/YYYY (in this order) that
    parses the text, and [None], not an exception, when none does; the
    text 01-02-2025 fails the first format and is read by the third as
    day 1, month 2, year 2025. *)
Theorem parse_date_first_matching_format (s : pystr) :
  formats = [lit "%Y-%m-%d"; lit "%Y/%m/%d"; lit "%d-%m-%Y"; lit "%d/%m/%Y"]
  /\ (forall d, parse_date s = Some d <->
        exists before fmt after,
          formats = before ++ fmt :: after
          /\ strptime s fmt = Some d
          /\ Forall (fun f => strptime s f = None) before)
  /\ (parse_date s = None <-> Forall (fun f => strptime s f = None) formats)
  /\ strptime (lit "01-02-2025") (lit "%Y-%m-%d") = None
  /\ strptime (lit "01-02-2025") (lit "%Y/%m/%d") = None
  /\ strptime (lit "01-02-2025") (lit "%d-%m-%Y") = Some (mkdt 2025 2 1 0 0 0 0)
  /\ parse_date (lit "01-02-2025") = Some (mkdt 2025 2 1 0 0 0 0).
Proof.
  split; [reflexivity|].
  split; [intros d; apply first_parse_some|].
  split; [apply first_parse_none|].
  repeat split; vm_compute; reflexivity.
Qed.

(** ** Running the adapter *)

Section AdapterFacts.
Variable E : Env.
Variable svc : Service.

Lemma get_events_items time_min time_max s items w :
    is_enabled svc = true ->
    list_request E svc time_min time_max s = (inr items, w) ->
    get_events E svc time_min time_max s
    = (inr (convert_all items), after_list E time_min time_max s w).
  Proof.
    unfold list_request, get_events, except_http, try_except, bind, record,
      lift_api, after_list.
    intros -> H. cbn [negb st_world st_trace]. rewrite H. reflexivity.
  Qed.

Lemma get_events_error time_min time_max s e w :
    is_enabled svc = true ->
    list_request E svc time_min time_max s = (inl e, w) ->
    get_events E svc time_min time_max s
    = (if is_http e then inr [] else inl e, after_list E time_min time_max s w).
  Proof.
    unfold list_request, get_events, except_http, try_except, bind, record,
      lift_api, after_list.
    intros -> H. cbn [negb st_world st_trace]. rewrite H.
    destruct (is_http e); reflexivity.
  Qed.

Lemma get_events_disabled time_min time_max s :
    is_enabled svc = false ->
    get_events E svc time_min time_max s
    = (inr [], mkState (st_world s) (st_trace s ++ [SvcGetEvents time_min time_max])).
  Proof.
    unfold get_events, bind, record. intros ->. reflexivity.
  Qed.

  (** The guarded block of [_check_time_conflict] decides its result. *)
Lemma check_time_conflict_of_body date_str time_str exclude s :
    _check_time_conflict E svc date_str time_str exclude s
    = match check_time_conflict_body E svc date_str time_str exclude s with
      | (inr r, s') => (inr r, s')
      | (inl _, s') => (inr None, s')
      end.
  Proof.
    unfold _check_time_conflict, try_except.
    destruct (check_time_conflict_body E svc date_str time_str exclude s)
      as [[e|r] s']; reflexivity.
  Qed.

(** The run of [_check_time_conflict] when the day's events are listed. *)
Lemma check_time_conflict_run date_str time_str exclude s
      proposed_start proposed_end day_end items w :
  is_enabled svc = true ->
  combine date_str time_str = Some proposed_start ->
  add_minutes proposed_start 60 = Some proposed_end ->
  add_days (midnight proposed_start) 1 = Some day_end ->
  list_request E svc (midnight proposed_start) day_end s = (inr items, w) ->
  _check_time_conflict E svc date_str time_str exclude s
  = (match conflict_loop proposed_start proposed_end exclude (convert_all items) with
     | inr r => inr r
     | inl _ => inr None
     end, after_list E (midnight proposed_start) day_end s w).
Proof.
  intros Hen Hs He Hd Hl. rewrite check_time_conflict_of_body.
  unfold check_time_conflict_body, bind, expect.
  rewrite Hs. unfold ret at 1. rewrite He. unfold ret at 1. rewrite Hd.
  unfold ret at 1. rewrite (get_events_items _ _ _ _ _ Hen Hl).
  unfold lift_sum.
  destruct (conflict_loop proposed_start proposed_end exclude (convert_all items));
    reflexivity.
Qed.

Lemma check_time_conflict_total date_str time_str exclude s :
    exists r s', _check_time_conflict E svc date_str time_str exclude s = (inr r, s').
  Proof.
    rewrite check_time_conflict_of_body.
    destruct (check_time_conflict_body E svc date_str time_str exclude s)
      as [[e|r] s']; eauto.
  Qed.
End AdapterFacts.

(** ** Scheduling rules *)

Lemma sixty_minute_overlap_eq (proposed_start event_start : datetime) :
  sixty_minute_overlap proposed_start event_start
  = match add_minutes event_start 60, add_minutes proposed_start 60 with
    | Some event_end, Some proposed_end =>
        lt proposed_start event_end && lt event_start proposed_end
    | _, _ => false
    end.
Proof. reflexivity. Qed.

Lemma conflicts_with_overlap proposed_start proposed_end exclude event :
  add_minutes proposed_start 60 = Some proposed_end ->
  conflicts_with proposed_start exclude event = true ->
  excluded exclude event = false
  /\ exists event_start event_end,
       combine (m_date event) (m_time event) = Some event_start
       /\ add_minutes event_start 60 = Some event_end
       /\ lt proposed_start event_end = true
       /\ lt event_start proposed_end = true.
Proof.
  intros Hend Hc. unfold conflicts_with in Hc.
  apply andb_true_iff in Hc. destruct Hc as [Hn Hc].
  split; [now apply negb_true_iff|].
  destruct (combine (m_date event) (m_time event)) as [es|]; [|discriminate Hc].
  rewrite sixty_minute_overlap_eq, Hend in Hc.
  destruct (add_minutes es 60) as [ee|] eqn:Hee; [|discriminate Hc].
  apply andb_true_iff in Hc. destruct Hc. exists es, ee. auto.
Qed.

Lemma overlap_at_half_past :
  sixty_minute_overlap (mkdt 2025 6 10 14 30 0 0) (mkdt 2025 6 10 14 0 0 0) = true.
Proof. vm_compute. reflexivity. Qed.

Lemma no_overlap_at_end :
  sixty_minute_overlap (mkdt 2025 6 10 15 0 0 0) (mkdt 2025 6 10 14 0 0 0) = false.
Proof. vm_compute. reflexivity. Qed.

(** C3.  With the proposed start and the day's events well formed,
    [_check_time_conflict] returns the first event, in the order the
    provider listed the day, that is not the excluded one and whose
    sixty-minute interval overlaps the proposed sixty-minute interval:
    [proposed_start < event_start + 60min] and
    [event_start < proposed_start + 60min], both strict.  A proposal at
    14:30 conflicts with a 14:00 meeting; one at 15:00 does not. *)
Theorem check_time_conflict_first_overlap
        (E : Env) (svc : Service) (date_str time_str : pystr)
        (exclude_event_id : option pystr) (s : state E)
        (proposed_start proposed_end day_end : datetime)
        (items : list GEvent) (w : world E) :
  is_enabled svc = true ->
  combine date_str time_str = Some proposed_start ->
  add_minutes proposed_start 60 = Some proposed_end ->
  add_days (midnight proposed_start) 1 = Some day_end ->
  list_request E svc (midnight proposed_start) day_end s = (inr items, w) ->
  Forall well_timed (convert_all items) ->
  exclude_event_id <> Some [] ->
  fst (_check_time_conflict E svc date_str time_str exclude_event_id s)
  = inr (first_conflict proposed_start exclude_event_id (convert_all items))
  /\ (forall event,
        first_conflict proposed_start exclude_event_id (convert_all items)
        = Some event ->
        excluded exclude_event_id event = false
        /\ exists event_start event_end,
             combine (m_date event) (m_time event) = Some event_start
             /\ add_minutes event_start 60 = Some event_end
             /\ lt proposed_start event_end = true
             /\ lt event_start proposed_end = true)
  /\ sixty_minute_overlap (mkdt 2025 6 10 14 30 0 0) (mkdt 2025 6 10 14 0 0 0) = true
  /\ sixty_minute_overlap (mkdt 2025 6 10 15 0 0 0) (mkdt 2025 6 10 14 0 0 0) = false.
Proof.
  intros Hen Hstart Hend Hday Hlist Hall Hex.
  split; [|split; [|split; [exact overlap_at_half_past|exact no_overlap_at_end]]].
  - rewrite (check_time_conflict_run _ _ _ _ _ _ _ _ _ _ _
               Hen Hstart Hend Hday Hlist).
    rewrite (conflict_loop_first _ _ _ _ Hend Hex Hall). reflexivity.
  - intros event Hfind. apply find_some in Hfind. destruct Hfind as [_ Hc].
    apply (conflicts_with_overlap _ _ _ _ Hend Hc).
Qed.

(** ** The result envelope *)

Section Returns.
Variable E : Env.

Lemma returns_ret {A} (P : A -> Prop) (a : A) : P a -> returns E P (ret a).
  Proof. intros H s r s' [= <- _]. exact H. Qed.

Lemma returns_raise {A} (P : A -> Prop) (e : exn) : returns E P (raise E e).
  Proof. intros s r s' H. discriminate H. Qed.

Lemma returns_bind {A B} (P : B -> Prop) (c : M E A) (f : A -> M E B) :
    (forall a, returns E P (f a)) -> returns E P (bind E c f).
  Proof.
    intros H s r s'. unfold bind. destruct (c s) as [[e|a] s1]; [discriminate|].
    apply H.
  Qed.

Lemma returns_try {A} (P : A -> Prop) (c : M E A) (h : exn -> M E A) :
    returns E P c -> (forall e, returns E P (h e)) -> returns E P (try_except E c h).
  Proof.
    intros Hc Hh s r s'. unfold try_except.
    destruct (c s) as [[e|a] s1] eqn:Hcs.
    - apply Hh.
    - intros [= <- <-]. eapply Hc; eauto.
  Qed.

Lemma total_try_ret {A} (c : M E A) (h : exn -> A) :
    total E (try_except E c (fun e => ret (h e))).
  Proof.
    intros s. unfold try_except, ret. destruct (c s) as [[e|a] s1]; eauto.
  Qed.

Lemma well_formed_failure (msg : pystr) : msg <> [] -> well_formed (failure msg).
  Proof.
    intros H. split; simpl; [|discriminate]. intros _. exists msg. auto.
  Qed.

Lemma well_formed_success m ms d msg c :
    well_formed (mkResult true None m ms d msg c).
  Proof. split; simpl; [discriminate|reflexivity]. Qed.
End Returns.

Ltac nonempty_text := apply well_formed_failure; intros Hnil; discriminate Hnil.

(** Walks through a handler body: binds, branches and returns. *)
Ltac envelope_step :=
  first
    [ apply returns_raise
    | apply returns_ret; first [ apply well_formed_success | nonempty_text ]
    | apply returns_bind; intros ?
    | match goal with
      | |- returns _ _ (if ?b then _ else _) => destruct b
      | |- returns _ _ (match ?x with _ => _ end) => destruct x
      end ].

Ltac envelope := repeat envelope_step.

Section Envelope.
Variable E : Env.
Variable svc : Service.
Variable cfg : Config.

Lemma schedule_meeting_envelope title date time participants description :
    returns E well_formed
      (schedule_meeting E svc cfg title date time participants description).
  Proof.
    unfold schedule_meeting. apply returns_try; [|intros e]; envelope.
  Qed.

Lemma get_meeting_details_envelope date participant title meeting_id :
    returns E well_formed
      (get_meeting_details E svc date participant title meeting_id).
  Proof.
    unfold get_meeting_details, query_range. apply returns_try; [|intros e]; envelope.
  Qed.

Lemma list_all_meetings_envelope :
    returns E well_formed (list_all_meetings E svc).
  Proof.
    unfold list_all_meetings. apply returns_try; [|intros e]; envelope.
  Qed.

Lemma merge_fields_envelope m title date time participants description r :
    merge_fields m title date time participants description = inl r ->
    well_formed r.
  Proof.
    unfold merge_fields. intros H.
    repeat match type of H with
           | context [match ?x with _ => _ end] =>
               lazymatch x with
               | context [match _ with _ => _ end] => fail
               | _ => destruct x
               end
           end;
      try discriminate H; injection H as <-; nonempty_text.
  Qed.

Lemma update_meeting_envelope meeting_id title date time participants description :
    returns E well_formed
      (update_meeting E svc meeting_id title date time participants description).
  Proof.
    unfold update_meeting, not_found. apply returns_try; [|intros e].
    - repeat first
        [ match goal with
          | |- returns _ _ (match merge_fields ?a ?b ?c ?d ?e ?f with _ => _ end) =>
              destruct (merge_fields a b c d e f) eqn:Hm;
              [apply merge_fields_envelope in Hm; apply returns_ret; exact Hm|]
          end
        | envelope_step ].
    - envelope.
  Qed.

Lemma delete_meeting_envelope meeting_id :
    returns E well_formed (delete_meeting E svc meeting_id).
  Proof.
    unfold delete_meeting, not_found. apply returns_try; [|intros e]; envelope.
  Qed.
End Envelope.

Lemma total_returns (E : Env) {A} (P : A -> Prop) (c : M E A) :
  total E c -> returns E P c -> forall s, exists r s', c s = (inr r, s') /\ P r.
Proof.
  intros Ht Hr s. destruct (Ht s) as (r & s' & H). exists r, s'. eauto.
Qed.

(** C2.  Each of the five tool handlers always returns a result, and every
    result of a handler or of the tool dispatcher is well formed:
    [success=False] comes with a non-empty [error], [success=True] with no
    [error] at all.  The dispatcher returns whenever the adapter is
    enabled. *)
Theorem result_envelope_invariant (E : Env) (svc : Service) (cfg : Config) :
  (forall title date time participants description s,
      exists r s',
        schedule_meeting E svc cfg title date time participants description s
        = (inr r, s') /\ well_formed r)
  /\ (forall date participant title meeting_id s,
        exists r s',
          get_meeting_details E svc date participant title meeting_id s
          = (inr r, s') /\ well_formed r)
  /\ (forall s,
        exists r s', list_all_meetings E svc s = (inr r, s') /\ well_formed r)
  /\ (forall meeting_id title date time participants description s,
        exists r s',
          update_meeting E svc meeting_id title date time participants description s
          = (inr r, s') /\ well_formed r)
  /\ (forall meeting_id s,
        exists r s', delete_meeting E svc meeting_id s = (inr r, s') /\ well_formed r)
  /\ (forall tool_name tool_input s r s',
        _execute_tool E svc cfg tool_name tool_input s = (inr r, s') ->
        well_formed r)
  /\ (forall tool_name tool_input s,
        is_enabled svc = true ->
        exists r s',
          _execute_tool E svc cfg tool_name tool_input s = (inr r, s')).
Proof.
  refine (conj _ (conj _ (conj _ (conj _ (conj _ (conj _ _)))))).
  - intros. apply total_returns;
      [apply total_try_ret | apply schedule_meeting_envelope].
  - intros. apply total_returns;
      [apply total_try_ret | apply get_meeting_details_envelope].
  - intros. apply total_returns;
      [apply total_try_ret | apply list_all_meetings_envelope].
  - intros. apply total_returns;
      [apply total_try_ret | apply update_meeting_envelope].
  - intros. apply total_returns;
      [apply total_try_ret | apply delete_meeting_envelope].
  - intros tool_name tool_input s r s'. revert s r s'.
    change (returns E well_formed (_execute_tool E svc cfg tool_name tool_input)).
    unfold _execute_tool. apply returns_bind. intros _.
    apply returns_try; [|intros e; envelope].
    unfold dispatch.
    repeat first
      [ apply schedule_meeting_envelope
      | apply get_meeting_details_envelope
      | apply list_all_meetings_envelope
      | apply update_meeting_envelope
      | apply delete_meeting_envelope
      | envelope_step ].
  - intros tool_name tool_input s Hen.
    unfold _execute_tool, new_handlers, bind. rewrite Hen.
    apply total_try_ret.
Qed.

(** The dispatcher answers an unknown tool name with a well-formed
    failure. *)
Lemma result_envelope_invariant_witness :
  well_formed
    (failure (lit "Unknown tool: " ++ lit "reschedule_meeting")).
Proof.
  pose proof (result_envelope_invariant MemoryCalendar.env MemoryCalendar.service
                GOOGLE_CALENDAR_CONFIG) as H.
  destruct H as (_ & _ & _ & _ & _ & H & _).
  apply (H (lit "reschedule_meeting")
           (mkToolInput None None None None None None None [])
           MemoryCalendar.empty _ MemoryCalendar.empty).
  reflexivity.
Defined.

(** On the calendar holding the 14:00 meeting, a proposal for 14:30 of the
    same day is answered with that meeting. *)
Lemma check_time_conflict_first_overlap_witness :
  fst (_check_time_conflict MemoryCalendar.env MemoryCalendar.service
         (lit "2025-06-10") (lit "14:30") None MemoryCalendar.booked)
  = inr (Some MemoryCalendar.standup_fetched).
Proof.
  refine (proj1 (check_time_conflict_first_overlap
                   MemoryCalendar.env MemoryCalendar.service
                   (lit "2025-06-10") (lit "14:30") None MemoryCalendar.booked
                   (mkdt 2025 6 10 14 30 0 0) (mkdt 2025 6 10 15 30 0 0)
                   (mkdt 2025 6 11 0 0 0 0)
                   [MemoryCalendar.standup_event]
                   (st_world MemoryCalendar.booked)
                   _ _ _ _ _ _ _)).
  - reflexivity.
  - vm_compute. reflexivity.
  - vm_compute. reflexivity.
  - vm_compute. reflexivity.
  - vm_compute. reflexivity.
  - constructor; [|constructor].
    exists (mkdt 2025 6 10 14 0 0 0), (mkdt 2025 6 10 15 0 0 0).
    split; vm_compute; reflexivity.
  - discriminate.
Defined.

(** C7.  [_check_time_conflict] fails open: whenever its guarded block
    raises, be it the provider's list request that fails or a fetched
    event whose date and time do not parse, the answer is "no conflict".
    [is_future_datetime] fails closed: when date and time do not parse the
    answer is [False]. *)
Theorem conflict_check_fails_open_future_check_fails_closed
        (E : Env) (svc : Service) (date_str time_str : pystr)
        (exclude_event_id : option pystr) (s : state E) :
  (forall e s',
      check_time_conflict_body E svc date_str time_str exclude_event_id s
      = (inl e, s') ->
      _check_time_conflict E svc date_str time_str exclude_event_id s
      = (inr None, s'))
  /\ (is_enabled svc = true ->
      (forall time_min time_max,
          exists e w, list_request E svc time_min time_max s = (inl e, w)) ->
      fst (_check_time_conflict E svc date_str time_str exclude_event_id s)
      = inr None)
  /\ (forall proposed_start proposed_end day_end items w e,
        is_enabled svc = true ->
        combine date_str time_str = Some proposed_start ->
        add_minutes proposed_start 60 = Some proposed_end ->
        add_days (midnight proposed_start) 1 = Some day_end ->
        list_request E svc (midnight proposed_start) day_end s = (inr items, w) ->
        conflict_loop proposed_start proposed_end exclude_event_id
                      (convert_all items) = inl e ->
        fst (_check_time_conflict E svc date_str time_str exclude_event_id s)
        = inr None)
  /\ (combine date_str time_str = None ->
      forall current, is_future_datetime date_str time_str current = false).
Proof.
  refine (conj _ (conj _ (conj _ _))).
  - intros e s' H. rewrite check_time_conflict_of_body, H. reflexivity.
  - intros Hen Hfail. rewrite check_time_conflict_of_body.
    unfold check_time_conflict_body, bind, expect.
    destruct (combine date_str time_str) as [ps|]; [|reflexivity].
    cbn [ret]. destruct (add_minutes ps 60) as [pe|]; [|reflexivity].
    cbn [ret]. destruct (add_days (midnight ps) 1) as [de|]; [|reflexivity].
    cbn [ret]. destruct (Hfail (midnight ps) de) as (e & w & Hl).
    rewrite (get_events_error _ _ _ _ _ _ _ Hen Hl).
    destruct (is_http e); reflexivity.
  - intros ps pe de items w e Hen Hs He Hd Hl Hloop.
    rewrite (check_time_conflict_run _ _ _ _ _ _ _ _ _ _ _ Hen Hs He Hd Hl), Hloop.
    reflexivity.
  - intros H current. unfold is_future_datetime. rewrite H. reflexivity.
Qed.

(** A calendar that times out yields "no conflict", and the thirteenth
    month is never in the future. *)
Lemma conflict_check_fails_open_future_check_fails_closed_witness :
  fst (_check_time_conflict MemoryCalendar.env MemoryCalendar.service
         (lit "2025-06-10") (lit "14:30") None
         (MemoryCalendar.failing (OtherError (lit "timed out"))))
  = inr None
  /\ is_future_datetime (lit "2025-13-01") (lit "10:00") (mkdt 2025 6 1 9 0 0 0)
     = false.
Proof.
  split.
  - refine (proj1 (proj2 (conflict_check_fails_open_future_check_fails_closed
                            MemoryCalendar.env MemoryCalendar.service
                            (lit "2025-06-10") (lit "14:30") None
                            (MemoryCalendar.failing (OtherError (lit "timed out")))))
                  _ _).
    + reflexivity.
    + intros time_min time_max.
      exists (OtherError (lit "timed out")), (st_world (MemoryCalendar.failing (OtherError (lit "timed out")))).
      reflexivity.
  - refine (proj2 (proj2 (proj2 (conflict_check_fails_open_future_check_fails_closed
                                   MemoryCalendar.env MemoryCalendar.service
                                   (lit "2025-13-01") (lit "10:00") None
                                   MemoryCalendar.empty)))
                  _ (mkdt 2025 6 1 9 0 0 0)).
    vm_compute. reflexivity.
Defined.

(** ** Updating a meeting *)

Section UpdateFacts.
Variable E : Env.
Variable svc : Service.

Lemma get_events_trace time_min time_max s r s' :
  get_events E svc time_min time_max s = (r, s') ->
  exists l, st_trace s' = st_trace s ++ l /\ Forall is_read l.
Proof.
  unfold get_events, bind, record, except_http, try_except, lift_api.
  cbn [st_world st_trace].
  destruct (negb (is_enabled svc)).
  - intros [= _ <-]. exists [SvcGetEvents time_min time_max].
    split; [reflexivity|repeat constructor].
  - destruct (env_list E _ _ _ _ _) as [[e|items] w].
    + destruct (is_http e); intros [= _ <-]; eexists;
        (split; [symmetry; apply app_assoc|repeat constructor]).
    + intros [= _ <-]. eexists.
      split; [symmetry; apply app_assoc|repeat constructor].
Qed.

Lemma check_time_conflict_trace date_str time_str exclude s r s' :
  _check_time_conflict E svc date_str time_str exclude s = (r, s') ->
  exists l, st_trace s' = st_trace s ++ l /\ Forall is_read l.
Proof.
  rewrite check_time_conflict_of_body.
  unfold check_time_conflict_body, bind, expect.
  assert (Hnil : exists l, st_trace s = st_trace s ++ l /\ Forall is_read l).
  { exists []. split; [symmetry; apply app_nil_r|constructor]. }
  destruct (combine date_str time_str) as [ps|]; [|intros [= _ <-]; exact Hnil].
  cbn [ret]. destruct (add_minutes ps 60) as [pe|]; [|intros [= _ <-]; exact Hnil].
  cbn [ret]. destruct (add_days (midnight ps) 1) as [de|];
    [|intros [= _ <-]; exact Hnil].
  cbn [ret]. destruct (get_events E svc (midnight ps) de s) as [[e|events] s1] eqn:Hg.
  - intros [= _ <-]. eapply get_events_trace; eauto.
  - unfold lift_sum.
    destruct (conflict_loop ps pe exclude events) as [e|c];
      intros [= _ <-]; eapply get_events_trace; eauto.
Qed.

Lemma update_event_trace m gid s r s' :
  update_event E svc m gid s = (r, s') ->
  exists l, st_trace s' = st_trace s ++ SvcUpdate m gid :: l
            /\ Forall (fun c => exists body, c = ApiUpdate gid body
                                 /\ _convert_to_google_event svc m = inr body) l.
Proof.
  unfold update_event, bind, record, except_http, try_except, lift_api, lift_sum.
  cbn [st_world st_trace].
  destruct (negb (is_enabled svc)).
  - intros [= _ <-]. exists []. split; [reflexivity|constructor].
  - destruct (_convert_to_google_event svc m) as [e|body] eqn:Hc.
    + unfold raise. destruct (is_http e); intros [= _ <-];
        exists []; (split; [reflexivity|constructor]).
    + unfold ret. cbn [st_world st_trace].
      destruct (env_update E _ _ _ _) as [[e|ev] w].
      * destruct (is_http e); intros [= _ <-];
          exists [ApiUpdate gid body];
          (split; [rewrite <- app_assoc; reflexivity|repeat constructor; eauto]).
      * intros [= _ <-]. exists [ApiUpdate gid body].
        split; [rewrite <- app_assoc; reflexivity|repeat constructor; eauto].
Qed.

(** A reported conflict is never the excluded event. *)
Lemma conflict_loop_not_excluded ps pe gid events c :
  gid <> [] ->
  conflict_loop ps pe (Some gid) events = inr (Some c) ->
  m_google_event_id c <> Some gid.
Proof.
  intros Hg. induction events as [|ev events IH]; simpl; [discriminate|].
  destruct gid as [|a gid]; [contradiction|]. cbn [truthy andb].
  destruct (opt_eqb (m_google_event_id ev) (Some (a :: gid))) eqn:Heq; [exact IH|].
  destruct (combine (m_date ev) (m_time ev)) as [es|]; [|discriminate].
  destruct (add_minutes es 60) as [ee|]; [|discriminate].
  destruct (overlaps ps pe es ee); [|exact IH].
  intros [= <-] Hid. apply opt_eqb_eq in Hid. congruence.
Qed.

Lemma check_time_conflict_not_excluded date_str time_str gid s c s' :
  gid <> [] ->
  _check_time_conflict E svc date_str time_str (Some gid) s = (inr (Some c), s') ->
  m_google_event_id c <> Some gid.
Proof.
  intros Hg. rewrite check_time_conflict_of_body.
  unfold check_time_conflict_body, bind, expect.
  destruct (combine date_str time_str) as [ps|]; [|discriminate].
  cbn [ret]. destruct (add_minutes ps 60) as [pe|]; [|discriminate].
  cbn [ret]. destruct (add_days (midnight ps) 1) as [de|]; [|discriminate].
  cbn [ret]. destruct (get_events E svc (midnight ps) de s) as [[e|events] s1];
    [discriminate|].
  unfold lift_sum.
  destruct (conflict_loop ps pe (Some gid) events) as [e|[c'|]] eqn:Hl;
    try discriminate.
  intros [= <- _]. eapply conflict_loop_not_excluded; eauto.
Qed.

(** [update_meeting] once its target is resolved. *)
Lemma update_meeting_resolved meeting_id title date time participants description
      s result s1 m gid :
  get_meeting_details E svc None None None (Some meeting_id) s = (inr result, s1) ->
  first_meeting result = Some m ->
  m_google_event_id m = Some gid ->
  gid <> [] ->
  update_meeting E svc meeting_id title date time participants description s
  = match merge_fields m title date time participants description with
    | inl early => (inr early, s1)
    | inr merged =>
        if otruthy date || otruthy time then
          match _check_time_conflict E svc (m_date merged) (m_time merged)
                                     (Some gid) s1 with
          | (inr (Some c), s2) => (inr (failure (conflict_error c)), s2)
          | (inr None, s2) => update_outcome E svc merged gid s2
          | (inl e, s2) =>
              (inr (failure (lit "Error updating meeting: " ++ exn_msg e)), s2)
          end
        else update_outcome E svc merged gid s1
    end.
Proof.
  intros Hget Hfirst Hgid Hne.
  unfold update_meeting, try_except, bind. rewrite Hget, Hfirst, Hgid.
  destruct gid as [|a gid]; [contradiction|].
  destruct (merge_fields m title date time participants description) as [early|merged];
    [reflexivity|].
  unfold update_outcome.
  destruct (otruthy date || otruthy time); cbv beta iota.
  - destruct (_check_time_conflict _ _ _ _ _ _) as [[e|[c|]] s2];
      try reflexivity.
    destruct (update_event _ _ _ _ _) as [[e'|[|]] s3]; reflexivity.
  - unfold ret.
    destruct (update_event _ _ _ _ _) as [[e|[|]] s3]; reflexivity.
Qed.
End UpdateFacts.

Lemma parse_time_hhmm (s r : pystr) :
  parse_time s = Some r ->
  exists hour minute, in_range hour minute = true /\ r = hhmm hour minute.
Proof.
  unfold parse_time, parse_time_24h, parse_time_12h. intros H.
  repeat match type of H with
         | context [match ?x with _ => _ end] =>
             lazymatch x with
             | context [match _ with _ => _ end] => fail
             | _ => let Hx := fresh "Hx" in destruct x eqn:Hx
             end
         end;
    try discriminate H; injection H as <-; eauto.
Qed.

Lemma hhmm_truthy (hour minute : Z) : truthy (hhmm hour minute) = true.
Proof. reflexivity. Qed.

Lemma parse_time_truthy (s r : pystr) :
  parse_time s = Some r -> truthy r = true /\ truthy s = true.
Proof.
  intros H. split.
  - destruct (parse_time_hhmm _ _ H) as (h & mi & _ & ->). apply hhmm_truthy.
  - destruct s; [discriminate H|reflexivity].
Qed.

Lemma merge_fields_time_only (m m' : Meeting) (new_time : pystr) :
  merge_fields m None None (Some new_time) None None = inr m' ->
  same_but_time m m'
  /\ (new_time <> [] -> parse_time new_time = Some (m_time m')).
Proof.
  unfold merge_fields. cbn [otruthy ostr].
  destruct (truthy new_time) eqn:Ht.
  - destruct (parse_time new_time) as [pt|] eqn:Hp; [|discriminate].
    destruct (truthy pt); [|discriminate].
    intros [= <-]. split; [repeat split|]. intros _. reflexivity.
  - intros [= <-]. split; [repeat split|].
    destruct new_time; [contradiction|discriminate].
Qed.

Lemma merge_fields_early m title date time participants description r :
  merge_fields m title date time participants description = inl r ->
  success r = false.
Proof.
  unfold merge_fields. intros H.
  repeat match type of H with
         | context [match ?x with _ => _ end] =>
             lazymatch x with
             | context [match _ with _ => _ end] => fail
             | _ => destruct x
             end
         end;
    try discriminate H; injection H as <-; reflexivity.
Qed.

Lemma read_not_update (l : list call) (m : Meeting) (g : pystr) :
  Forall is_read l -> ~ In (SvcUpdate m g) l.
Proof.
  intros Hall Hin. rewrite Forall_forall in Hall. exact (Hall _ Hin).
Qed.

Section UpdateMerge.
Variable E : Env.
Variable svc : Service.

Lemma update_outcome_calls merged gid s :
  exists r s',
    update_outcome E svc merged gid s = (inr r, s')
    /\ (exists l, st_trace s' = st_trace s ++ SvcUpdate merged gid :: l
                  /\ forall m' g, ~ In (SvcUpdate m' g) l)
    /\ (success r = true -> meeting r = Some merged).
Proof.
  unfold update_outcome.
  destruct (update_event E svc merged gid s) as [[e|[|]] s'] eqn:Hu;
    destruct (update_event_trace _ _ _ _ _ _ _ Hu) as (l & Hl & Hall);
    eexists; eexists; (split; [reflexivity|]); (split; [|simpl; try discriminate; auto]);
    exists l; (split; [exact Hl|]);
    intros m' g Hin; rewrite Forall_forall in Hall;
    destruct (Hall _ Hin) as (b & Hb & _); discriminate Hb.
Qed.

(** Whatever [update_meeting] sends to the adapter, and whatever meeting it
    returns, is the fetched meeting with the supplied fields merged in. *)
Lemma update_meeting_merged meeting_id title date time participants description
      s result s1 m gid :
  get_meeting_details E svc None None None (Some meeting_id) s = (inr result, s1) ->
  first_meeting result = Some m ->
  m_google_event_id m = Some gid ->
  gid <> [] ->
  exists r s',
    update_meeting E svc meeting_id title date time participants description s
    = (inr r, s')
    /\ (exists l, st_trace s' = st_trace s1 ++ l
                  /\ forall m' g, In (SvcUpdate m' g) l ->
                                  g = gid
                                  /\ merge_fields m title date time participants
                                                  description = inr m')
    /\ (success r = true ->
        exists m', meeting r = Some m'
                   /\ merge_fields m title date time participants description
                      = inr m'
                   /\ In (SvcUpdate m' gid) (st_trace s')).
Proof.
  intros Hget Hfirst Hgid Hne.
  rewrite (update_meeting_resolved _ _ _ _ _ _ _ _ _ _ _ _ _ Hget Hfirst Hgid Hne).
  destruct (merge_fields m title date time participants description)
    as [early|merged] eqn:Hm.
  - exists early, s1. split; [reflexivity|]. split.
    + exists []. split; [symmetry; apply app_nil_r|]. intros ? ? [].
    + intros Hs. apply merge_fields_early in Hm. congruence.
  - destruct (otruthy date || otruthy time).
    + destruct (_check_time_conflict E svc (m_date merged) (m_time merged)
                                     (Some gid) s1) as [[e|[c|]] s2] eqn:Hc;
        destruct (check_time_conflict_trace _ _ _ _ _ _ _ _ Hc) as (l1 & Hl1 & Hr1).
      * eexists; eexists. split; [reflexivity|]. split; [|discriminate].
        exists l1. split; [exact Hl1|].
        intros m' g Hin. destruct (read_not_update _ _ _ Hr1 Hin).
      * eexists; eexists. split; [reflexivity|]. split; [|discriminate].
        exists l1. split; [exact Hl1|].
        intros m' g Hin. destruct (read_not_update _ _ _ Hr1 Hin).
      * destruct (update_outcome_calls merged gid s2)
          as (r & s' & Hu & (l2 & Hl2 & Hno) & Hok).
        exists r, s'. split; [exact Hu|]. split.
        -- exists (l1 ++ SvcUpdate merged gid :: l2).
           split; [rewrite Hl2, Hl1, app_assoc; reflexivity|].
           intros m' g Hin. apply in_app_or in Hin. destruct Hin as [Hin|[Heq|Hin]].
           ++ destruct (read_not_update _ _ _ Hr1 Hin).
           ++ injection Heq as <- <-. auto.
           ++ destruct (Hno _ _ Hin).
        -- intros Hs. exists merged. repeat split; auto.
           rewrite Hl2. apply in_or_app. right. left. reflexivity.
    + destruct (update_outcome_calls merged gid s1)
        as (r & s' & Hu & (l2 & Hl2 & Hno) & Hok).
      exists r, s'. split; [exact Hu|]. split.
      * exists (SvcUpdate merged gid :: l2). split; [exact Hl2|].
        intros m' g [Heq|Hin]; [injection Heq as <- <-; auto|destruct (Hno _ _ Hin)].
      * intros Hs. exists merged. repeat split; auto.
        rewrite Hl2. apply in_or_app. right. left. reflexivity.
Qed.
End UpdateMerge.


Lemma merge_fields_no_date_time m title participants description :
  exists m', merge_fields m title None None participants description = inr m'.
Proof.
  unfold merge_fields. cbn [otruthy]. eauto.
Qed.

(** C5.  For a meeting that [get_meeting_details(meeting_id=...)] resolves,
    [update_meeting] with nothing but [meeting_id] and [time] always
    returns a result; every meeting it passes to the adapter's update, and
    the meeting it returns on success, has the title, participants,
    description (and date and ids) of the fetched meeting, the time being
    the only field that may differ; and the conflict check it runs for the
    new time excludes the meeting's own remote id, so that a reported
    conflict is always another event. *)
Theorem update_time_only_keeps_other_fields
        (E : Env) (svc : Service) (meeting_id new_time : pystr)
        (s s1 : state E) (result : Result) (m : Meeting) (gid : pystr) :
  get_meeting_details E svc None None None (Some meeting_id) s = (inr result, s1) ->
  first_meeting result = Some m ->
  m_google_event_id m = Some gid ->
  gid <> [] ->
  exists r s',
    update_meeting E svc meeting_id None None (Some new_time) None None s
    = (inr r, s')
    /\ (exists l, st_trace s' = st_trace s1 ++ l
                  /\ forall m' g, In (SvcUpdate m' g) l ->
                                  g = gid /\ same_but_time m m')
    /\ (success r = true ->
        exists m', meeting r = Some m'
                   /\ same_but_time m m'
                   /\ (new_time <> [] -> parse_time new_time = Some (m_time m'))
                   /\ In (SvcUpdate m' gid) (st_trace s'))
    /\ (forall parsed_time,
          parse_time new_time = Some parsed_time ->
          (forall c s2,
              _check_time_conflict E svc (m_date m) parsed_time (Some gid) s1
              = (inr (Some c), s2) ->
              r = failure (conflict_error c)
              /\ m_google_event_id c <> Some gid)
          /\ (forall s2,
                _check_time_conflict E svc (m_date m) parsed_time (Some gid) s1
                = (inr None, s2) ->
                In (SvcUpdate (set_time m parsed_time) gid) (st_trace s'))).
Proof.
  intros Hget Hfirst Hgid Hne.
  destruct (update_meeting_merged E svc meeting_id None None (Some new_time) None None
              _ _ _ _ _ Hget Hfirst Hgid Hne)
    as (r & s' & Hrun & (l & Hl & Hcalls) & Hok).
  exists r, s'. split; [exact Hrun|]. split; [|split].
  - exists l. split; [exact Hl|]. intros m' g Hin.
    destruct (Hcalls _ _ Hin) as [-> Hm]. split; [reflexivity|].
    apply (merge_fields_time_only _ _ _ Hm).
  - intros Hs. destruct (Hok Hs) as (m' & Hret & Hm & Hin).
    exists m'. destruct (merge_fields_time_only _ _ _ Hm). auto.
  - intros pt Hpt. destruct (parse_time_truthy _ _ Hpt) as [Hpt_t Ht].
    assert (Hmerge : merge_fields m None None (Some new_time) None None
                     = inr (set_time m pt)).
    { unfold merge_fields. cbn [otruthy ostr]. rewrite Ht, Hpt, Hpt_t. reflexivity. }
    rewrite (update_meeting_resolved _ _ _ _ _ _ _ _ _ _ _ _ _ Hget Hfirst Hgid Hne)
      in Hrun.
    rewrite Hmerge in Hrun. cbn [otruthy orb] in Hrun. rewrite Ht in Hrun.
    cbn [set_time m_date m_time] in Hrun. split.
    + intros c s2 Hc. rewrite Hc in Hrun. injection Hrun as <- <-.
      split; [reflexivity|].
      eapply check_time_conflict_not_excluded; eauto.
    + intros s2 Hc. rewrite Hc in Hrun.
      destruct (update_outcome_calls E svc (set_time m pt) gid s2)
        as (r2 & s2' & Hu & (l2 & Hl2 & _) & _).
      rewrite Hu in Hrun. injection Hrun as <- <-.
      rewrite Hl2. apply in_or_app. right. left. reflexivity.
Qed.

(** Moving the 14:00 meeting of the example calendar to 16:00 keeps its
    title, participants and description. *)
Lemma update_time_only_keeps_other_fields_witness :
  exists r s',
    update_meeting MemoryCalendar.env MemoryCalendar.service (lit "evt1")
                   None None (Some (lit "16:00")) None None MemoryCalendar.booked
    = (inr r, s')
    /\ (success r = true ->
        exists m', meeting r = Some m'
                   /\ same_but_time MemoryCalendar.standup_fetched m').
Proof.
  destruct (update_time_only_keeps_other_fields
              MemoryCalendar.env MemoryCalendar.service (lit "evt1") (lit "16:00")
              MemoryCalendar.booked
              (after_list MemoryCalendar.env
                          (mkdt 2025 6 1 9 0 0 0) (mkdt 2025 7 1 9 0 0 0)
                          MemoryCalendar.booked (st_world MemoryCalendar.booked))
              (mkResult true None None (Some [MemoryCalendar.standup_fetched]) None
                        (Some (lit "Found 1 meeting(s) in Google Calendar"))
                        (Some 1))
              MemoryCalendar.standup_fetched (lit "evt1"))
    as (r & s' & Hrun & _ & Hok & _).
  - vm_compute. reflexivity.
  - reflexivity.
  - reflexivity.
  - discriminate.
  - exists r, s'. split; [exact Hrun|].
    intros Hs. destruct (Hok Hs) as (m' & Hm & Hsame & _). eauto.
Defined.





(** ** Participants on the write path *)

Lemma existsb_rev_eq {A} (f : A -> bool) (l : list A) :
  existsb f (rev l) = existsb f l.
Proof.
  induction l as [|a l IH]; simpl; auto.
  rewrite existsb_app, IH. simpl. rewrite orb_false_r. apply orb_comm.
Qed.

Lemma contains_char_lstrip (c : ascii) (s : pystr) :
  is_space c = false -> contains_char c (lstrip s) = contains_char c s.
Proof.
  intros Hc. unfold contains_char. induction s as [|a s IH]; simpl; auto.
  destruct (is_space a) eqn:Ha; [|reflexivity].
  rewrite IH. destruct (Ascii.eqb c a) eqn:Heq; [|reflexivity].
  apply Ascii.eqb_eq in Heq. congruence.
Qed.

Lemma contains_char_strip (c : ascii) (s : pystr) :
  is_space c = false -> contains_char c (strip s) = contains_char c s.
Proof.
  intros Hc. unfold strip, rstrip.
  unfold contains_char at 1. rewrite existsb_rev_eq.
  fold (contains_char c (lstrip (rev (lstrip s)))).
  rewrite (contains_char_lstrip _ _ Hc).
  unfold contains_char at 1. rewrite existsb_rev_eq.
  apply (contains_char_lstrip _ _ Hc).
Qed.

(** Stripping does not change whether a string looks like an address. *)
Lemma is_email_strip (s : pystr) : is_email (strip s) = is_email s.
Proof.
  unfold is_email. rewrite !contains_char_strip; reflexivity.
Qed.

Lemma partition_participants_spec (ps : list pystr) :
  partition_participants ps
  = (map email_attendee (map strip (filter is_email (filter truthy ps))),
     map strip (filter (fun p => negb (is_email p)) (filter truthy ps))).
Proof.
  induction ps as [|p ps IH]; simpl; [reflexivity|].
  rewrite IH. destruct (truthy p); [|reflexivity].
  simpl. rewrite is_email_strip. destruct (is_email p); reflexivity.
Qed.

Lemma lstrip_head (s : pystr) :
  lstrip s = [] \/ exists a t, lstrip s = a :: t /\ is_space a = false.
Proof.
  induction s as [|a s IH]; simpl; auto.
  destruct (is_space a) eqn:Ha; eauto.
Qed.

Lemma strip_ends_solid (s : pystr) : strip s <> [] -> ends_solid (strip s).
Proof.
  unfold strip, rstrip. intros H.
  destruct (lstrip_head (rev (lstrip s))) as [Hn|(a & t & Ht & Ha)].
  - rewrite Hn in H. contradiction.
  - rewrite Ht. simpl. exists (rev t), a. auto.
Qed.

Lemma rstrip_ends_solid (s : pystr) : ends_solid s -> rstrip s = s.
Proof.
  intros (t & a & -> & Ha). unfold rstrip.
  rewrite rev_app_distr. simpl. rewrite Ha. simpl.
  rewrite rev_involutive. reflexivity.
Qed.

Lemma ends_solid_app (p s : pystr) : ends_solid s -> ends_solid (p ++ s).
Proof.
  intros (t & a & -> & Ha). exists (p ++ t), a. rewrite app_assoc. auto.
Qed.

Lemma join_ends_solid (sep : pystr) (l : list pystr) :
  l <> [] -> Forall ends_solid l -> ends_solid (join sep l).
Proof.
  intros Hne Hall. induction Hall as [|x l Hx Hall IH]; [contradiction|].
  destruct l as [|y l]; simpl; [exact Hx|].
  apply ends_solid_app, ends_solid_app, IH. discriminate.
Qed.

Lemma contains_app_r (p a b : pystr) :
  contains p b = true -> contains p (a ++ b) = true.
Proof.
  intros H. induction a as [|c a IH]; simpl; [exact H|].
  rewrite IH. apply orb_true_r.
Qed.

Lemma build_description_names (description : pystr) (names : list pystr) :
  names <> [] ->
  Forall (fun p => strip p <> []) names ->
  build_description description (map strip names)
  = description_with description (map strip names).
Proof.
  intros Hne Hall. unfold build_description, description_with.
  destruct names as [|n names]; [contradiction|].
  cbn [map]. destruct (truthy description).
  - rewrite <- app_assoc. reflexivity.
  - unfold strip at 1. cbn [app lstrip is_space]. simpl lstrip.
    apply rstrip_ends_solid.
    apply (ends_solid_app (lit "Participants: ")).
    apply (join_ends_solid (lit ", ") (map strip (n :: names))); [discriminate|].
    apply Forall_map. apply Forall_impl with (2 := Hall).
    intros p Hp. apply strip_ends_solid, Hp.
Qed.

Lemma attendees_of_built (l : list Attendee) (ev : GEvent) :
  g_attendees ev = match l with [] => None | _ => Some l end ->
  attendees_of ev = l.
Proof.
  unfold attendees_of. intros ->. destruct l; reflexivity.
Qed.

(** C4 as the code has it.  When a meeting is converted to a provider
    event, every non-empty participant string that contains both [@] and
    [.] becomes an attendee whose email is that string stripped of
    surrounding white space, in order; every other non-empty participant
    produces no attendee and, stripped, is appended comma-joined to the
    description after the marker "Participants: " (provided no participant
    is blank); participants alice@example.com and Bob give exactly the
    attendee alice@example.com and a description containing Bob. *)
Theorem convert_partitions_participants
        (svc : Service) (m : Meeting) (ev : GEvent) :
  _convert_to_google_event svc m = inr ev ->
  let given := filter truthy (m_participants m) in
  let names := map strip (filter (fun p => negb (is_email p)) given) in
  attendees_of ev = map email_attendee (map strip (filter is_email given))
  /\ (forall p, In p given -> is_email p = false ->
                ~ In (email_attendee (strip p)) (attendees_of ev))
  /\ (names = [] -> g_description ev = Some (m_description m))
  /\ (names <> [] -> Forall (fun p => strip p <> []) given ->
      g_description ev = Some (description_with (m_description m) names))
  /\ (m_participants m = [lit "alice@example.com"; lit "Bob"] ->
      attendees_of ev = [email_attendee (lit "alice@example.com")]
      /\ exists d, g_description ev = Some d /\ contains (lit "Bob") d = true).
Proof.
  intros Hc given names. unfold _convert_to_google_event in Hc.
  destruct (combine (m_date m) (m_time m)) as [start|]; [|discriminate].
  destruct (add_minutes start 60) as [fin|]; [|discriminate].
  rewrite partition_participants_spec in Hc. fold given in Hc. fold names in Hc.
  injection Hc as <-.
  assert (Hatt : forall G, attendees_of
            (mkGEvent None (Some (m_title m)) G
               (Some (mkEventTime (Some (isoformat_utc start)) None (Some (lit "UTC"))))
               (Some (mkEventTime (Some (isoformat_utc fin)) None (Some (lit "UTC"))))
               match map email_attendee (map strip (filter is_email given)) with
               | [] => None
               | _ :: _ => Some (map email_attendee (map strip (filter is_email given)))
               end
               [(lit "email", default_reminder_minutes (config svc));
                (lit "popup", default_reminder_minutes (config svc))]
               (Some (m_id m, lit "calendar_mcp_agent"))
               (if add_conference_link (config svc)
                then Some (lit "meet-" ++ ostr (m_id m)) else None)
               None None)
            = map email_attendee (map strip (filter is_email given))).
  { intros G. apply attendees_of_built. reflexivity. }
  refine (conj (Hatt _) (conj _ (conj _ (conj _ _)))).
  - intros p Hin Hp. rewrite Hatt. rewrite map_map. intros Hin'.
    apply in_map_iff in Hin'. destruct Hin' as (q & Hq & Hinq).
    apply filter_In in Hinq. destruct Hinq as [_ Hqe].
    injection Hq as Hq.
    rewrite <- (is_email_strip q), Hq, is_email_strip in Hqe. congruence.
  - intros Hn. cbn [g_description]. rewrite Hn. reflexivity.
  - intros Hn Hall. cbn [g_description]. f_equal. unfold names.
    apply build_description_names.
    + intros Heq. apply Hn. unfold names. rewrite Heq. reflexivity.
    + rewrite Forall_forall in *. intros p Hp. apply Hall.
      apply filter_In in Hp. tauto.
  - intros Hps. split.
    + rewrite Hatt. unfold given. rewrite Hps. reflexivity.
    + cbn [g_description]. eexists. split; [reflexivity|].
      unfold names, given. rewrite Hps.
      change (contains (lit "Bob")
                (build_description (m_description m) [lit "Bob"]) = true).
      unfold build_description. destruct (truthy (m_description m)).
      * apply contains_app_r. reflexivity.
      * reflexivity.
Qed.

(** The conversion of the example meeting has one attendee. *)
Lemma convert_partitions_participants_witness :
  attendees_of
    (mkGEvent None (Some (lit "Standup")) (Some (lit "Participants: Bob"))
       (Some (mkEventTime (Some (lit "2025-06-10T14:00:00+00:00")) None
                          (Some (lit "UTC"))))
       (Some (mkEventTime (Some (lit "2025-06-10T15:00:00+00:00")) None
                          (Some (lit "UTC"))))
       (Some [email_attendee (lit "alice@example.com")])
       [(lit "email", 15); (lit "popup", 15)]
       (Some (Some (lit "id1"), lit "calendar_mcp_agent"))
       (Some (lit "meet-id1")) None None)
  = [email_attendee (lit "alice@example.com")].
Proof.
  refine (proj1 (proj2 (proj2 (proj2 (proj2
            (convert_partitions_participants MemoryCalendar.service
               (mkMeeting (Some (lit "id1")) (lit "Standup") (lit "2025-06-10")
                          (lit "14:00") [lit "alice@example.com"; lit "Bob"] []
                          None None false None None)
               _ _)))) _)).
  - vm_compute. reflexivity.
  - reflexivity.
Defined.

(** C4 as stated fails where a participant carries surrounding white
    space: the address " bob@example.com" is non-empty and contains [@] and
    [.], yet no attendee has that string as email (the attendee is
    "bob@example.com"); and a blank participant with an empty description
    leaves "Participants:" without the space of the marker. *)
Lemma participant_string_as_email_counterexample :
  let padded := lit " bob@example.com" in
  let meeting_of ps :=
    mkMeeting (Some (lit "id1")) (lit "Sync") (lit "2025-06-10") (lit "14:00")
              ps [] None None false None None in
  (exists ev,
      _convert_to_google_event MemoryCalendar.service (meeting_of [padded]) = inr ev
      /\ padded <> [] /\ is_email padded = true
      /\ attendees_of ev = [email_attendee (lit "bob@example.com")]
      /\ ~ In (email_attendee padded) (attendees_of ev))
  /\ (exists ev,
        _convert_to_google_event MemoryCalendar.service (meeting_of [lit " "])
        = inr ev
        /\ g_description ev = Some (lit "Participants:")
        /\ contains (lit "Participants: ") (lit "Participants:") = false).
Proof.
  split.
  - eexists. split; [vm_compute; reflexivity|].
    split; [discriminate|]. split; [reflexivity|]. split; [reflexivity|].
    intros [H|[]]. discriminate H.
  - eexists. split; [vm_compute; reflexivity|].
    split; reflexivity.
Qed.

(** ** Reading back what was written: [strptime] after [strftime] *)

Lemma Z_below_cases (P : Z -> Prop) (n : nat) :
  (forall i, (i < n)%nat -> P (Z.of_nat i)) ->
  forall v, 0 <= v < Z.of_nat n -> P v.
Proof.
  intros H v Hv. rewrite <- (Z2Nat.id v) by lia. apply H. lia.
Qed.

(** Runs [tac] on each of the first [n] values of the natural number [i]. *)
Tactic Notation "each_below" integer(n) ident(i) tactic(tac) :=
  do n (destruct i as [|i]; [tac|]); exfalso; lia.

Lemma digit_char_code (n : Z) : code (digit_char n) = 48 + n mod 10.
Proof.
  unfold digit_char, code.
  assert (H : 0 <= n mod 10 < 10) by (apply Z.mod_pos_bound; lia).
  revert H. generalize (n mod 10). intros v Hv. revert v Hv.
  apply (Z_below_cases _ 10). intros i Hi.
  each_below 10 i reflexivity.
Qed.

Lemma is_digit_digit_char (n : Z) : is_digit (digit_char n) = true.
Proof.
  unfold is_digit. rewrite digit_char_code.
  assert (H : 0 <= n mod 10 < 10) by (apply Z.mod_pos_bound; lia).
  apply andb_true_iff. split; apply Z.leb_le; lia.
Qed.

Lemma is_space_digit_char (n : Z) : is_space (digit_char n) = false.
Proof.
  unfold is_space. rewrite digit_char_code.
  assert (H : 0 <= n mod 10 < 10) by (apply Z.mod_pos_bound; lia).
  repeat (apply orb_false_iff; split);
    try (apply andb_false_iff; right; apply Z.leb_gt; lia);
    apply Z.eqb_neq; lia.
Qed.

Lemma accepts_eps : accepts Eps [] (fun c => c).
Proof. intros A rest caps k res H. exact H. Qed.

Lemma accepts_cls (c : cls) (a : ascii) :
  cls_mem c a = true -> accepts (Cls c) [a] (fun c => c).
Proof. intros Hc A rest caps k res H. simpl. rewrite Hc. exact H. Qed.

Lemma accepts_seq r1 r2 p1 p2 f1 f2 :
  accepts r1 p1 f1 -> accepts r2 p2 f2 ->
  accepts (Seq r1 r2) (p1 ++ p2) (fun c => f2 (f1 c)).
Proof.
  intros H1 H2 A rest caps k res H. simpl. rewrite <- app_assoc.
  apply H1. apply H2. exact H.
Qed.

Lemma firstn_consumed (p rest : pystr) :
  firstn (List.length (p ++ rest) - List.length rest) (p ++ rest) = p.
Proof.
  rewrite length_app, Nat.add_sub.
  rewrite firstn_app, Nat.sub_diag, firstn_all. simpl. apply app_nil_r.
Qed.

Lemma accepts_grp name r p f :
  accepts r p f -> accepts (Grp name r) p (fun c => (name, p) :: f c).
Proof.
  intros Hr A rest caps k res H. simpl. apply Hr.
  rewrite firstn_consumed. exact H.
Qed.

(** A star in front of a character outside its class takes nothing. *)
Lemma accepts_star_then c r a p f :
  cls_mem c a = false -> accepts r (a :: p) f ->
  accepts (Seq (Star c) r) (a :: p) f.
Proof.
  intros Hc Hr A rest caps k res H. simpl. rewrite Hc.
  apply (Hr A rest caps k res H).
Qed.

Lemma zpad_2 (v : Z) : zpad 2 v = two_digits v.
Proof. reflexivity. Qed.

Lemma zpad_4 (v : Z) :
  zpad 4 v = [digit_char (v / 10 / 10 / 10); digit_char (v / 10 / 10);
              digit_char (v / 10); digit_char v].
Proof. reflexivity. Qed.

Ltac accept_literal :=
  let H := fresh "H" in
  intros _ ? ? ? ? ? H; cbn; rewrite ?H; reflexivity.

Lemma accepts_month (v : Z) :
  1 <= v <= 12 -> accepts (inner "m") (two_digits v) (fun c => c).
Proof.
  intros Hv. assert (Hb : 0 <= v < Z.of_nat 13) by lia.
  revert v Hb Hv.
  apply (Z_below_cases
           (fun v => 1 <= v <= 12 -> accepts (inner "m") (two_digits v) (fun c => c))
           13).
  intros i Hi. each_below 13 i (first [intros; lia | accept_literal]).
Qed.

Lemma accepts_day (v : Z) :
  1 <= v <= 31 -> accepts (inner "d") (two_digits v) (fun c => c).
Proof.
  intros Hv. assert (Hb : 0 <= v < Z.of_nat 32) by lia.
  revert v Hb Hv.
  apply (Z_below_cases
           (fun v => 1 <= v <= 31 -> accepts (inner "d") (two_digits v) (fun c => c))
           32).
  intros i Hi. each_below 32 i (first [intros; lia | accept_literal]).
Qed.

Lemma accepts_hour (v : Z) :
  0 <= v <= 23 -> accepts (inner "H") (two_digits v) (fun c => c).
Proof.
  intros Hv. assert (Hb : 0 <= v < Z.of_nat 24) by lia.
  revert v Hb Hv.
  apply (Z_below_cases
           (fun v => 0 <= v <= 23 -> accepts (inner "H") (two_digits v) (fun c => c))
           24).
  intros i Hi. each_below 24 i accept_literal.
Qed.

Lemma accepts_minute (v : Z) :
  0 <= v <= 59 -> accepts (inner "M") (two_digits v) (fun c => c).
Proof.
  intros Hv. assert (Hb : 0 <= v < Z.of_nat 60) by lia.
  revert v Hb Hv.
  apply (Z_below_cases
           (fun v => 0 <= v <= 59 -> accepts (inner "M") (two_digits v) (fun c => c))
           60).
  intros i Hi. each_below 60 i accept_literal.
Qed.

Lemma accepts_year (v : Z) : accepts (inner "Y") (zpad 4 v) (fun c => c).
Proof.
  intros A rest caps k res H. rewrite zpad_4. cbn [inner directive Ascii.eqb].
  simpl. rewrite !is_digit_digit_char. exact H.
Qed.

Lemma pattern_stamp : pattern false (lit "%Y-%m-%d %H:%M") = Some re_stamp.
Proof. reflexivity. Qed.

Lemma match_stamp (y m d h mi : Z) :
  1 <= m <= 12 -> 1 <= d <= 31 -> 0 <= h <= 23 -> 0 <= mi <= 59 ->
  match_all re_stamp (stamp y m d h mi) = Some (stamp_groups y m d h mi).
Proof.
  intros Hm Hd Hh Hmi. unfold match_all.
  assert (Hacc : exists f, accepts re_stamp (stamp y m d h mi) f
                           /\ f [] = stamp_groups y m d h mi).
  { eexists. split; [unfold re_stamp, stamp|].
    - eapply accepts_seq; [apply accepts_grp, accepts_year|].
      eapply accepts_seq; [apply (accepts_cls (CChar "-") "-" eq_refl)|].
      eapply accepts_seq; [apply accepts_grp, (accepts_month m Hm)|].
      eapply accepts_seq; [apply (accepts_cls (CChar "-") "-" eq_refl)|].
      eapply accepts_seq; [apply accepts_grp, (accepts_day d Hd)|].
      eapply accepts_seq; [apply (accepts_cls CSpace " " eq_refl)|].
      apply (accepts_star_then CSpace _ (digit_char (h / 10))
               (digit_char h :: lit ":" ++ zpad 2 mi));
        [apply is_space_digit_char|].
      eapply (accepts_seq _ _ (two_digits h) (lit ":" ++ zpad 2 mi));
        [apply accepts_grp, (accepts_hour h Hh)|].
      eapply accepts_seq; [apply (accepts_cls (CChar ":") ":" eq_refl)|].
      rewrite <- (app_nil_r (zpad 2 mi)).
      eapply accepts_seq; [apply accepts_grp, (accepts_minute mi Hmi)|].
      apply accepts_eps.
    - reflexivity. }
  destruct Hacc as (f & Hacc & Hf).
  rewrite <- (app_nil_r (stamp y m d h mi)).
  rewrite (Hacc _ [] [] (fun s' c => Some (s', c)) ([], f [])); [|reflexivity].
  rewrite Hf. reflexivity.
Qed.

Lemma strip_solid (s : pystr) :
  (forall c, In c s -> is_space c = false) -> strip s = s.
Proof.
  intros H.
  assert (Hl : forall t, (forall c, In c t -> is_space c = false) -> lstrip t = t).
  { intros [|a t] Ht; simpl; [reflexivity|]. rewrite (Ht a); simpl; auto. }
  unfold strip, rstrip. rewrite (Hl s H), Hl, rev_involutive; [reflexivity|].
  intros c Hc. apply H. apply in_rev. exact Hc.
Qed.

Lemma py_int_digits (s : pystr) :
  s <> [] ->
  (forall c, In c s -> exists n, c = digit_char n) ->
  py_int s = Some (digits_value s).
Proof.
  intros Hne H. unfold py_int. rewrite strip_solid.
  - destruct s as [|a s]; [contradiction|].
    assert (Hall : forallb is_digit (a :: s) = true).
    { apply forallb_forall. intros c Hc. destruct (H c Hc) as [n ->].
      apply is_digit_digit_char. }
    rewrite Hall. reflexivity.
  - intros c Hc. destruct (H c Hc) as [n ->]. apply is_space_digit_char.
Qed.

Lemma py_int_two_digits (v : Z) : 0 <= v < 100 -> py_int (two_digits v) = Some v.
Proof.
  intros Hv. rewrite py_int_digits.
  - f_equal. unfold digits_value, two_digits. cbn [fold_left].
    rewrite !digit_char_code. Z.to_euclidean_division_equations. lia.
  - discriminate.
  - intros c [<-|[<-|[]]]; eauto.
Qed.

Lemma py_int_four_digits (v : Z) : 0 <= v < 10000 -> py_int (zpad 4 v) = Some v.
Proof.
  intros Hv. rewrite py_int_digits.
  - f_equal. rewrite zpad_4. unfold digits_value. cbn [fold_left].
    rewrite !digit_char_code. Z.to_euclidean_division_equations. lia.
  - rewrite zpad_4. discriminate.
  - rewrite zpad_4. intros c [<-|[<-|[<-|[<-|[]]]]]; eauto.
Qed.

Lemma valid_date_bounds (y m d : Z) :
  valid_date y m d = true -> 1 <= y <= 9999 /\ 1 <= m <= 12 /\ 1 <= d <= 31.
Proof.
  unfold valid_date, days_in_month. intros H.
  repeat (apply andb_true_iff in H; destruct H as [H ?]).
  repeat match goal with
         | H : (_ <=? _) = true |- _ => apply Z.leb_le in H
         end.
  repeat split; try lia.
  repeat match goal with
         | H : context [if ?b then _ else _] |- _ => destruct b
         end; lia.
Qed.

Lemma in_range_bounds (h mi : Z) :
  in_range h mi = true -> 0 <= h <= 23 /\ 0 <= mi <= 59.
Proof.
  unfold in_range. intros H.
  repeat (apply andb_true_iff in H; destruct H as [H ?]).
  repeat match goal with
         | H : (_ <=? _) = true |- _ => apply Z.leb_le in H
         end.
  lia.
Qed.

(** [strptime] reads a padded stamp back. *)
Lemma strptime_stamp (y m d h mi : Z) :
  valid_date y m d = true -> in_range h mi = true ->
  strptime (stamp y m d h mi) (lit "%Y-%m-%d %H:%M") = Some (mkdt y m d h mi 0 0).
Proof.
  intros Hd Ht.
  destruct (valid_date_bounds _ _ _ Hd) as (Hy & Hm & Hdd).
  destruct (in_range_bounds _ _ Ht) as (Hh & Hmi).
  unfold strptime. rewrite pattern_stamp, match_stamp by assumption.
  unfold int_group, stamp_groups. cbn [group String.eqb Ascii.eqb Bool.eqb].
  rewrite py_int_four_digits, !py_int_two_digits by lia.
  unfold make. rewrite Hd.
  unfold in_range in Ht. unfold valid_time.
  rewrite Ht. reflexivity.
Qed.

Lemma make_some y m d h mi s us dt :
  make y m d h mi s us = Some dt ->
  dt = mkdt y m d h mi s us /\ valid_date y m d = true /\ valid_time h mi s us = true.
Proof.
  unfold make.
  destruct (valid_date y m d); destruct (valid_time h mi s us); simpl;
    try discriminate.
  intros [= <-]. auto.
Qed.

Lemma strptime_valid (s fmt : pystr) (dt : datetime) :
  strptime s fmt = Some dt -> valid_date (year dt) (month dt) (day dt) = true.
Proof.
  unfold strptime. intros H.
  repeat match type of H with
         | context [match ?x with _ => _ end] =>
             lazymatch x with
             | context [match _ with _ => _ end] => fail
             | _ => destruct x
             end
         end; try discriminate H.
  apply make_some in H. destruct H as (-> & Hd & _). exact Hd.
Qed.

Lemma parse_date_valid (s : pystr) (dt : datetime) :
  parse_date s = Some dt -> valid_date (year dt) (month dt) (day dt) = true.
Proof.
  intros H. apply first_parse_some in H.
  destruct H as (_ & fmt & _ & _ & H & _). eapply strptime_valid; eauto.
Qed.

(** The date and time texts the handlers build combine to the instant they
    denote. *)
Lemma combine_formatted (dt : datetime) (h mi : Z) :
  valid_date (year dt) (month dt) (day dt) = true ->
  in_range h mi = true ->
  combine (strftime dt (lit "%Y-%m-%d")) (hhmm h mi)
  = Some (mkdt (year dt) (month dt) (day dt) h mi 0 0).
Proof.
  intros Hd Ht. rewrite <- (strptime_stamp _ _ _ _ _ Hd Ht). reflexivity.
Qed.

(** ** Scheduling in the past *)

(** C6 as the code has it.  For every non-empty title and every date and
    time text that parse, if the instant they denote is not strictly after
    the clock reading of the call, [schedule_meeting] returns the failure
    "Cannot schedule meetings in the past" and makes no call to the
    adapter or the provider: no conflict check, no create. *)
Theorem schedule_meeting_rejects_past
        (E : Env) (svc : Service) (cfg : Config)
        (title date time : pystr) (participants : option (list pystr))
        (description : pystr) (s : state E)
        (parsed_date : datetime) (hour minute : Z) :
  title <> [] ->
  parse_date date = Some parsed_date ->
  parse_time time = Some (hhmm hour minute) ->
  in_range hour minute = true ->
  gt (mkdt (year parsed_date) (month parsed_date) (day parsed_date) hour minute 0 0)
     (fst (env_now E (st_world s))) = false ->
  exists s',
    schedule_meeting E svc cfg title date time participants description s
    = (inr (failure (lit "Cannot schedule meetings in the past")), s')
    /\ st_trace s' = st_trace s
    /\ st_world s' = snd (env_now E (st_world s)).
Proof.
  intros Htitle Hdate Htime Hrange Hpast.
  assert (Hd : truthy date = true).
  { destruct date; [discriminate Hdate|reflexivity]. }
  destruct (parse_time_truthy _ _ Htime) as [_ Ht].
  assert (Hti : truthy title = true).
  { destruct title; [contradiction|reflexivity]. }
  unfold schedule_meeting, try_except, bind.
  rewrite Hti, Hd, Ht, Hdate, Htime. cbn [andb negb]. rewrite hhmm_truthy.
  cbn [negb]. unfold is_future_datetime_now, is_future_datetime.
  rewrite (combine_formatted _ _ _ (parse_date_valid _ _ Hdate) Hrange).
  unfold bind, now, lift_world, ret.
  destruct (env_now E (st_world s)) as [current w] eqn:Hnow.
  cbn [fst snd] in *. rewrite Hpast. cbn [negb].
  eexists. split; [reflexivity|]. split; reflexivity.
Qed.

(** Yesterday's meeting is refused on the example calendar. *)
Lemma schedule_meeting_rejects_past_witness :
  exists s',
    schedule_meeting MemoryCalendar.env MemoryCalendar.service GOOGLE_CALENDAR_CONFIG
      (lit "Review") (lit "31/05/2025") (lit "5pm") None [] MemoryCalendar.empty
    = (inr (failure (lit "Cannot schedule meetings in the past")), s')
    /\ st_trace s' = st_trace MemoryCalendar.empty
    /\ st_world s' = snd (env_now MemoryCalendar.env (st_world MemoryCalendar.empty)).
Proof.
  apply (schedule_meeting_rejects_past
           MemoryCalendar.env MemoryCalendar.service GOOGLE_CALENDAR_CONFIG
           (lit "Review") (lit "31/05/2025") (lit "5pm") None []
           MemoryCalendar.empty (mkdt 2025 5 31 0 0 0 0) 17 0).
  - discriminate.
  - vm_compute. reflexivity.
  - vm_compute. reflexivity.
  - reflexivity.
  - vm_compute. reflexivity.
Defined.

(** C6 as stated fails for the empty title: date and time parse and lie
    in the past, yet the error names the missing fields, not the past. *)
Lemma schedule_meeting_empty_title_counterexample :
  parse_date (lit "2020-01-01") = Some (mkdt 2020 1 1 0 0 0 0)
  /\ parse_time (lit "10:00") = Some (lit "10:00")
  /\ gt (mkdt 2020 1 1 10 0 0 0)
        (fst (env_now MemoryCalendar.env (st_world MemoryCalendar.empty))) = false
  /\ schedule_meeting MemoryCalendar.env MemoryCalendar.service GOOGLE_CALENDAR_CONFIG
       [] (lit "2020-01-01") (lit "10:00") None [] MemoryCalendar.empty
     = (inr (failure (lit "Missing required fields (title, date, time)")),
        MemoryCalendar.empty)
  /\ contains (lit "past") (lit "Missing required fields (title, date, time)") = false.
Proof.
  repeat split; vm_compute; reflexivity.
Qed.

(** ** Reading back what was written: [fromisoformat] after [isoformat] *)

Lemma digit_char_not (n : Z) (c : ascii) :
  is_digit c = false -> Ascii.eqb (digit_char n) c = false.
Proof.
  intros Hc. destruct (Ascii.eqb (digit_char n) c) eqn:Heq; [|reflexivity].
  apply Ascii.eqb_eq in Heq. rewrite <- Heq, is_digit_digit_char in Hc.
  discriminate Hc.
Qed.

Lemma not_digit_char (n : Z) (c : ascii) :
  is_digit c = false -> Ascii.eqb c (digit_char n) = false.
Proof.
  intros Hc. rewrite Ascii.eqb_sym. apply digit_char_not, Hc.
Qed.

Lemma digits_value_two (v : Z) :
  0 <= v < 100 -> digits_value (two_digits v) = v.
Proof.
  intros Hv. unfold digits_value, two_digits. cbn [fold_left].
  rewrite !digit_char_code. Z.to_euclidean_division_equations. lia.
Qed.

Lemma digits_value_four (v : Z) :
  0 <= v < 10000 ->
  digits_value [digit_char (v / 10 / 10 / 10); digit_char (v / 10 / 10);
                digit_char (v / 10); digit_char v] = v.
Proof.
  intros Hv. unfold digits_value. cbn [fold_left].
  rewrite !digit_char_code. Z.to_euclidean_division_equations. lia.
Qed.

Lemma utc_stamp_chars (y m d h mi : Z) :
  utc_stamp y m d h mi
  = [digit_char (y / 10 / 10 / 10); digit_char (y / 10 / 10); digit_char (y / 10);
     digit_char y; "-"%char; digit_char (m / 10); digit_char m; "-"%char;
     digit_char (d / 10); digit_char d; "T"%char; digit_char (h / 10);
     digit_char h; ":"%char; digit_char (mi / 10); digit_char mi; ":"%char;
     "0"%char; "0"%char; "+"%char; "0"%char; "0"%char; ":"%char; "0"%char;
     "0"%char].
Proof. reflexivity. Qed.

Lemma utc_stamp_has_T (y m d h mi : Z) :
  contains_char "T" (utc_stamp y m d h mi) = true.
Proof.
  rewrite utc_stamp_chars. unfold contains_char. cbn [existsb].
  rewrite !not_digit_char by reflexivity. reflexivity.
Qed.

Lemma replace_Z_none (s : pystr) :
  Forall (fun a => Ascii.eqb a "Z" = false) s -> replace_Z s = s.
Proof.
  induction 1 as [|a s Ha _ IH]; simpl; [reflexivity|].
  rewrite Ha, IH. reflexivity.
Qed.

Lemma utc_stamp_no_Z (y m d h mi : Z) :
  replace_Z (utc_stamp y m d h mi) = utc_stamp y m d h mi.
Proof.
  rewrite utc_stamp_chars. apply replace_Z_none.
  repeat constructor; apply digit_char_not; reflexivity.
Qed.

Lemma split_at_sign_plus (p z : pystr) :
  Forall (fun a => Ascii.eqb a "-" || Ascii.eqb a "+" = false) p ->
  split_at_sign (p ++ "+"%char :: z) = (p, Some z).
Proof.
  induction 1 as [|a p Ha _ IH]; simpl; [reflexivity|].
  rewrite Ha, IH. reflexivity.
Qed.

Lemma digits_n_two (v : Z) : 0 <= v < 100 -> digits_n 2 (two_digits v) = Some v.
Proof.
  intros Hv. unfold digits_n. cbn [List.length Nat.eqb two_digits forallb].
  rewrite !is_digit_digit_char. cbn [andb].
  fold (two_digits v). rewrite digits_value_two by lia. reflexivity.
Qed.

Lemma digits_n_four (v : Z) : 0 <= v < 10000 -> digits_n 4 (zpad 4 v) = Some v.
Proof.
  intros Hv. rewrite zpad_4. unfold digits_n. cbn [List.length Nat.eqb forallb].
  rewrite !is_digit_digit_char. cbn [andb].
  rewrite digits_value_four by lia. reflexivity.
Qed.

Lemma parse_hh_mm_00 (h mi : Z) :
  0 <= h <= 23 -> 0 <= mi <= 59 ->
  parse_hh_mm_ss_ff (two_digits h ++ lit ":" ++ two_digits mi ++ lit ":00")
  = Some (h, mi, 0, 0).
Proof.
  intros Hh Hmi. unfold parse_hh_mm_ss_ff.
  change (firstn 2 (two_digits h ++ lit ":" ++ two_digits mi ++ lit ":00"))
    with (two_digits h).
  rewrite digits_n_two by lia.
  change (skipn 2 (two_digits h ++ lit ":" ++ two_digits mi ++ lit ":00"))
    with (":"%char :: two_digits mi ++ lit ":00").
  cbv beta iota. change (negb (Ascii.eqb ":" ":")) with false. cbv beta iota.
  change (firstn 2 (two_digits mi ++ lit ":00")) with (two_digits mi).
  rewrite digits_n_two by lia.
  change (skipn 2 (two_digits mi ++ lit ":00")) with (lit ":00").
  reflexivity.
Qed.

Lemma fromisoformat_utc_stamp (y m d h mi : Z) :
  valid_date y m d = true -> in_range h mi = true ->
  fromisoformat (utc_stamp y m d h mi) = Some (mkdt y m d h mi 0 0).
Proof.
  intros Hd Ht.
  destruct (valid_date_bounds _ _ _ Hd) as (Hy & Hm & Hdd).
  destruct (in_range_bounds _ _ Ht) as (Hh & Hmi).
  unfold fromisoformat.
  change (firstn 4 (firstn 10 (utc_stamp y m d h mi))) with (zpad 4 y).
  change (firstn 2 (skipn 5 (firstn 10 (utc_stamp y m d h mi))))
    with (two_digits m).
  change (skipn 8 (firstn 10 (utc_stamp y m d h mi))) with (two_digits d).
  change (nth_error (firstn 10 (utc_stamp y m d h mi)) 4) with (Some "-"%char).
  change (nth_error (firstn 10 (utc_stamp y m d h mi)) 7) with (Some "-"%char).
  rewrite digits_n_four, !digits_n_two by lia.
  change (skipn 11 (utc_stamp y m d h mi))
    with (digit_char (h / 10)
          :: digit_char h
          :: lit ":" ++ two_digits mi ++ lit ":00" ++ "+"%char :: lit "00:00").
  change (negb (Ascii.eqb "-" "-" && Ascii.eqb "-" "-")) with false.
  cbv beta iota. cbn [List.length Nat.ltb Nat.leb].
  change (digit_char (h / 10)
          :: digit_char h
          :: lit ":" ++ two_digits mi ++ lit ":00" ++ "+"%char :: lit "00:00")
    with ((two_digits h ++ lit ":" ++ two_digits mi ++ lit ":00")
          ++ "+"%char :: lit "00:00").
  rewrite split_at_sign_plus.
  - rewrite parse_hh_mm_00 by lia.
    change (valid_offset (lit "00:00")) with true.
    unfold make. rewrite Hd. unfold in_range in Ht. unfold valid_time.
    rewrite Ht. reflexivity.
  - repeat constructor;
      first [ rewrite !digit_char_not by reflexivity; reflexivity | reflexivity ].
Qed.

(** ** Round trip through the provider *)

Lemma attendee_names (l : list pystr) :
  map attendee_name (map email_attendee l) = map (before_first "@") l.
Proof.
  induction l as [|p l IH]; simpl; [reflexivity|]. rewrite IH. reflexivity.
Qed.

Lemma utc_stamp_truthy (y m d h mi : Z) : truthy (utc_stamp y m d h mi) = true.
Proof. reflexivity. Qed.

Lemma read_back (svc : Service) (m : Meeting) (body ev : GEvent) (gid : pystr)
      (parsed_date : datetime) (hour minute : Z) :
  m_date m = strftime parsed_date (lit "%Y-%m-%d") ->
  valid_date (year parsed_date) (month parsed_date) (day parsed_date) = true ->
  m_time m = hhmm hour minute ->
  in_range hour minute = true ->
  _convert_to_google_event svc m = inr body ->
  echoes body ev gid ->
  exists m',
    _convert_from_google_event ev = Some m'
    /\ m_title m' = m_title m
    /\ m_date m' = m_date m
    /\ m_time m' = m_time m
    /\ m_participants m'
       = map local_part (filter is_email (filter truthy (m_participants m)))
    /\ m_google_event_id m' = Some gid
    /\ m_id m' = (if otruthy (m_id m) then m_id m else Some gid).
Proof.
  intros Hdate Hvalid Htime Hrange Hconv (Hid & Hsum & _ & Hstart & Hatt & Hpriv).
  unfold _convert_to_google_event in Hconv.
  rewrite Hdate, Htime, (combine_formatted _ _ _ Hvalid Hrange) in Hconv.
  destruct (add_minutes _ 60) as [fin|]; [|discriminate Hconv].
  rewrite partition_participants_spec in Hconv.
  injection Hconv as <-. cbn [g_summary g_start g_attendees g_private] in *.
  unfold _convert_from_google_event.
  rewrite Hstart, Hsum, Hpriv, Hid. cbn [et_dateTime].
  fold (utc_stamp (year parsed_date) (month parsed_date) (day parsed_date)
                  hour minute).
  rewrite utc_stamp_truthy, utc_stamp_has_T, utc_stamp_no_Z. cbn [negb].
  rewrite (fromisoformat_utc_stamp _ _ _ _ _ Hvalid Hrange).
  eexists. split; [reflexivity|].
  cbn [m_title m_date m_time m_participants m_google_event_id m_id].
  split; [reflexivity|]. split; [rewrite Hdate; reflexivity|].
  split; [rewrite Htime; reflexivity|]. split; [|split; reflexivity].
  rewrite Hatt.
  set (emails := map strip (filter is_email (filter truthy (m_participants m)))).
  assert (Hl : match
                 match map email_attendee emails with
                 | [] => None
                 | _ :: _ => Some (map email_attendee emails)
                 end
               with
               | Some l => l
               | None => []
               end = map email_attendee emails).
  { destruct (map email_attendee emails); reflexivity. }
  rewrite Hl, attendee_names. unfold emails. rewrite map_map. reflexivity.
Qed.

Ltac created_step :=
  first
    [ apply returns_raise
    | apply returns_ret;
      first
        [ intros Hs; discriminate Hs
        | intros _; eexists; split; [reflexivity|];
          match goal with
          | Hd : parse_date _ = Some ?pd, Ht : parse_time _ = Some _ |- _ =>
              let h := fresh "h" in
              let mi := fresh "mi" in
              let Hr := fresh "Hr" in
              destruct (parse_time_hhmm _ _ Ht) as (h & mi & Hr & ->);
              exists pd, h, mi; repeat split; auto
          end ]
    | apply returns_bind; intros ?
    | match goal with
      | |- returns _ _ (if ?b then _ else _) => destruct b eqn:?
      | |- returns _ _ (match ?x with _ => _ end) => destruct x eqn:?
      end ].

Lemma schedule_meeting_created (E : Env) (svc : Service) (cfg : Config)
      title date time participants description :
  returns E
    (fun r => success r = true ->
              exists m, meeting r = Some m
                        /\ created_from title date time description participants m)
    (schedule_meeting E svc cfg title date time participants description).
Proof.
  unfold schedule_meeting.
  apply returns_try; [|intros e; apply returns_ret; intros Hs; discriminate Hs].
  repeat created_step.
Qed.

Lemma in_convert_all (items : list GEvent) (ev : GEvent) (m : Meeting) :
  In ev items -> _convert_from_google_event ev = Some m -> In m (convert_all items).
Proof.
  intros Hin Hc. induction items as [|x items IH]; [contradiction|].
  simpl. destruct Hin as [->|Hin].
  - rewrite Hc. left. reflexivity.
  - destruct (_convert_from_google_event x); [right|]; auto.
Qed.

Lemma get_meeting_details_lookup (E : Env) (svc : Service) (lookup : pystr)
      (s : state E) (current time_max : datetime) (w0 w : world E)
      (items : list GEvent) (m : Meeting) :
  is_enabled svc = true ->
  env_now E (st_world s) = (current, w0) ->
  add_days current 30 = Some time_max ->
  list_request E svc current time_max (mkState w0 (st_trace s)) = (inr items, w) ->
  In m (convert_all items) ->
  (truthy lookup = true -> matches_id lookup m = true) ->
  exists r s' l,
    get_meeting_details E svc None None None (Some lookup) s = (inr r, s')
    /\ success r = true /\ meetings r = Some l /\ In m l.
Proof.
  intros Hen Hnow Hmax Hlist Hin Hid.
  unfold get_meeting_details, try_except, bind, now, lift_world, expect.
  cbn [otruthy]. rewrite Hnow, Hmax. unfold ret at 1. unfold query_range, bind.
  rewrite (get_events_items _ _ _ _ _ _ _ Hen Hlist).
  destruct (convert_all items) as [|x l] eqn:Hl; [contradiction|].
  cbn [filter_if]. eexists. eexists. eexists.
  split; [reflexivity|]. split; [reflexivity|]. split; [reflexivity|].
  destruct (truthy lookup); [|exact Hin].
  apply filter_In. split; [exact Hin|]. apply Hid. reflexivity.
Qed.

Lemma filter_truthy_kept (l : list pystr) :
  filter truthy (filter (fun p => truthy p && truthy (strip p)) l)
  = filter (fun p => truthy p && truthy (strip p)) l.
Proof.
  induction l as [|p l IH]; simpl; [reflexivity|].
  destruct (truthy p) eqn:Hp; simpl; [|exact IH].
  destruct (truthy (strip p)); simpl; [|exact IH].
  rewrite Hp, IH. reflexivity.
Qed.

(** C1 as the code has it.  Let [schedule_meeting] succeed with meeting
    [m], and let a later [get_meeting_details(meeting_id=...)], asked for
    the remote id or for the local id of [m], be answered by a provider
    whose listing of the next 30 days contains the created event as the
    adapter wrote it.  Then the query succeeds and its meetings contain one
    with the supplied title, with the date and time of [m], which are the
    supplied date and time normalised to YYYY-MM-DD and HH:MM, and whose
    participants are the local parts (the text before the first [@]) of
    the supplied entries that contain [@] and [.], in order. *)
Theorem schedule_then_get_round_trip
        (E : Env) (svc : Service) (cfg : Config)
        (title date time description : pystr) (participants : option (list pystr))
        (s s1 s2 : state E) (r : Result)
        (current time_max : datetime) (w0 w : world E) (items : list GEvent) :
  schedule_meeting E svc cfg title date time participants description s
  = (inr r, s1) ->
  success r = true ->
  is_enabled svc = true ->
  env_now E (st_world s2) = (current, w0) ->
  add_days current 30 = Some time_max ->
  list_request E svc current time_max (mkState w0 (st_trace s2)) = (inr items, w) ->
  (forall m gid,
      meeting r = Some m -> m_google_event_id m = Some gid ->
      exists body ev,
        _convert_to_google_event svc m = inr body
        /\ In ev items /\ echoes body ev gid) ->
  exists m gid parsed_date parsed_time,
    meeting r = Some m
    /\ m_google_event_id m = Some gid
    /\ parse_date date = Some parsed_date
    /\ m_date m = strftime parsed_date (lit "%Y-%m-%d")
    /\ parse_time time = Some parsed_time
    /\ m_time m = parsed_time
    /\ forall lookup,
         lookup = gid \/ m_id m = Some lookup ->
         exists r2 s3 found m',
           get_meeting_details E svc None None None (Some lookup) s2 = (inr r2, s3)
           /\ success r2 = true
           /\ meetings r2 = Some found
           /\ In m' found
           /\ m_title m' = title
           /\ m_date m' = m_date m
           /\ m_time m' = m_time m
           /\ m_participants m'
              = map local_part
                    (filter is_email
                       (filter (fun p => truthy p && truthy (strip p))
                               (match participants with Some l => l | None => [] end))).
Proof.
  intros Hrun Hok Hen Hnow Hmax Hlist Hecho.
  destruct (schedule_meeting_created E svc cfg title date time participants
              description s r s1 Hrun Hok)
    as (m & Hm & pd & h & mi & Hpd & Hpt & Hrange & Ht & Hd & Hti & Hps & _ & Hg).
  destruct (m_google_event_id m) as [gid|] eqn:Hgid; [|discriminate Hg].
  destruct (Hecho m gid Hm Hgid) as (body & ev & Hconv & Hin & Hev).
  destruct (read_back svc m body ev gid pd h mi Hd (parse_date_valid _ _ Hpd)
              Hti Hrange Hconv Hev)
    as (m' & Hfrom & Ht' & Hd' & Hti' & Hps' & Hg' & Hid').
  exists m, gid, pd, (hhmm h mi).
  repeat (split; [assumption|]).
  intros lookup Hlookup.
  assert (Hmatch : truthy lookup = true -> matches_id lookup m' = true).
  { intros Htruthy. unfold matches_id. rewrite Hg', Hid'.
    apply orb_true_iff. destruct Hlookup as [->|Hl].
    - left. apply opt_eqb_eq. reflexivity.
    - right. rewrite Hl. unfold otruthy. rewrite Htruthy.
      apply opt_eqb_eq. reflexivity. }
  destruct (get_meeting_details_lookup E svc lookup s2 current time_max w0 w items m'
              Hen Hnow Hmax Hlist (in_convert_all _ _ _ Hin Hfrom) Hmatch)
    as (r2 & s3 & found & Hget & Hs2 & Hfound & Hin').
  exists r2, s3, found, m'.
  repeat (split; [assumption|]).
  split; [congruence|]. split; [exact Hd'|]. split; [exact Hti'|].
  rewrite Hps', Hps, filter_truthy_kept. reflexivity.
Qed.

(** The meeting scheduled on the example calendar is found again under its
    remote id, with its title and with "alice" for alice@example.com. *)
Lemma schedule_then_get_round_trip_witness :
  exists r2 s3 found m',
    get_meeting_details MemoryCalendar.env MemoryCalendar.service
      None None None (Some (lit "evt2")) MemoryCalendar.after_standup
    = (inr r2, s3)
    /\ meetings r2 = Some found
    /\ In m' found
    /\ m_title m' = lit "Standup"
    /\ m_participants m' = [lit "alice"].
Proof.
  destruct (schedule_then_get_round_trip
              MemoryCalendar.env MemoryCalendar.service GOOGLE_CALENDAR_CONFIG
              (lit "Standup") (lit "2025-06-10") (lit "14:00") []
              (Some [lit "alice@example.com"; lit "Bob"])
              MemoryCalendar.empty MemoryCalendar.after_standup
              MemoryCalendar.after_standup MemoryCalendar.standup_result
              (mkdt 2025 6 1 9 0 0 0) (mkdt 2025 7 1 9 0 0 0)
              (st_world MemoryCalendar.after_standup)
              (st_world MemoryCalendar.after_standup)
              (MemoryCalendar.mem_events (st_world MemoryCalendar.after_standup)))
    as (m & gid & pd & pt & Hm & Hg & _ & _ & _ & _ & Hall).
  - vm_compute. reflexivity.
  - vm_compute. reflexivity.
  - reflexivity.
  - vm_compute. reflexivity.
  - vm_compute. reflexivity.
  - vm_compute. reflexivity.
  - intros m gid Hm Hg. vm_compute in Hm. injection Hm as <-.
    vm_compute in Hg. injection Hg as <-.
    eexists. eexists. split; [vm_compute; reflexivity|].
    split; [vm_compute; left; reflexivity|].
    repeat split.
  - vm_compute in Hm. injection Hm as <-. vm_compute in Hg. injection Hg as <-.
    destruct (Hall (lit "evt2") (or_introl eq_refl))
      as (r2 & s3 & found & m' & Hget & _ & Hfound & Hin & Ht & _ & _ & Hp).
    exists r2, s3, found, m'. repeat split; assumption.
Defined.

(** C1 as stated fails on the participants, and on date and time texts
    that are not yet normal: on a provider that echoes every event,
    alice@example.com is read back as "alice", and a meeting scheduled
    for "10/06/2025" at "2pm" is read back with date "2025-06-10" and time
    "14:00". *)
Lemma round_trip_counterexample :
  (exists r s1 r2 s2 m',
      schedule_meeting MemoryCalendar.env MemoryCalendar.service
        GOOGLE_CALENDAR_CONFIG (lit "Standup") (lit "2025-06-10") (lit "14:00")
        (Some [lit "alice@example.com"; lit "Bob"]) [] MemoryCalendar.empty
      = (inr r, s1)
      /\ success r = true
      /\ get_meeting_details MemoryCalendar.env MemoryCalendar.service
           None None None (Some (lit "evt2")) s1 = (inr r2, s2)
      /\ meetings r2 = Some [m']
      /\ is_email (lit "alice@example.com") = true
      /\ m_participants m' = [lit "alice"]
      /\ ~ In (lit "alice@example.com") (m_participants m'))
  /\ (exists r s1 r2 s2 m',
        schedule_meeting MemoryCalendar.env MemoryCalendar.service
          GOOGLE_CALENDAR_CONFIG (lit "Standup") (lit "10/06/2025") (lit "2pm")
          None [] MemoryCalendar.empty
        = (inr r, s1)
        /\ success r = true
        /\ get_meeting_details MemoryCalendar.env MemoryCalendar.service
             None None None (Some (lit "evt2")) s1 = (inr r2, s2)
        /\ meetings r2 = Some [m']
        /\ m_date m' = lit "2025-06-10" /\ m_date m' <> lit "10/06/2025"
        /\ m_time m' = lit "14:00" /\ m_time m' <> lit "2pm").
Proof.
  split.
  - do 5 eexists.
    split; [vm_compute; reflexivity|]. split; [reflexivity|].
    split; [vm_compute; reflexivity|]. split; [reflexivity|].
    split; [reflexivity|]. split; [reflexivity|].
    intros [H|[]]. discriminate H.
  - do 5 eexists.
    split; [vm_compute; reflexivity|]. split; [reflexivity|].
    split; [vm_compute; reflexivity|]. split; [reflexivity|].
    split; [reflexivity|]. split; [discriminate|].
    split; [reflexivity|discriminate].
Qed.

(** ** What the matcher accepts *)

Lemma star_k_sound {A} (cl : cls) (s : pystr) (k : pystr -> option A) (res : A) :
  star_k cl s k = Some res ->
  exists p rest,
    s = p ++ rest /\ Forall (fun a => cls_mem cl a = true) p /\ k rest = Some res.
Proof.
  induction s as [|a s IH]; simpl.
  - intros H. exists [], []. auto.
  - destruct (cls_mem cl a) eqn:Ha.
    + destruct (star_k cl s k) as [x|] eqn:Hs.
      * intros [= <-]. destruct (IH eq_refl) as (p & rest & -> & Hp & Hk).
        exists (a :: p), rest. auto.
      * intros H. exists [], (a :: s). auto.
    + intros H. exists [], (a :: s). auto.
Qed.

Lemma matchk_sound {A} (r : re) :
  forall (s : pystr) (caps : captures) (k : pystr -> captures -> option A) (res : A),
    matchk r s caps k = Some res ->
    exists p rest caps',
      s = p ++ rest /\ Matches r p caps caps' /\ k rest caps' = Some res.
Proof.
  induction r as [|cl|r1 IH1 r2 IH2|r1 IH1 r2 IH2|cl|name r IH];
    intros s caps k res H; simpl in H.
  - exists [], s, caps. split; [reflexivity|]. split; [constructor|exact H].
  - destruct s as [|a s]; [discriminate H|].
    destruct (cls_mem cl a) eqn:Ha; [|discriminate H].
    exists [a], s, caps. split; [reflexivity|]. split; [constructor; exact Ha|exact H].
  - apply IH1 in H. destruct H as (p1 & rest1 & c1 & -> & H1 & H).
    apply IH2 in H. destruct H as (p2 & rest & c2 & -> & H2 & H).
    exists (p1 ++ p2), rest, c2. split; [apply app_assoc|].
    split; [econstructor; eassumption|exact H].
  - destruct (matchk r1 s caps k) as [x|] eqn:H1.
    + injection H as ->. apply IH1 in H1.
      destruct H1 as (p & rest & c' & -> & Hm & Hk).
      exists p, rest, c'. split; [reflexivity|]. split; [apply MAltL, Hm|exact Hk].
    + apply IH2 in H. destruct H as (p & rest & c' & -> & Hm & Hk).
      exists p, rest, c'. split; [reflexivity|]. split; [apply MAltR, Hm|exact Hk].
  - apply star_k_sound in H. destruct H as (p & rest & -> & Hp & Hk).
    exists p, rest, caps. split; [reflexivity|]. split; [constructor; exact Hp|exact Hk].
  - apply IH in H. destruct H as (p & rest & c' & -> & Hm & Hk).
    rewrite firstn_consumed in Hk.
    exists p, rest, ((name, p) :: c'). split; [reflexivity|].
    split; [constructor; exact Hm|exact Hk].
Qed.

Lemma star_k_complete {A} (cl : cls) (p rest : pystr) (k : pystr -> option A)
      (res : A) :
  Forall (fun a => cls_mem cl a = true) p ->
  k rest = Some res ->
  exists res', star_k cl (p ++ rest) k = Some res'.
Proof.
  intros Hp Hk. induction Hp as [|a p Ha _ IH]; simpl.
  - destruct rest as [|b rest]; simpl; [eauto|].
    destruct (cls_mem cl b); [|eauto].
    destruct (star_k cl rest k); eauto.
  - rewrite Ha. destruct IH as (res' & ->). eauto.
Qed.

Lemma matchk_complete (r : re) (p : pystr) (caps caps' : captures) :
  Matches r p caps caps' ->
  forall (A : Type) (rest : pystr) (k : pystr -> captures -> option A) (res : A),
    k rest caps' = Some res ->
    exists res', matchk r (p ++ rest) caps k = Some res'.
Proof.
  induction 1 as [c|cl a c Ha|r1 r2 p1 p2 c c1 c2 _ IH1 _ IH2
                  |r1 r2 p c c' _ IH|r1 r2 p c c' _ IH|cl p c Hp
                  |name r p c c' _ IH];
    intros A rest k res Hk; simpl.
  - eauto.
  - rewrite Ha. eauto.
  - rewrite <- app_assoc.
    destruct (IH2 A rest k res Hk) as (res2 & H2).
    apply (IH1 A (p2 ++ rest) (fun s' c' => matchk r2 s' c' k) res2 H2).
  - destruct (IH A rest k res Hk) as (res' & ->). eauto.
  - destruct (matchk r1 (p ++ rest) c k); [eauto|].
    apply (IH A rest k res Hk).
  - apply (star_k_complete cl p rest (fun s' => k s' c) res Hp Hk).
  - apply (IH A rest
              (fun s' c'0 =>
                 k s' ((name, firstn (List.length (p ++ rest) - List.length s')
                                     (p ++ rest)) :: c'0)) res).
    rewrite firstn_consumed. exact Hk.
Qed.

(** ** The shapes [parse_time] accepts *)

Ltac invert_matches :=
  repeat match goal with
         | H : Matches Eps _ _ _ |- _ => inversion H; subst; clear H
         | H : Matches (Cls _) _ _ _ |- _ => inversion H; subst; clear H
         | H : Matches (Seq _ _) _ _ _ |- _ => inversion H; subst; clear H
         | H : Matches (Alt _ _) _ _ _ |- _ => inversion H; subst; clear H
         | H : Matches (Star _) _ _ _ |- _ => inversion H; subst; clear H
         | H : Matches (Grp _ _) _ _ _ |- _ => inversion H; subst; clear H
         end.

Lemma matches_24h (p : pystr) (c c' : captures) :
  Matches re_24h p c c' <->
  exists h m, p = h ++ lit ":" ++ m /\ hour_digits h /\ two_digit_string m /\ c' = c.
Proof.
  unfold re_24h, Opt, dg, hour_digits, two_digit_string, digit_string. split.
  - intros H. invert_matches; cbn [cls_mem] in *;
      repeat match goal with
             | H : Ascii.eqb _ _ = true |- _ => apply Ascii.eqb_eq in H; subst
             end;
      match goal with
      | |- exists h m, ?x ++ ?y ++ ?z ++ ?w = _ /\ _ => exists (x ++ y), w
      end;
      cbn [app List.length]; repeat split; auto.
  - intros (h & m & -> & (Hh & Hlen) & (Hm & Hlm) & ->).
    destruct m as [|m1 [|m2 [|? ?]]]; try discriminate Hlm.
    inversion Hm as [|? ? Hm1 Hm']; subst. inversion Hm' as [|? ? Hm2 _]; subst.
    destruct Hlen as [Hlen|Hlen].
    + destruct h as [|h1 [|? ?]]; try discriminate Hlen.
      inversion Hh as [|? ? Hh1 _]; subst.
      apply (MSeq _ _ [h1] _ c c c); [constructor; exact Hh1|].
      apply (MSeq _ _ [] _ c c c); [apply MAltR; constructor|].
      apply (MSeq _ _ [":"%char] _ c c c); [constructor; reflexivity|].
      apply (MSeq _ _ [m1] [m2] c c c); constructor; assumption.
    + destruct h as [|h1 [|h2 [|? ?]]]; try discriminate Hlen.
      inversion Hh as [|? ? Hh1 Hh']; subst. inversion Hh' as [|? ? Hh2 _]; subst.
      apply (MSeq _ _ [h1] _ c c c); [constructor; exact Hh1|].
      apply (MSeq _ _ [h2] _ c c c); [apply MAltL; constructor; exact Hh2|].
      apply (MSeq _ _ [":"%char] _ c c c); [constructor; reflexivity|].
      apply (MSeq _ _ [m1] [m2] c c c); constructor; assumption.
Qed.

Lemma matches_hour_group (h : pystr) (c : captures) :
  hour_digits h ->
  Matches (Grp "1" (Seq dg (Opt dg))) h c (("1"%string, h) :: c).
Proof.
  intros (Hh & Hlen). constructor. unfold dg, Opt.
  destruct Hlen as [Hlen|Hlen].
  - destruct h as [|h1 [|? ?]]; try discriminate Hlen.
    inversion Hh as [|? ? Hh1 _]; subst.
    apply (MSeq _ _ [h1] [] c c c); [constructor; exact Hh1|apply MAltR; constructor].
  - destruct h as [|h1 [|h2 [|? ?]]]; try discriminate Hlen.
    inversion Hh as [|? ? Hh1 Hh']; subst. inversion Hh' as [|? ? Hh2 _]; subst.
    apply (MSeq _ _ [h1] [h2] c c c);
      [constructor; exact Hh1|apply MAltL; constructor; exact Hh2].
Qed.

Lemma matches_minute_group (m : pystr) (c : captures) :
  optional_minutes m ->
  Matches (Opt (Grp "2" (Seq dg dg))) m c (minute_group m ++ c).
Proof.
  intros [->|(Hm & Hlen)]; unfold Opt, dg.
  - apply MAltR. constructor.
  - destruct m as [|m1 [|m2 [|? ?]]]; try discriminate Hlen.
    inversion Hm as [|? ? Hm1 Hm']; subst. inversion Hm' as [|? ? Hm2 _]; subst.
    apply MAltL. cbn [minute_group app]. constructor.
    apply (MSeq _ _ [m1] [m2] c c c); constructor; assumption.
Qed.

Lemma matches_suffix_group (suffix : pystr) (c : captures) :
  In suffix suffixes ->
  Matches (Grp "3" (Alt (Lit (lit "AM")) (Alt (Lit (lit "PM"))
                   (Alt (Lit (lit "am")) (Lit (lit "pm"))))))
          suffix c (("3"%string, suffix) :: c).
Proof.
  assert (Hlit : forall a b, Matches (Lit [a; b]) [a; b] c c).
  { intros a b. cbn [Lit].
    apply (MSeq _ _ [a] [b] c c c); [constructor; apply Ascii.eqb_refl|].
    apply (MSeq _ _ [b] [] c c c); [constructor; apply Ascii.eqb_refl|constructor]. }
  intros [<-|[<-|[<-|[<-|[]]]]]; constructor.
  - apply MAltL, Hlit.
  - apply MAltR, MAltL, Hlit.
  - apply MAltR, MAltR, MAltL, Hlit.
  - apply MAltR, MAltR, MAltR, Hlit.
Qed.

Lemma matches_12h (p : pystr) (c' : captures) :
  Matches re_12h p [] c' <->
  exists h colon m ws suffix,
    p = h ++ colon ++ m ++ ws ++ suffix
    /\ hour_digits h
    /\ (colon = [] \/ colon = lit ":")
    /\ optional_minutes m
    /\ space_string ws
    /\ In suffix suffixes
    /\ c' = ("3"%string, suffix) :: minute_group m ++ [("1"%string, h)].
Proof.
  split.
  - unfold re_12h, Opt, dg. cbn [Lit lit list_ascii_of_string].
    intros H. invert_matches; cbn [cls_mem] in *;
      repeat match goal with
             | H : Ascii.eqb _ _ = true |- _ => apply Ascii.eqb_eq in H; subst
             end;
      match goal with
      | |- exists h colon m ws suffix, ?x ++ ?y ++ ?z ++ ?w ++ ?v = _ /\ _ =>
          exists x, y, z, w, v
      end;
      unfold hour_digits, optional_minutes, two_digit_string, digit_string,
        space_string, suffixes;
      cbn [app List.length minute_group lit list_ascii_of_string In];
      repeat split; auto 10.
  - intros (h & colon & m & ws & suffix & -> & Hh & Hc & Hm & Hws & Hs & ->).
    unfold re_12h.
    eapply MSeq; [apply matches_hour_group, Hh|].
    eapply MSeq.
    { destruct Hc as [->| ->]; unfold Opt;
        [apply MAltR; constructor|apply MAltL; constructor; reflexivity]. }
    eapply MSeq; [apply matches_minute_group, Hm|].
    eapply MSeq; [constructor; exact Hws|].
    apply matches_suffix_group, Hs.
Qed.

(** The specification's reading of the two accepted shapes. *)

Lemma digit_not_space (a : ascii) : is_digit a = true -> is_space a = false.
Proof.
  unfold is_digit, is_space. intros H.
  apply andb_true_iff in H. destruct H as [H1 H2].
  apply Z.leb_le in H1. apply Z.leb_le in H2.
  repeat (apply orb_false_iff; split);
    try (apply andb_false_iff; right; apply Z.leb_gt; lia);
    apply Z.eqb_neq; lia.
Qed.

Lemma py_int_digit_string (s : pystr) :
  digit_string s -> s <> [] -> py_int s = Some (digits_value s).
Proof.
  intros Hs Hne. unfold py_int. rewrite strip_solid.
  - destruct s as [|a s]; [contradiction|].
    assert (Hall : forallb is_digit (a :: s) = true).
    { apply forallb_forall. apply Forall_forall. exact Hs. }
    rewrite Hall. reflexivity.
  - intros c Hc. apply digit_not_space.
    unfold digit_string in Hs. rewrite Forall_forall in Hs. auto.
Qed.

Lemma split_digits (m : pystr) : digit_string m -> split ":" m = [m].
Proof.
  induction 1 as [|a m Ha _ IH]; simpl; [reflexivity|].
  destruct (Ascii.eqb a ":") eqn:Heq.
  - apply Ascii.eqb_eq in Heq. subst. discriminate Ha.
  - rewrite IH. reflexivity.
Qed.

Lemma split_at_colon (h m : pystr) :
  digit_string h -> digit_string m -> split ":" (h ++ lit ":" ++ m) = [h; m].
Proof.
  intros Hh Hm. induction Hh as [|a h Ha _ IH]; simpl.
  - rewrite (split_digits m Hm). reflexivity.
  - destruct (Ascii.eqb a ":") eqn:Heq.
    + apply Ascii.eqb_eq in Heq. subst. discriminate Ha.
    + simpl in IH. rewrite IH. reflexivity.
Qed.

(** On stripped text [$] can only mean the end. *)
Lemma at_end_stripped (s p rest : pystr) :
  strip s = p ++ rest -> at_end rest = true -> rest = [].
Proof.
  intros Hs He. destruct rest as [|a [|b rest]]; [reflexivity| |discriminate He].
  simpl in He. apply Ascii.eqb_eq in He. subst a.
  assert (Hne : strip s <> []) by (rewrite Hs; destruct p; discriminate).
  destruct (strip_ends_solid s Hne) as (t & c & Ht & Hc).
  rewrite Hs in Ht. apply app_inj_tail in Ht. destruct Ht as [_ <-].
  discriminate Hc.
Qed.

Lemma match_anchored_sound (r : re) (s : pystr) (c : captures) :
  match_anchored r (strip s) = Some c -> Matches r (strip s) [] c.
Proof.
  unfold match_anchored. intros H. apply matchk_sound in H.
  destruct H as (p & rest & c' & Hs & Hm & Hk).
  destruct (at_end rest) eqn:He; [|discriminate Hk]. injection Hk as ->.
  rewrite (at_end_stripped _ _ _ Hs He), app_nil_r in Hs. rewrite Hs. exact Hm.
Qed.

Lemma match_anchored_complete (r : re) (t : pystr) (c : captures) :
  Matches r t [] c -> exists c', match_anchored r t = Some c'.
Proof.
  intros Hm. unfold match_anchored. rewrite <- (app_nil_r t).
  apply (matchk_complete r t [] c Hm _ []
           (fun s' c0 => if at_end s' then Some c0 else None) c).
  reflexivity.
Qed.

Lemma span_digits_app (ds rest : pystr) :
  digit_string ds -> starts_solid rest -> span_digits (ds ++ rest) = (ds, rest).
Proof.
  intros Hd Hr. induction Hd as [|a ds Ha _ IH]; simpl.
  - destruct rest as [|b rest]; [reflexivity|]. simpl in *. rewrite Hr. reflexivity.
  - rewrite Ha, IH. reflexivity.
Qed.

Lemma app_same_length {A} (a a' b b' : list A) :
  List.length a = List.length a' -> a ++ b = a' ++ b' -> a = a' /\ b = b'.
Proof.
  revert a'. induction a as [|x a IH]; intros [|x' a'] Hlen Heq;
    try discriminate Hlen; simpl in *.
  - auto.
  - injection Heq as -> Heq. injection Hlen as Hlen.
    destruct (IH a' Hlen Heq) as [-> ->]. auto.
Qed.

Lemma app_same_tail_length {A} (a a' b b' : list A) :
  List.length b = List.length b' -> a ++ b = a' ++ b' -> a = a' /\ b = b'.
Proof.
  intros Hlen Heq. apply app_same_length; [|exact Heq].
  apply (f_equal (@List.length A)) in Heq. rewrite !length_app in Heq. lia.
Qed.

Lemma suffix_length (suffix : pystr) :
  In suffix suffixes -> List.length suffix = 2%nat.
Proof. intros [<-|[<-|[<-|[<-|[]]]]]; reflexivity. Qed.

Lemma optional_minutes_digits (m : pystr) : optional_minutes m -> digit_string m.
Proof. intros [->|[H _]]; [constructor|exact H]. Qed.

(** After the digits comes white space or a suffix: never a digit, never
    a colon. *)
Lemma tail_head (ws suffix : pystr) :
  space_string ws -> In suffix suffixes ->
  exists a t, ws ++ suffix = a :: t /\ is_digit a = false /\ a <> ":"%char.
Proof.
  intros Hws Hs. destruct Hws as [|a ws Ha _].
  - destruct Hs as [<-|[<-|[<-|[<-|[]]]]]; eexists; eexists;
      (split; [reflexivity|split; [reflexivity|discriminate]]).
  - exists a, (ws ++ suffix). split; [reflexivity|]. split.
    + destruct (is_digit a) eqn:Hd; [|reflexivity].
      apply digit_not_space in Hd. congruence.
    + intros ->. discriminate Ha.
Qed.

Lemma tail_starts_solid (ws suffix : pystr) :
  space_string ws -> In suffix suffixes -> starts_solid (ws ++ suffix).
Proof.
  intros Hws Hs. destruct (tail_head ws suffix Hws Hs) as (a & t & -> & Ha & _).
  exact Ha.
Qed.

Lemma hour_minutes_unique (h h' m m' : pystr) :
  hour_digits h -> hour_digits h' -> optional_minutes m -> optional_minutes m' ->
  h ++ m = h' ++ m' -> h = h' /\ m = m'.
Proof.
  intros (_ & Hh) (_ & Hh') Hm Hm' Heq. apply app_same_length; [|exact Heq].
  apply (f_equal (@List.length ascii)) in Heq. rewrite !length_app in Heq.
  assert (Lm : (List.length m = 0 \/ List.length m = 2)%nat).
  { destruct Hm as [->|[_ H]]; auto. }
  assert (Lm' : (List.length m' = 0 \/ List.length m' = 2)%nat).
  { destruct Hm' as [->|[_ H]]; auto. }
  lia.
Qed.

(** A text has at most one reading as a 12-hour form. *)
Lemma form_12h_unique (h h' colon colon' m m' ws ws' suffix suffix' : pystr) :
  h ++ colon ++ m ++ ws ++ suffix = h' ++ colon' ++ m' ++ ws' ++ suffix' ->
  hour_digits h -> hour_digits h' ->
  (colon = [] \/ colon = lit ":") -> (colon' = [] \/ colon' = lit ":") ->
  optional_minutes m -> optional_minutes m' ->
  space_string ws -> space_string ws' ->
  In suffix suffixes -> In suffix' suffixes ->
  h = h' /\ m = m' /\ suffix = suffix'.
Proof.
  intros Heq Hh Hh' Hc Hc' Hm Hm' Hws Hws' Hs Hs'.
  assert (Htail : forall x x', x ++ ws ++ suffix = x' ++ ws' ++ suffix' ->
                               digit_string x -> digit_string x' ->
                               x = x' /\ suffix = suffix').
  { intros x x' Hx Dx Dx'.
    pose proof (span_digits_app x _ Dx (tail_starts_solid _ _ Hws Hs)) as S1.
    pose proof (span_digits_app x' _ Dx' (tail_starts_solid _ _ Hws' Hs')) as S2.
    rewrite Hx, S2 in S1. injection S1 as <- Ht. split; [reflexivity|].
    apply app_same_tail_length in Ht; [destruct Ht; congruence|].
    rewrite !suffix_length; auto. }
  assert (Hcolon : forall x y ws0 s0,
             digit_string x -> space_string ws0 -> In s0 suffixes ->
             forall z, x ++ ws0 ++ s0 <> z ++ ":"%char :: y \/ ~ digit_string z).
  { intros x y ws0 s0 Dx Hw0 Hs0 z.
    destruct (Forall_dec (fun a => is_digit a = true)
                (fun a => bool_dec (is_digit a) true) z) as [Dz|Nz]; [left|right; exact Nz].
    intros Hx.
    pose proof (span_digits_app x _ Dx (tail_starts_solid _ _ Hw0 Hs0)) as S1.
    pose proof (span_digits_app z (":"%char :: y) Dz eq_refl) as S2.
    rewrite Hx, S2 in S1. injection S1 as _ Ht.
    destruct (tail_head ws0 s0 Hw0 Hs0) as (a & t & Hat & _ & Hne).
    rewrite Hat in Ht. injection Ht as Ht _. congruence. }
  destruct Hh as [Dh Lh], Hh' as [Dh' Lh'].
  pose proof (optional_minutes_digits _ Hm) as Dm.
  pose proof (optional_minutes_digits _ Hm') as Dm'.
  destruct Hc as [->| ->], Hc' as [->| ->]; cbn [app lit list_ascii_of_string] in Heq.
  - rewrite (app_assoc h m), (app_assoc h' m') in Heq.
    destruct (Htail (h ++ m) (h' ++ m') Heq) as [Hx Hsuf];
      try (apply Forall_app; split; assumption).
    destruct (hour_minutes_unique h h' m m' (conj Dh Lh) (conj Dh' Lh') Hm Hm' Hx).
    auto.
  - exfalso.
    rewrite (app_assoc h m) in Heq.
    destruct (Hcolon (h ++ m) (m' ++ ws' ++ suffix') ws suffix
                     (proj2 (Forall_app _ _ _) (conj Dh Dm)) Hws Hs h') as [H|H].
    + apply H. exact Heq.
    + apply H. exact Dh'.
  - exfalso.
    rewrite (app_assoc h' m') in Heq.
    destruct (Hcolon (h' ++ m') (m ++ ws ++ suffix) ws' suffix'
                     (proj2 (Forall_app _ _ _) (conj Dh' Dm')) Hws' Hs' h) as [H|H].
    + apply H. symmetry. exact Heq.
    + apply H. exact Dh.
  - pose proof (span_digits_app h (":"%char :: m ++ ws ++ suffix) Dh eq_refl) as S1.
    pose proof (span_digits_app h' (":"%char :: m' ++ ws' ++ suffix') Dh' eq_refl) as S2.
    rewrite Heq, S2 in S1. injection S1 as <- Ht.
    destruct (Htail m m' (eq_sym Ht) Dm Dm') as [-> ->]. auto.
Qed.

Lemma hour_digits_nonempty (h : pystr) : hour_digits h -> h <> [].
Proof. intros [_ [H|H]] ->; discriminate H. Qed.

Lemma two_digit_nonempty (m : pystr) : two_digit_string m -> m <> [].
Proof. intros [_ H] ->; discriminate H. Qed.

(** What the 24-hour branch does with a text of the 24-hour shape. *)
Lemma parse_time_24h_run (t h m : pystr) (c : captures) :
  match_anchored re_24h t = Some c ->
  t = h ++ lit ":" ++ m -> hour_digits h -> two_digit_string m ->
  parse_time_24h t
  = if in_range (digits_value h) (digits_value m)
    then Some (hhmm (digits_value h) (digits_value m)) else None.
Proof.
  intros Hmatch -> Hh Hm. unfold parse_time_24h. rewrite Hmatch.
  rewrite (split_at_colon h m (proj1 Hh) (proj1 Hm)). cbn [nth_error].
  rewrite (py_int_digit_string h (proj1 Hh) (hour_digits_nonempty h Hh)).
  rewrite (py_int_digit_string m (proj1 Hm) (two_digit_nonempty m Hm)).
  reflexivity.
Qed.

Lemma form_24h_parts_unique (h h' m m' : pystr) :
  h ++ lit ":" ++ m = h' ++ lit ":" ++ m' ->
  two_digit_string m -> two_digit_string m' -> h = h' /\ m = m'.
Proof.
  intros Heq [_ Lm] [_ Lm'].
  assert (H : h ++ [":"%char] = h' ++ [":"%char] /\ m = m').
  { apply app_same_tail_length; [congruence|].
    rewrite <- !app_assoc. exact Heq. }
  destruct H as [H ->]. apply app_inj_tail in H. tauto.
Qed.

(** The source's adjustment of the hour is the civil one. *)
Lemma source_hour_is_civil (hour : Z) (suffix : pystr) :
  In suffix suffixes ->
  (if str_eqb (upper suffix) (lit "PM") && negb (hour =? 12) then hour + 12
   else if str_eqb (upper suffix) (lit "AM") && (hour =? 12) then 0
   else hour)
  = civil_hour hour (upper suffix).
Proof.
  unfold civil_hour.
  intros [<-|[<-|[<-|[<-|[]]]]]; destruct (hour =? 12) eqn:E;
    try (apply Z.eqb_eq in E; subst hour); reflexivity.
Qed.

Lemma group_12h (h m suffix : pystr) :
  let c := ("3"%string, suffix) :: minute_group m ++ [("1"%string, h)] in
  group "1" c = Some h
  /\ group "3" c = Some suffix
  /\ group "2" c = match m with [] => None | _ => Some m end.
Proof. destruct m; repeat split. Qed.

(** What the 12-hour branch does with a text of the 12-hour shape. *)
Lemma parse_time_12h_run (t h m suffix : pystr) :
  match_anchored re_12h t
  = Some (("3"%string, suffix) :: minute_group m ++ [("1"%string, h)]) ->
  hour_digits h -> optional_minutes m -> In suffix suffixes ->
  parse_time_12h t
  = if in_range (civil_hour (digits_value h) (upper suffix)) (digits_value m)
    then Some (hhmm (civil_hour (digits_value h) (upper suffix)) (digits_value m))
    else None.
Proof.
  intros Hmatch Hh Hm Hs. unfold parse_time_12h. rewrite Hmatch.
  destruct (group_12h h m suffix) as (-> & -> & ->).
  rewrite (py_int_digit_string h (proj1 Hh) (hour_digits_nonempty h Hh)).
  assert (Hmin : match m with
                 | [] => Some 0
                 | _ :: _ => py_int m
                 end = Some (digits_value m)).
  { destruct Hm as [->|Hm]; [reflexivity|].
    rewrite <- (py_int_digit_string m (proj1 Hm) (two_digit_nonempty m Hm)).
    destruct m; [destruct (two_digit_nonempty _ Hm eq_refl)|reflexivity]. }
  destruct m as [|m1 m]; [cbn [digits_value fold_left] in *|rewrite Hmin];
    rewrite (source_hour_is_civil _ _ Hs); reflexivity.
Qed.

(** A text of the 12-hour shape ends in a letter, one of the 24-hour shape
    in a digit. *)
Lemma forms_disjoint (h m h' colon m' ws suffix : pystr) :
  h ++ lit ":" ++ m = h' ++ colon ++ m' ++ ws ++ suffix ->
  two_digit_string m -> In suffix suffixes -> False.
Proof.
  intros Heq [Dm Lm] Hs.
  destruct m as [|m1 [|m2 [|? ?]]]; try discriminate Lm.
  assert (Hlast : exists x y, suffix = [x; y] /\ is_digit y = false).
  { destruct Hs as [<-|[<-|[<-|[<-|[]]]]]; eexists; eexists; split; reflexivity. }
  destruct Hlast as (x & y & -> & Hy).
  change (h ++ lit ":" ++ [m1; m2]) with (h ++ [":"%char; m1] ++ [m2]) in Heq.
  change (h' ++ colon ++ m' ++ ws ++ [x; y])
    with (h' ++ colon ++ m' ++ ws ++ [x] ++ [y]) in Heq.
  rewrite !app_assoc in Heq. apply app_inj_tail in Heq. destruct Heq as [_ ->].
  inversion Dm as [|? ? _ Dm']; subst. inversion Dm' as [|? ? Hd _]; subst.
  congruence.
Qed.

Lemma parse_time_24h_spec (s r : pystr) :
  parse_time_24h (strip s) = Some r <->
  exists hour minute,
    form_24h (strip s) hour minute
    /\ in_range hour minute = true /\ r = hhmm hour minute.
Proof.
  split.
  - intros H.
    destruct (match_anchored re_24h (strip s)) as [c|] eqn:Hmatch;
      [|unfold parse_time_24h in H; rewrite Hmatch in H; discriminate H].
    pose proof (match_anchored_sound _ _ _ Hmatch) as Hm.
    apply matches_24h in Hm. destruct Hm as (h & m & Ht & Hh & Hmm & _).
    rewrite (parse_time_24h_run _ h m c Hmatch Ht Hh Hmm) in H.
    destruct (in_range (digits_value h) (digits_value m)) eqn:Hr; [|discriminate H].
    injection H as <-.
    exists (digits_value h), (digits_value m).
    split; [|split; [exact Hr|reflexivity]].
    exists h, m. exact (conj Ht (conj Hh (conj Hmm (conj eq_refl eq_refl)))).
  - intros (hour & minute & (h & m & Ht & Hh & Hmm & -> & ->) & Hr & ->).
    assert (Hm : Matches re_24h (strip s) [] []).
    { apply matches_24h. exists h, m. exact (conj Ht (conj Hh (conj Hmm eq_refl))). }
    destruct (match_anchored_complete _ _ _ Hm) as (c & Hmatch).
    rewrite (parse_time_24h_run _ h m c Hmatch Ht Hh Hmm), Hr. reflexivity.
Qed.

Lemma parse_time_24h_none_on_12h (s : pystr) (hour minute : Z) (period : pystr) :
  form_12h (strip s) hour minute period -> parse_time_24h (strip s) = None.
Proof.
  intros (h & colon & m & ws & suffix & Ht & _ & _ & _ & _ & Hs & _).
  destruct (parse_time_24h (strip s)) as [r|] eqn:H; [|reflexivity].
  apply parse_time_24h_spec in H.
  destruct H as (? & ? & (h' & m' & Ht' & _ & Hm' & _) & _).
  rewrite Ht' in Ht. destruct (forms_disjoint _ _ _ _ _ _ _ Ht Hm' Hs).
Qed.

Lemma parse_time_12h_spec (s r : pystr) :
  parse_time_12h (strip s) = Some r <->
  exists hour minute period,
    form_12h (strip s) hour minute period
    /\ in_range (civil_hour hour period) minute = true
    /\ r = hhmm (civil_hour hour period) minute.
Proof.
  split.
  - intros H.
    destruct (match_anchored re_12h (strip s)) as [c|] eqn:Hmatch;
      [|unfold parse_time_12h in H; rewrite Hmatch in H; discriminate H].
    pose proof (match_anchored_sound _ _ _ Hmatch) as Hm.
    apply matches_12h in Hm.
    destruct Hm as (h & colon & m & ws & suffix & Ht & Hh & Hc & Hmm & Hws & Hs & ->).
    rewrite (parse_time_12h_run _ h m suffix Hmatch Hh Hmm Hs) in H.
    destruct (in_range _ _) eqn:Hr; [|discriminate H]. injection H as <-.
    exists (digits_value h), (digits_value m), (upper suffix).
    split; [|split; [exact Hr|reflexivity]].
    exists h, colon, m, ws, suffix.
    exact (conj Ht (conj Hh (conj Hc (conj Hmm (conj Hws (conj Hs
            (conj eq_refl (conj eq_refl eq_refl)))))))).
  - intros (hour & minute & period
            & (h & colon & m & ws & suffix & Ht & Hh & Hc & Hmm & Hws & Hs
               & -> & -> & ->) & Hr & ->).
    assert (Hm : exists c, Matches re_12h (strip s) [] c).
    { eexists. apply matches_12h. exists h, colon, m, ws, suffix.
      exact (conj Ht (conj Hh (conj Hc (conj Hmm (conj Hws (conj Hs eq_refl)))))). }
    destruct Hm as (c0 & Hm).
    destruct (match_anchored_complete _ _ _ Hm) as (c & Hmatch).
    pose proof (match_anchored_sound _ _ _ Hmatch) as Hm'.
    apply matches_12h in Hm'.
    destruct Hm' as (h' & colon' & m' & ws' & suffix' & Ht' & Hh' & Hc' & Hmm'
                     & Hws' & Hs' & ->).
    rewrite Ht in Ht'.
    destruct (form_12h_unique _ _ _ _ _ _ _ _ _ _ Ht' Hh Hh' Hc Hc' Hmm Hmm'
                Hws Hws' Hs Hs') as (<- & <- & <-).
    rewrite (parse_time_12h_run _ h m suffix Hmatch Hh Hmm Hs), Hr. reflexivity.
Qed.

(** C8 as the code has it.  [parse_time] returns a text exactly when the
    stripped input has the 24-hour shape H:MM or HH:MM with hour at most
    23 and minute at most 59, or has the 12-hour shape (one or two hour
    digits, an optional colon, optional two minute digits, optional white
    space, and one of the suffixes AM, PM, am, pm) with the civil hour (12
    PM is 12, 12 AM is 0, PM adds 12 to any other hour) at most 23 and the
    minute at most 59; the text is then HH:MM of that hour and minute.
    Every other input yields [None]; a suffix of mixed case is such an
    input. *)
Theorem parse_time_accepts_exactly (s : pystr) :
  (forall r, parse_time s = Some r <-> time_spec (strip s) r)
  /\ (parse_time s = None <-> forall r, ~ time_spec (strip s) r)
  /\ parse_time (lit "12PM") = Some (lit "12:00")
  /\ parse_time (lit "12AM") = Some (lit "00:00")
  /\ parse_time (lit "2Pm") = None.
Proof.
  assert (Hiff : forall r, parse_time s = Some r <-> time_spec (strip s) r).
  { intros r. unfold parse_time, time_spec. split.
    - destruct (parse_time_24h (strip s)) as [r'|] eqn:H24.
      + intros [= <-]. left. apply parse_time_24h_spec, H24.
      + intros H12. right. apply parse_time_12h_spec, H12.
    - intros [H|H].
      + apply parse_time_24h_spec in H. rewrite H. reflexivity.
      + destruct H as (hour & minute & period & Hf & Hr & Hres).
        rewrite (parse_time_24h_none_on_12h _ _ _ _ Hf).
        apply parse_time_12h_spec. exists hour, minute, period. auto. }
  split; [exact Hiff|]. split; [|repeat split; vm_compute; reflexivity].
  split.
  - intros Hnone r Hr. apply Hiff in Hr. congruence.
  - intros Hno. destruct (parse_time s) as [r|] eqn:Hp; [|reflexivity].
    destruct (Hno r). apply Hiff. reflexivity.
Qed.

(** C8 as stated fails on a suffix of mixed case: "2Pm" has one hour
    digit and a suffix that is PM when case is ignored, its civil hour 14
    is in range, and yet [parse_time] returns [None]. *)
Lemma parse_time_mixed_case_counterexample :
  let t := lit "2Pm" in
  (exists h suffix,
      strip t = h ++ suffix
      /\ hour_digits h
      /\ upper suffix = lit "PM"
      /\ in_range (civil_hour (digits_value h) (upper suffix)) 0 = true)
  /\ parse_time t = None.
Proof.
  split; [|vm_compute; reflexivity].
  exists (lit "2"), (lit "Pm").
  split; [vm_compute; reflexivity|].
  split; [split; [repeat constructor|left; reflexivity]|].
  split; vm_compute; reflexivity.
Qed.

(** ** Events read from the provider are well formed *)

Lemma strptime_fields (s fmt : pystr) (dt : datetime) :
  strptime s fmt = Some dt ->
  valid_date (year dt) (month dt) (day dt) = true
  /\ in_range (hour dt) (minute dt) = true.
Proof.
  unfold strptime. intros H.
  repeat match type of H with
         | context [match ?x with _ => _ end] =>
             lazymatch x with
             | context [match _ with _ => _ end] => fail
             | _ => destruct x
             end
         end; try discriminate H.
  apply make_some in H. destruct H as (-> & Hd & Ht). split; [exact Hd|].
  unfold valid_time in Ht. unfold in_range. cbn [hour minute].
  repeat (apply andb_true_iff in Ht; destruct Ht as [Ht ?]).
  repeat (apply andb_true_iff; split); assumption.
Qed.

Lemma fromisoformat_fields (s : pystr) (dt : datetime) :
  fromisoformat s = Some dt ->
  valid_date (year dt) (month dt) (day dt) = true
  /\ in_range (hour dt) (minute dt) = true.
Proof.
  unfold fromisoformat. intros H.
  assert (Hmake : forall y m d h mi sec us,
             make y m d h mi sec us = Some dt ->
             valid_date (year dt) (month dt) (day dt) = true
             /\ in_range (hour dt) (minute dt) = true).
  { intros y m d h mi sec us Hm. apply make_some in Hm.
    destruct Hm as (-> & Hd & Ht). split; [exact Hd|].
    unfold valid_time in Ht. unfold in_range. cbn [hour minute].
    repeat (apply andb_true_iff in Ht; destruct Ht as [Ht ?]).
    repeat (apply andb_true_iff; split); assumption. }
  repeat match type of H with
         | make _ _ _ _ _ _ _ = Some _ => fail 1
         | context [match ?x with _ => _ end] =>
             lazymatch x with
             | context [match _ with _ => _ end] => fail
             | make _ _ _ _ _ _ _ => fail
             | _ => destruct x
             end
         end; try discriminate H; eapply Hmake; eassumption.
Qed.

(** Every meeting the adapter reads has a date and a time that combine. *)
Lemma converted_event_combines (ev : GEvent) (m : Meeting) :
  _convert_from_google_event ev = Some m ->
  exists start, combine (m_date m) (m_time m) = Some start.
Proof.
  unfold _convert_from_google_event. intros H.
  destruct (negb (truthy _)); [discriminate H|].
  destruct (if contains_char "T" _ then _ else _) as [dt|] eqn:Hdt;
    [|discriminate H].
  assert (Hf : valid_date (year dt) (month dt) (day dt) = true
               /\ in_range (hour dt) (minute dt) = true).
  { destruct (contains_char "T" _);
      [eapply fromisoformat_fields|eapply strptime_fields]; eassumption. }
  injection H as <-.
  exists (mkdt (year dt) (month dt) (day dt) (hour dt) (minute dt) 0 0).
  exact (combine_formatted dt _ _ (proj1 Hf) (proj2 Hf)).
Qed.

(** Hence only an event that starts in the last hour of the year 9999 can
    fail to be [well_timed]. *)
Lemma converted_events_well_timed (items : list GEvent) :
  (forall m start,
      In m (convert_all items) ->
      combine (m_date m) (m_time m) = Some start ->
      add_minutes start 60 <> None) ->
  Forall well_timed (convert_all items).
Proof.
  intros Hend. apply Forall_forall. intros m Hin.
  assert (Hev : exists ev, _convert_from_google_event ev = Some m).
  { clear Hend. induction items as [|x items IH]; [contradiction|].
    simpl in Hin. destruct (_convert_from_google_event x) as [m0|] eqn:Hx; [|auto].
    destruct Hin as [<-|Hin]; eauto. }
  destruct Hev as (ev & Hev).
  destruct (converted_event_combines ev m Hev) as (start & Hs).
  destruct (add_minutes start 60) as [fin|] eqn:Hf.
  - exists start, fin. auto.
  - destruct (Hend m start Hin Hs Hf).
Qed.

(** ** What the provider holds after an update *)

(** The frame property of a time-only update is about the meeting that
    [update_meeting] returns and hands to [update_event].  The event that
    [update_event] then writes is another matter: the participants of a
    meeting read back are names, not addresses, so
    [_convert_to_google_event] moves them into the description.  Moving the
    14:00 meeting of the example calendar to 16:00 leaves the stored event
    without attendees and with a second "Participants:" line. *)
Example update_rewrites_stored_event :
  map (fun ev => (g_description ev, g_attendees ev))
      (MemoryCalendar.mem_events
         (st_world
            (snd (update_meeting MemoryCalendar.env MemoryCalendar.service
                    (lit "evt1") None None (Some (lit "16:00")) None None
                    MemoryCalendar.booked))))
  = [(Some (lit "Participants: Bob" ++ [newline; newline]
            ++ lit "Participants: alice"), None)].
Proof. vm_compute. reflexivity. Qed.

(* ===================================================================== *)
(** * Further properties of the parsers, the adapter and the routers *)
(* ===================================================================== *)

(** ** Normal forms of times and dates *)

Lemma parse_time_of_hhmm (hour minute : Z) :
  in_range hour minute = true ->
  parse_time (hhmm hour minute) = Some (hhmm hour minute).
Proof.
  intros H. apply in_range_bounds in H. destruct H as [Hh Hm].
  revert minute Hm.
  apply (Z_below_cases (fun h => forall minute, 0 <= minute <= 59 ->
            parse_time (hhmm h minute) = Some (hhmm h minute)) 24); [|lia].
  intros i Hi minute Hm.
  apply (Z_below_cases (fun m => parse_time (hhmm (Z.of_nat i) m)
                                 = Some (hhmm (Z.of_nat i) m)) 60); [|lia].
  intros j Hj.
  each_below 24 i (each_below 60 j (vm_compute; reflexivity)).
Qed.

(** X1.  What [parse_time] returns is a fixed point of [parse_time]: a
    time that has been normalised once parses to itself. *)
Theorem parse_time_result_is_fixed_point (s t : pystr) :
  parse_time s = Some t -> parse_time t = Some t.
Proof.
  intros H. destruct (parse_time_hhmm s t H) as (hour & minute & Hr & ->).
  apply parse_time_of_hhmm. exact Hr.
Qed.

(** The afternoon time [" 2:30 pm"] normalises to ["14:30"], which parses
    to itself. *)
Lemma parse_time_result_is_fixed_point_witness :
  parse_time (lit "14:30") = Some (lit "14:30").
Proof.
  apply (parse_time_result_is_fixed_point (lit " 2:30 pm")). reflexivity.
Defined.

Lemma pattern_date : pattern false (lit "%Y-%m-%d") = Some re_date.
Proof. reflexivity. Qed.

Lemma match_date (y m d : Z) :
  1 <= m <= 12 -> 1 <= d <= 31 ->
  match_all re_date (date_stamp y m d)
  = Some [("d"%string, two_digits d); ("m"%string, two_digits m);
          ("Y"%string, zpad 4 y)].
Proof.
  intros Hm Hd. unfold match_all.
  assert (Hacc : exists f, accepts re_date (date_stamp y m d) f
                           /\ f [] = [("d"%string, two_digits d);
                                      ("m"%string, two_digits m);
                                      ("Y"%string, zpad 4 y)]).
  { eexists. split; [unfold re_date, date_stamp|].
    - eapply accepts_seq; [apply accepts_grp, accepts_year|].
      eapply accepts_seq; [apply (accepts_cls (CChar "-") "-" eq_refl)|].
      eapply accepts_seq; [apply accepts_grp, (accepts_month m Hm)|].
      eapply accepts_seq; [apply (accepts_cls (CChar "-") "-" eq_refl)|].
      rewrite <- (app_nil_r (zpad 2 d)).
      eapply accepts_seq; [apply accepts_grp, (accepts_day d Hd)|].
      apply accepts_eps.
    - reflexivity. }
  destruct Hacc as (f & Hacc & Hf).
  rewrite <- (app_nil_r (date_stamp y m d)).
  rewrite (Hacc _ [] [] (fun s' c => Some (s', c)) ([], f [])); [|reflexivity].
  rewrite Hf. reflexivity.
Qed.

Lemma strptime_date_stamp (y m d : Z) :
  valid_date y m d = true ->
  strptime (date_stamp y m d) (lit "%Y-%m-%d") = Some (mkdt y m d 0 0 0 0).
Proof.
  intros Hd.
  destruct (valid_date_bounds _ _ _ Hd) as (Hy & Hm & Hdd).
  unfold strptime. rewrite pattern_date, match_date by assumption.
  unfold int_group. cbn [group String.eqb Ascii.eqb Bool.eqb].
  rewrite py_int_four_digits, !py_int_two_digits by lia.
  unfold make. rewrite Hd. reflexivity.
Qed.

Lemma parse_date_of_formatted_midnight (dt : datetime) :
  valid_date (year dt) (month dt) (day dt) = true ->
  parse_date (strftime dt (lit "%Y-%m-%d")) = Some (midnight dt).
Proof.
  intros Hd. unfold parse_date, formats. cbn [first_parse].
  change (strftime dt (lit "%Y-%m-%d"))
    with (date_stamp (year dt) (month dt) (day dt)).
  rewrite (strptime_date_stamp _ _ _ Hd). reflexivity.
Qed.

(** X2.  Formatting a calendar date of the year 1000 or later as
    [YYYY-MM-DD] and parsing it with [parse_date] gives the date back, at
    midnight. *)
Theorem parse_date_of_formatted (dt : datetime) :
  valid_date (year dt) (month dt) (day dt) = true ->
  1000 <= year dt ->
  parse_date (strftime dt (lit "%Y-%m-%d")) = Some (midnight dt).
Proof. intros Hd _. exact (parse_date_of_formatted_midnight dt Hd). Qed.

(** The leap day of 2024. *)
Lemma parse_date_of_formatted_witness :
  parse_date (strftime (mkdt 2024 2 29 17 45 0 0) (lit "%Y-%m-%d"))
  = Some (mkdt 2024 2 29 0 0 0 0).
Proof.
  apply (parse_date_of_formatted (mkdt 2024 2 29 17 45 0 0)); [reflexivity|].
  cbn. lia.
Defined.

(** ** What the computations call *)

Section CallFacts.
Variable E : Env.

Lemma only_ret {A} (ok : call -> Prop) (a : A) : only E ok (ret a).
Proof. intros s r s' H. injection H as <- <-. exists []. rewrite app_nil_r. auto. Qed.

Lemma only_raise {A} (ok : call -> Prop) (e : exn) : only E ok (raise E e : M E A).
Proof. intros s r s' H. injection H as <- <-. exists []. rewrite app_nil_r. auto. Qed.

Lemma only_bind {A B} (ok : call -> Prop) (c : M E A) (f : A -> M E B) :
  only E ok c -> (forall a, only E ok (f a)) -> only E ok (bind E c f).
Proof.
  intros Hc Hf s r s'. unfold bind.
  destruct (c s) as [[e|a] s1] eqn:Hrun; intros H.
  - injection H as <- <-. exact (Hc _ _ _ Hrun).
  - destruct (Hc _ _ _ Hrun) as (l1 & E1 & H1).
    destruct (Hf a _ _ _ H) as (l2 & E2 & H2).
    exists (l1 ++ l2). rewrite E2, E1, app_assoc. split; [reflexivity|].
    apply Forall_app. auto.
Qed.

Lemma only_try {A} (ok : call -> Prop) (c : M E A) (h : exn -> M E A) :
  only E ok c -> (forall e, only E ok (h e)) -> only E ok (try_except E c h).
Proof.
  intros Hc Hh s r s'. unfold try_except.
  destruct (c s) as [[e|a] s1] eqn:Hrun; intros H.
  - destruct (Hc _ _ _ Hrun) as (l1 & E1 & H1).
    destruct (Hh e _ _ _ H) as (l2 & E2 & H2).
    exists (l1 ++ l2). rewrite E2, E1, app_assoc. split; [reflexivity|].
    apply Forall_app. auto.
  - injection H as <- <-. exact (Hc _ _ _ Hrun).
Qed.

Lemma only_record (ok : call -> Prop) (c : call) : ok c -> only E ok (record E c).
Proof.
  intros Hok s r s' H. injection H as <- <-. exists [c]. cbn. auto.
Qed.

Lemma only_lift_world {A} (ok : call -> Prop) (f : world E -> A * world E) :
  only E ok (lift_world E f).
Proof.
  intros s r s'. unfold lift_world. destruct (f (st_world s)) as [a w].
  intros H. injection H as <- <-. exists []. rewrite app_nil_r. auto.
Qed.

Lemma only_lift_api {A} (ok : call -> Prop) (f : world E -> (exn + A) * world E) :
  only E ok (lift_api E f).
Proof.
  intros s r s'. unfold lift_api. destruct (f (st_world s)) as [a w].
  intros H. injection H as <- <-. exists []. rewrite app_nil_r. auto.
Qed.

Lemma only_weaken {A} (ok ok' : call -> Prop) (c : M E A) :
  (forall x, ok x -> ok' x) -> only E ok c -> only E ok' c.
Proof.
  intros Himp Hc s r s' H. destruct (Hc _ _ _ H) as (l & Hl & Hf).
  exists l. split; [exact Hl|]. eapply Forall_impl; eauto.
Qed.

End CallFacts.

(** Walks through a computation, proving each recorded call allowed. *)
Ltac only_step :=
  first
    [ apply only_ret
    | apply only_raise
    | apply only_lift_world
    | apply only_lift_api
    | apply only_record; cbn; solve [exact I | auto]
    | apply only_bind; [|intros ?]
    | apply only_try; [|intros ?]
    | match goal with
      | |- only _ _ (if ?b then _ else _) => destruct b
      | |- only _ _ (match ?x with _ => _ end) => destruct x
      | |- only _ _ (let '(_, _) := ?x in _) => destruct x
      end ].

Ltac only_calls := repeat only_step.

Section AdapterCalls.
Variable E : Env.
Variable svc : Service.

Lemma get_events_only_reads time_min time_max :
  only E is_read (get_events E svc time_min time_max).
Proof.
  unfold get_events, except_http, lift_sum. only_calls.
Qed.

Lemma create_event_only_creates m : only E is_create (create_event E svc m).
Proof.
  unfold create_event, except_http, lift_sum. only_calls.
Qed.

Lemma update_event_only_updates m gid : only E is_update (update_event E svc m gid).
Proof.
  unfold update_event, except_http, lift_sum. only_calls.
Qed.

Lemma delete_event_only_deletes gid : only E is_delete (delete_event E svc gid).
Proof.
  unfold delete_event, except_http, lift_sum. only_calls.
Qed.

Lemma check_time_conflict_only_reads date_str time_str exclude :
  only E is_read (_check_time_conflict E svc date_str time_str exclude).
Proof.
  unfold _check_time_conflict, check_time_conflict_body, expect, lift_sum.
  apply only_try; [|intros e; apply only_ret].
  repeat first [ apply get_events_only_reads | only_step ].
Qed.

End AdapterCalls.

Section HandlerCalls.
Variable E : Env.
Variable svc : Service.
Variable cfg : Config.

Lemma get_meeting_details_only_reads date participant title meeting_id :
  only E is_read (get_meeting_details E svc date participant title meeting_id).
Proof.
  unfold get_meeting_details, query_range, expect, now.
  repeat first [ apply get_events_only_reads | only_step ].
Qed.

Lemma list_all_meetings_only_reads : only E is_read (list_all_meetings E svc).
Proof.
  unfold list_all_meetings, expect, now.
  repeat first [ apply get_events_only_reads | only_step ].
Qed.

Lemma schedule_meeting_only_creates title date time participants description :
  only E (fun c => is_read c \/ is_create c)
       (schedule_meeting E svc cfg title date time participants description).
Proof.
  unfold schedule_meeting, is_future_datetime_now, now, generate_meeting_id.
  repeat first
    [ eapply only_weaken; [|apply check_time_conflict_only_reads]; cbn; solve [auto]
    | eapply only_weaken; [|apply create_event_only_creates]; cbn; solve [auto]
    | only_step ].
Qed.

Lemma update_meeting_only_updates meeting_id title date time participants description :
  only E (fun c => is_read c \/ is_update c)
       (update_meeting E svc meeting_id title date time participants description).
Proof.
  unfold update_meeting.
  repeat first
    [ eapply only_weaken; [|apply get_meeting_details_only_reads]; cbn; solve [auto]
    | eapply only_weaken; [|apply check_time_conflict_only_reads]; cbn; solve [auto]
    | eapply only_weaken; [|apply update_event_only_updates]; cbn; solve [auto]
    | only_step ].
Qed.

Lemma delete_meeting_only_deletes meeting_id :
  only E (fun c => is_read c \/ is_delete c) (delete_meeting E svc meeting_id).
Proof.
  unfold delete_meeting.
  repeat first
    [ eapply only_weaken; [|apply get_meeting_details_only_reads]; cbn; solve [auto]
    | eapply only_weaken; [|apply delete_event_only_deletes]; cbn; solve [auto]
    | only_step ].
Qed.

End HandlerCalls.

(** X3.  Every handler keeps to its own kind of operation: the two
    queries only read the calendar; [schedule_meeting] reads and creates
    but never updates or deletes; [update_meeting] reads and updates but
    never creates or deletes; [delete_meeting] reads and deletes but never
    creates or updates.  This holds for every outcome, failures included. *)
Theorem handlers_keep_to_their_operation (E : Env) (svc : Service) (cfg : Config) :
  (forall date participant title meeting_id,
      only E is_read (get_meeting_details E svc date participant title meeting_id))
  /\ only E is_read (list_all_meetings E svc)
  /\ (forall title date time participants description,
        only E (fun c => is_read c \/ is_create c)
             (schedule_meeting E svc cfg title date time participants description))
  /\ (forall meeting_id title date time participants description,
        only E (fun c => is_read c \/ is_update c)
             (update_meeting E svc meeting_id title date time participants
                             description))
  /\ (forall meeting_id,
        only E (fun c => is_read c \/ is_delete c) (delete_meeting E svc meeting_id)).
Proof.
  refine (conj _ (conj _ (conj _ (conj _ _)))); intros.
  - apply get_meeting_details_only_reads.
  - apply list_all_meetings_only_reads.
  - apply schedule_meeting_only_creates.
  - apply update_meeting_only_updates.
  - apply delete_meeting_only_deletes.
Qed.

(** Deleting the meeting of the example calendar adds reads and deletes to
    the trace, nothing else. *)
Lemma handlers_keep_to_their_operation_witness :
  exists l,
    st_trace (snd (delete_meeting MemoryCalendar.env MemoryCalendar.service
                     (lit "evt1") MemoryCalendar.booked))
    = st_trace MemoryCalendar.booked ++ l
    /\ Forall (fun c => is_read c \/ is_delete c) l.
Proof.
  apply (proj2 (proj2 (proj2 (proj2
           (handlers_keep_to_their_operation MemoryCalendar.env MemoryCalendar.service
              GOOGLE_CALENDAR_CONFIG))))
           (lit "evt1") MemoryCalendar.booked
           (fst (delete_meeting MemoryCalendar.env MemoryCalendar.service
                   (lit "evt1") MemoryCalendar.booked))).
  apply surjective_pairing.
Defined.

(** ** Errors of the adapter *)

Section AdapterErrors.
Variable E : Env.
Variable svc : Service.

Lemma except_http_no_http {A} (c : M E A) (fallback : A) :
  no_http E (except_http E c fallback).
Proof.
  intros s e s'. unfold except_http, try_except.
  destruct (c s) as [[e0|a] s1]; [|discriminate].
  destruct (is_http e0) eqn:He0; [discriminate|].
  intros H. injection H as <- <-. exact He0.
Qed.

Lemma guarded_no_http {A} (c : call) (fallback : A) (body : M E A) :
  no_http E (bind E (record E c)
                  (fun _ => if negb (is_enabled svc) then ret fallback
                            else except_http E body fallback)).
Proof.
  intros s e s'. unfold bind, record.
  destruct (negb (is_enabled svc)); [discriminate|].
  apply except_http_no_http.
Qed.

End AdapterErrors.

(** X4.  No [HttpError] leaves the adapter: whatever the provider does,
    an exception raised by [create_event], [update_event], [delete_event]
    or [get_events] is not an [HttpError]. *)
Theorem adapter_raises_no_http_error (E : Env) (svc : Service) :
  (forall meeting, no_http E (create_event E svc meeting))
  /\ (forall meeting google_event_id,
        no_http E (update_event E svc meeting google_event_id))
  /\ (forall google_event_id, no_http E (delete_event E svc google_event_id))
  /\ (forall time_min time_max, no_http E (get_events E svc time_min time_max)).
Proof.
  refine (conj _ (conj _ (conj _ _))); intros; apply guarded_no_http.
Qed.

(** An error that is no [HttpError] passes through [get_events]. *)
Lemma adapter_raises_no_http_error_witness :
  is_http (OtherError (lit "timed out")) = false.
Proof.
  apply (proj2 (proj2 (proj2
           (adapter_raises_no_http_error MemoryCalendar.env MemoryCalendar.service)))
           (mkdt 2025 6 1 0 0 0 0) (mkdt 2025 6 2 0 0 0 0)
           (MemoryCalendar.failing (OtherError (lit "timed out")))
           (OtherError (lit "timed out"))
           (snd (get_events MemoryCalendar.env MemoryCalendar.service
                   (mkdt 2025 6 1 0 0 0 0) (mkdt 2025 6 2 0 0 0 0)
                   (MemoryCalendar.failing (OtherError (lit "timed out")))))).
  reflexivity.
Defined.

(** ** Scheduling against a booked calendar *)

Section Scheduling.
Variable E : Env.
Variable svc : Service.
Variable cfg : Config.

Lemma after_record {A} (c : call) (k : M E A) s r s' :
  only E (fun _ => True) k ->
  bind E (record E c) (fun _ => k) s = (r, s') ->
  exists l, st_trace s' = st_trace s ++ c :: l.
Proof.
  intros Hk. unfold bind, record. intros H.
  destruct (Hk _ _ _ H) as (l & Hl & _). exists l. rewrite Hl. cbn [st_trace].
  rewrite <- app_assoc. reflexivity.
Qed.

Lemma create_event_trace m s r s' :
  create_event E svc m s = (r, s') ->
  exists l, st_trace s' = st_trace s ++ SvcCreate m :: l.
Proof.
  unfold create_event. apply after_record.
  unfold except_http, lift_sum. only_calls.
Qed.

Lemma schedule_meeting_checked title date time participants description s
      parsed_date hour minute current w0 conflict s1 :
  title <> [] ->
  parse_date date = Some parsed_date ->
  parse_time time = Some (hhmm hour minute) ->
  in_range hour minute = true ->
  env_now E (st_world s) = (current, w0) ->
  gt (mkdt (year parsed_date) (month parsed_date) (day parsed_date) hour minute 0 0)
     current = true ->
  (if conflict_detection_on cfg
   then _check_time_conflict E svc (strftime parsed_date (lit "%Y-%m-%d"))
                             (hhmm hour minute) None
   else ret None) (mkState w0 (st_trace s)) = (inr conflict, s1) ->
  schedule_meeting E svc cfg title date time participants description s
  = match conflict with
    | Some c => (inr (failure (conflict_error c)), s1)
    | None =>
        schedule_outcome E svc title (strftime parsed_date (lit "%Y-%m-%d"))
          (hhmm hour minute)
          (filter (fun p => truthy p && truthy (strip p))
                  (match participants with Some l => l | None => [] end))
          description s1
    end.
Proof.
  intros Htitle Hdate Htime Hrange Hnow Hfuture Hcheck.
  assert (Hd : truthy date = true).
  { destruct date; [discriminate Hdate|reflexivity]. }
  destruct (parse_time_truthy _ _ Htime) as [_ Ht].
  assert (Hti : truthy title = true).
  { destruct title; [contradiction|reflexivity]. }
  unfold schedule_meeting, try_except, bind.
  rewrite Hti, Hd, Ht, Hdate, Htime. cbn [andb negb]. rewrite hhmm_truthy.
  cbn [negb]. unfold is_future_datetime_now, is_future_datetime.
  rewrite (combine_formatted _ _ _ (parse_date_valid _ _ Hdate) Hrange).
  unfold bind, now, lift_world. rewrite Hnow. unfold ret at 1.
  rewrite Hfuture. cbn [negb]. rewrite Hcheck.
  destruct conflict as [c|]; [reflexivity|].
  unfold schedule_outcome, generate_meeting_id, lift_world.
  destruct (env_uuid8 E (st_world s1)) as [new_id w1].
  cbn [st_world st_trace].
  destruct (env_now E w1) as [created w2].
  cbn [st_world st_trace].
  match goal with
  | |- context [create_event E svc ?m ?st] =>
      destruct (create_event E svc m st) as [[e|gid] s2]
  end; [reflexivity|].
  destruct (otruthy gid); reflexivity.
Qed.

End Scheduling.

(** ** Queries *)

Lemma filter_filter {A} (f g : A -> bool) (l : list A) :
  filter g (filter f l) = filter (fun x => f x && g x) l.
Proof.
  induction l as [|x l IH]; simpl; [reflexivity|].
  destruct (f x); simpl; [|exact IH]. destruct (g x); rewrite IH; reflexivity.
Qed.

Lemma filter_all {A} (f : A -> bool) (l : list A) :
  (forall x, f x = true) -> filter f l = l.
Proof.
  intros H. induction l as [|x l IH]; simpl; [reflexivity|].
  rewrite H, IH. reflexivity.
Qed.

Lemma filter_if_filter (arg : option pystr) (f : pystr -> Meeting -> bool)
      (l : list Meeting) :
  filter_if arg f l = filter (fun m => negb (otruthy arg) || f (ostr arg) m) l.
Proof.
  unfold filter_if. destruct arg as [a|]; simpl.
  - destruct (truthy a); simpl; [reflexivity|].
    symmetry. apply filter_all. reflexivity.
  - symmetry. apply filter_all. reflexivity.
Qed.

Lemma filters_select (participant title meeting_id : option pystr)
      (l : list Meeting) :
  filter_if meeting_id matches_id
    (filter_if title matches_title (filter_if participant matches_participant l))
  = filter (selected participant title meeting_id) l.
Proof.
  rewrite !filter_if_filter, !filter_filter. apply filter_ext.
  intros m. unfold selected. rewrite andb_assoc. reflexivity.
Qed.

Section Queries.
Variable E : Env.
Variable svc : Service.

Lemma query_range_listed time_min time_max participant title meeting_id s items w :
  is_enabled svc = true ->
  list_request E svc time_min time_max s = (inr items, w) ->
  exists r,
    query_range E svc time_min time_max participant title meeting_id s
    = (inr r, after_list E time_min time_max s w)
    /\ success r = true
    /\ meetings r
       = Some (filter (selected participant title meeting_id) (convert_all items))
    /\ count r = match convert_all items with
                 | [] => None
                 | _ => Some (len (filter (selected participant title meeting_id)
                                          (convert_all items)))
                 end.
Proof.
  intros Hen Hl. unfold query_range, bind.
  rewrite (get_events_items _ _ _ _ _ _ _ Hen Hl).
  destruct (convert_all items) as [|m l] eqn:Hc.
  - eexists. split; [reflexivity|]. repeat split.
  - rewrite filters_select. eexists. split; [reflexivity|]. repeat split.
Qed.

Lemma get_meeting_details_listed participant title meeting_id s
      current w0 time_max items w :
  is_enabled svc = true ->
  env_now E (st_world s) = (current, w0) ->
  add_days current 30 = Some time_max ->
  list_request E svc current time_max (mkState w0 (st_trace s)) = (inr items, w) ->
  exists r,
    get_meeting_details E svc None participant title meeting_id s
    = (inr r, after_list E current time_max (mkState w0 (st_trace s)) w)
    /\ success r = true
    /\ meetings r
       = Some (filter (selected participant title meeting_id) (convert_all items))
    /\ count r = match convert_all items with
                 | [] => None
                 | _ => Some (len (filter (selected participant title meeting_id)
                                          (convert_all items)))
                 end.
Proof.
  intros Hen Hnow Hmax Hl.
  destruct (query_range_listed _ _ participant title meeting_id _ _ _ Hen Hl)
    as (r & Hrun & Hr).
  exists r. split; [|exact Hr].
  unfold get_meeting_details, try_except, bind, now, lift_world, expect.
  cbn [otruthy]. rewrite Hnow, Hmax. unfold ret at 1. rewrite Hrun. reflexivity.
Qed.

Lemma get_meeting_details_dated date participant title meeting_id s
      parsed_date time_max items w :
  is_enabled svc = true ->
  date <> [] ->
  parse_date date = Some parsed_date ->
  add_days (replace_hms0 parsed_date) 1 = Some time_max ->
  list_request E svc (replace_hms0 parsed_date) time_max s = (inr items, w) ->
  exists r,
    get_meeting_details E svc (Some date) participant title meeting_id s
    = (inr r, after_list E (replace_hms0 parsed_date) time_max s w)
    /\ success r = true
    /\ meetings r
       = Some (filter (selected participant title meeting_id) (convert_all items))
    /\ count r = match convert_all items with
                 | [] => None
                 | _ => Some (len (filter (selected participant title meeting_id)
                                          (convert_all items)))
                 end.
Proof.
  intros Hen Hdate Hparse Hmax Hl.
  destruct (query_range_listed _ _ participant title meeting_id _ _ _ Hen Hl)
    as (r & Hrun & Hr).
  exists r. split; [|exact Hr].
  unfold get_meeting_details, try_except, bind, expect.
  assert (Ht : otruthy (Some date) = true).
  { destruct date; [contradiction|reflexivity]. }
  rewrite Ht. cbn [ostr]. rewrite Hparse, Hmax. unfold ret at 1.
  rewrite Hrun. reflexivity.
Qed.

End Queries.

(** X5.  A query returns exactly the meetings of the listing that pass
    every supplied filter, in the order of the listing.  The window is the
    next 30 days when no date is given and the day of the date otherwise.
    [count] is the number of meetings returned, and is absent when the
    listing holds no meeting at all. *)
Theorem get_meeting_details_selects (E : Env) (svc : Service)
        (date participant title meeting_id : option pystr)
        (s s0 : state E) (time_min time_max : datetime)
        (items : list GEvent) (w : world E) :
  is_enabled svc = true ->
  (otruthy date = false
   /\ (exists w0, env_now E (st_world s) = (time_min, w0)
                  /\ s0 = mkState w0 (st_trace s))
   /\ add_days time_min 30 = Some time_max)
  \/ (exists d parsed_date,
         date = Some d /\ d <> [] /\ parse_date d = Some parsed_date
         /\ time_min = replace_hms0 parsed_date
         /\ s0 = s /\ add_days time_min 1 = Some time_max) ->
  list_request E svc time_min time_max s0 = (inr items, w) ->
  exists r,
    get_meeting_details E svc date participant title meeting_id s
    = (inr r, after_list E time_min time_max s0 w)
    /\ success r = true
    /\ meetings r
       = Some (filter (selected participant title meeting_id) (convert_all items))
    /\ count r = match convert_all items with
                 | [] => None
                 | _ => Some (len (filter (selected participant title meeting_id)
                                          (convert_all items)))
                 end.
Proof.
  intros Hen [(Hdate & (w0 & Hnow & ->) & Hmax)|(d & pd & -> & Hd & Hp & -> & -> & Hmax)]
         Hl.
  - destruct (get_meeting_details_listed E svc participant title meeting_id s
                _ _ _ _ _ Hen Hnow Hmax Hl) as (r & Hrun & Hr).
    exists r. split; [|exact Hr]. rewrite <- Hrun.
    destruct date as [[|a d]|]; [reflexivity|discriminate Hdate|reflexivity].
  - exact (get_meeting_details_dated E svc d participant title meeting_id s
             _ _ _ _ Hen Hd Hp Hmax Hl).
Qed.

(** The 30-day query on the example calendar, filtered by a title in
    capitals, returns the one meeting. *)
Lemma get_meeting_details_selects_witness :
  exists r,
    get_meeting_details MemoryCalendar.env MemoryCalendar.service
      None None (Some (lit "STAND")) None MemoryCalendar.booked
    = (inr r, after_list MemoryCalendar.env
                (mkdt 2025 6 1 9 0 0 0) (mkdt 2025 7 1 9 0 0 0)
                MemoryCalendar.booked (st_world MemoryCalendar.booked))
    /\ meetings r = Some [MemoryCalendar.standup_fetched]
    /\ count r = Some 1.
Proof.
  destruct (get_meeting_details_selects MemoryCalendar.env MemoryCalendar.service
              None None (Some (lit "STAND")) None
              MemoryCalendar.booked MemoryCalendar.booked
              (mkdt 2025 6 1 9 0 0 0) (mkdt 2025 7 1 9 0 0 0)
              [MemoryCalendar.standup_event] (st_world MemoryCalendar.booked))
    as (r & Hrun & _ & Hm & Hc).
  - reflexivity.
  - left. split; [reflexivity|]. split; [|reflexivity].
    exists (st_world MemoryCalendar.booked). split; reflexivity.
  - reflexivity.
  - exists r. split; [exact Hrun|]. split; [exact Hm|exact Hc].
Defined.

(** X6.  With conflict detection on, [schedule_meeting] refuses a future
    meeting exactly when the listing of its day holds an event that overlaps
    it as a 60-minute meeting: it then answers with the conflict error that
    names the first such event and has only listed the day; otherwise it
    goes on to create the meeting. *)
Theorem schedule_meeting_refuses_overlap
        (E : Env) (svc : Service) (cfg : Config)
        (title date time : pystr) (participants : option (list pystr))
        (description : pystr) (s : state E)
        (parsed_date : datetime) (hour minute : Z)
        (current proposed_end day_end : datetime) (w0 w : world E)
        (items : list GEvent) :
  let start :=
    mkdt (year parsed_date) (month parsed_date) (day parsed_date) hour minute 0 0 in
  let listed := after_list E (midnight start) day_end (mkState w0 (st_trace s)) w in
  title <> [] ->
  parse_date date = Some parsed_date ->
  1000 <= year parsed_date ->
  parse_time time = Some (hhmm hour minute) ->
  in_range hour minute = true ->
  env_now E (st_world s) = (current, w0) ->
  gt start current = true ->
  conflict_detection_on cfg = true ->
  is_enabled svc = true ->
  add_minutes start 60 = Some proposed_end ->
  add_days (midnight start) 1 = Some day_end ->
  list_request E svc (midnight start) day_end (mkState w0 (st_trace s))
  = (inr items, w) ->
  Forall well_timed (convert_all items) ->
  match first_conflict start None (convert_all items) with
  | Some c =>
      schedule_meeting E svc cfg title date time participants description s
      = (inr (failure (conflict_error c)), listed)
  | None =>
      exists r s' m l,
        schedule_meeting E svc cfg title date time participants description s
        = (inr r, s')
        /\ st_trace s' = st_trace listed ++ SvcCreate m :: l
        /\ m_title m = title
        /\ m_date m = strftime parsed_date (lit "%Y-%m-%d")
        /\ m_time m = hhmm hour minute
  end.
Proof.
  intros start listed Htitle Hdate _ Htime Hrange Hnow Hfuture Hon Hen Hend Hday
         Hlist Htimed.
  assert (Hcheck :
            (if conflict_detection_on cfg
             then _check_time_conflict E svc (strftime parsed_date (lit "%Y-%m-%d"))
                                       (hhmm hour minute) None
             else ret None) (mkState w0 (st_trace s))
            = (inr (first_conflict start None (convert_all items)), listed)).
  { rewrite Hon.
    rewrite (check_time_conflict_run E svc _ _ None _ start proposed_end day_end
               items w Hen
               (combine_formatted _ _ _ (parse_date_valid _ _ Hdate) Hrange)
               Hend Hday Hlist).
    rewrite (conflict_loop_first start proposed_end None _ Hend); auto.
    discriminate. }
  rewrite (schedule_meeting_checked E svc cfg title date time participants
             description s parsed_date hour minute current w0 _ _
             Htitle Hdate Htime Hrange Hnow Hfuture Hcheck).
  destruct (first_conflict start None (convert_all items)) as [c|]; [reflexivity|].
  unfold schedule_outcome.
  destruct (env_uuid8 E (st_world listed)) as [new_id w1].
  destruct (env_now E w1) as [created w2].
  match goal with
  | |- context [create_event E svc ?m ?st] =>
      destruct (create_event E svc m st) as [[e|gid] s2] eqn:Hcreate;
      destruct (create_event_trace _ _ _ _ _ _ Hcreate) as (l & Hl);
      cbn [st_trace] in Hl
  end.
  - eexists. eexists. eexists. exists l. split; [reflexivity|].
    split; [exact Hl|]. repeat split.
  - destruct (otruthy gid);
      (eexists; eexists; eexists; exists l; split; [reflexivity|];
       split; [exact Hl|]; repeat split).
Qed.

(** A second meeting at 14:30 on the day of the example meeting is
    refused. *)
Lemma schedule_meeting_refuses_overlap_witness :
  schedule_meeting MemoryCalendar.env MemoryCalendar.service GOOGLE_CALENDAR_CONFIG
    (lit "Review") (lit "2025-06-10") (lit "2:30 pm") None [] MemoryCalendar.booked
  = (inr (failure (conflict_error MemoryCalendar.standup_fetched)),
     after_list MemoryCalendar.env (mkdt 2025 6 10 0 0 0 0) (mkdt 2025 6 11 0 0 0 0)
       MemoryCalendar.booked (st_world MemoryCalendar.booked)).
Proof.
  apply (schedule_meeting_refuses_overlap
           MemoryCalendar.env MemoryCalendar.service GOOGLE_CALENDAR_CONFIG
           (lit "Review") (lit "2025-06-10") (lit "2:30 pm") None []
           MemoryCalendar.booked (mkdt 2025 6 10 0 0 0 0) 14 30
           (mkdt 2025 6 1 9 0 0 0) (mkdt 2025 6 10 15 30 0 0)
           (mkdt 2025 6 11 0 0 0 0)
           (st_world MemoryCalendar.booked) (st_world MemoryCalendar.booked)
           [MemoryCalendar.standup_event]).
  - discriminate.
  - reflexivity.
  - cbn. lia.
  - reflexivity.
  - reflexivity.
  - reflexivity.
  - reflexivity.
  - reflexivity.
  - reflexivity.
  - reflexivity.
  - reflexivity.
  - reflexivity.
  - constructor; [|constructor].
    exists (mkdt 2025 6 10 14 0 0 0), (mkdt 2025 6 10 15 0 0 0).
    split; reflexivity.
Defined.

(** ** Deleting and updating by id *)

Section ById.
Variable E : Env.
Variable svc : Service.

Lemma delete_event_run gid s :
  is_enabled svc = true ->
  exists ok s',
    delete_event E svc gid s = (ok, s')
    /\ st_trace s' = st_trace s ++ [SvcDelete gid; ApiDelete gid]
    /\ (forall e, ok = inl e -> is_http e = false).
Proof.
  intros Hen. unfold delete_event, bind, record, except_http, try_except, lift_api.
  rewrite Hen. cbn [negb st_world st_trace].
  destruct (env_delete E (calendar_id (config svc)) gid (st_world s)) as [[e|[]] w'].
  - destruct (is_http e) eqn:He; eexists; eexists;
      (split; [reflexivity|]; cbn [st_trace]; rewrite <- app_assoc;
       split; [reflexivity|]; intros e' H'; inversion H'; subst; assumption).
  - eexists. eexists. split; [reflexivity|]. cbn [st_trace].
    rewrite <- app_assoc. split; [reflexivity|]. discriminate.
Qed.

Lemma first_meeting_of r found :
  success r = true -> meetings r = Some found ->
  first_meeting r = match found with m :: _ => Some m | [] => None end.
Proof.
  intros Hs Hm. unfold first_meeting. rewrite Hs, Hm. destruct found; reflexivity.
Qed.

Lemma delete_meeting_by_found meeting_id s current w0 time_max items w :
  is_enabled svc = true ->
  env_now E (st_world s) = (current, w0) ->
  add_days current 30 = Some time_max ->
  list_request E svc current time_max (mkState w0 (st_trace s)) = (inr items, w) ->
  let listed := after_list E current time_max (mkState w0 (st_trace s)) w in
  match filter (selected None None meeting_id) (convert_all items) with
  | [] =>
      delete_meeting_by E svc meeting_id s
      = (inr (not_found (ostr meeting_id)), listed)
  | m :: _ =>
      forall gid,
        m_google_event_id m = Some gid -> gid <> [] ->
        exists r s',
          delete_meeting_by E svc meeting_id s = (inr r, s')
          /\ st_trace s' = st_trace listed ++ [SvcDelete gid; ApiDelete gid]
          /\ (success r = true -> deleted_meeting r = Some m)
  end.
Proof.
  intros Hen Hnow Hmax Hl listed.
  destruct (get_meeting_details_listed E svc None None meeting_id s
              _ _ _ _ _ Hen Hnow Hmax Hl) as (r0 & Hrun & Hs & Hm & _).
  fold listed in Hrun.
  pose proof (first_meeting_of _ _ Hs Hm) as Hfirst.
  unfold delete_meeting_by, try_except, bind. rewrite Hrun, Hfirst.
  destruct (filter (selected None None meeting_id) (convert_all items))
    as [|m found]; [reflexivity|].
  intros gid Hgid Hne. rewrite Hgid.
  destruct gid as [|a gid]; [contradiction|].
  destruct (delete_event_run (a :: gid) listed Hen) as (ok & s' & Hdel & Htr & _).
  rewrite Hdel. destruct ok as [e|[|]].
  - eexists. eexists. split; [reflexivity|]. split; [exact Htr|]. discriminate.
  - eexists. eexists. split; [reflexivity|]. split; [exact Htr|]. reflexivity.
  - eexists. eexists. split; [reflexivity|]. split; [exact Htr|]. discriminate.
Qed.

Lemma delete_meeting_found meeting_id s current w0 time_max items w :
  is_enabled svc = true ->
  env_now E (st_world s) = (current, w0) ->
  add_days current 30 = Some time_max ->
  list_request E svc current time_max (mkState w0 (st_trace s)) = (inr items, w) ->
  let listed := after_list E current time_max (mkState w0 (st_trace s)) w in
  match filter (selected None None (Some meeting_id)) (convert_all items) with
  | [] => delete_meeting E svc meeting_id s = (inr (not_found meeting_id), listed)
  | m :: _ =>
      forall gid,
        m_google_event_id m = Some gid -> gid <> [] ->
        exists r s',
          delete_meeting E svc meeting_id s = (inr r, s')
          /\ st_trace s' = st_trace listed ++ [SvcDelete gid; ApiDelete gid]
          /\ (success r = true -> deleted_meeting r = Some m)
  end.
Proof.
  exact (delete_meeting_by_found (Some meeting_id) s current w0 time_max items w).
Qed.

End ById.

Lemma selected_by_id (meeting_id : pystr) (l : list Meeting) :
  filter (selected None None (Some meeting_id)) l
  = match meeting_id with
    | [] => l
    | _ => filter (matches_id meeting_id) l
    end.
Proof.
  destruct meeting_id as [|a t].
  - apply filter_all. reflexivity.
  - apply filter_ext. reflexivity.
Qed.

(** X7.  [delete_meeting] with a non-empty id looks the id up among the
    meetings of the next 30 days, as a remote id or as a local id.  When no
    meeting matches it answers "not found" and has only listed; otherwise
    it sends exactly one delete request, for the remote id of the first
    match, and a successful result reports that meeting as deleted. *)
Theorem delete_meeting_deletes_first_match
        (E : Env) (svc : Service) (meeting_id : pystr) (s : state E)
        (current time_max : datetime) (w0 w : world E) (items : list GEvent) :
  let listed := after_list E current time_max (mkState w0 (st_trace s)) w in
  meeting_id <> [] ->
  is_enabled svc = true ->
  env_now E (st_world s) = (current, w0) ->
  add_days current 30 = Some time_max ->
  list_request E svc current time_max (mkState w0 (st_trace s)) = (inr items, w) ->
  match filter (matches_id meeting_id) (convert_all items) with
  | [] => delete_meeting E svc meeting_id s = (inr (not_found meeting_id), listed)
  | m :: _ =>
      forall gid,
        m_google_event_id m = Some gid -> gid <> [] ->
        exists r s',
          delete_meeting E svc meeting_id s = (inr r, s')
          /\ st_trace s' = st_trace listed ++ [SvcDelete gid; ApiDelete gid]
          /\ (success r = true -> deleted_meeting r = Some m)
  end.
Proof.
  intros listed Hid Hen Hnow Hmax Hl.
  pose proof (delete_meeting_found E svc meeting_id s _ _ _ _ _ Hen Hnow Hmax Hl)
    as H.
  rewrite selected_by_id in H. destruct meeting_id; [contradiction|exact H].
Qed.

(** The example meeting is deleted through its local id. *)
Lemma delete_meeting_deletes_first_match_witness :
  exists r s',
    delete_meeting MemoryCalendar.env MemoryCalendar.service (lit "id1")
                   MemoryCalendar.booked = (inr r, s')
    /\ st_trace s'
       = st_trace (after_list MemoryCalendar.env
                     (mkdt 2025 6 1 9 0 0 0) (mkdt 2025 7 1 9 0 0 0)
                     MemoryCalendar.booked (st_world MemoryCalendar.booked))
         ++ [SvcDelete (lit "evt1"); ApiDelete (lit "evt1")]
    /\ (success r = true -> deleted_meeting r = Some MemoryCalendar.standup_fetched).
Proof.
  pose proof (delete_meeting_deletes_first_match
                MemoryCalendar.env MemoryCalendar.service (lit "id1")
                MemoryCalendar.booked
                (mkdt 2025 6 1 9 0 0 0) (mkdt 2025 7 1 9 0 0 0)
                (st_world MemoryCalendar.booked) (st_world MemoryCalendar.booked)
                [MemoryCalendar.standup_event]) as H.
  cbv zeta in H.
  replace (filter (matches_id (lit "id1"))
                  (convert_all [MemoryCalendar.standup_event]))
    with [MemoryCalendar.standup_fetched] in H by (vm_compute; reflexivity).
  apply (H ltac:(discriminate) eq_refl eq_refl eq_refl eq_refl (lit "evt1") eq_refl).
  discriminate.
Defined.

(** X8.  An empty [meeting_id] is not rejected: it filters nothing, so
    [delete_meeting] deletes the first meeting of the next 30 days and
    [update_meeting] updates it. *)
Theorem empty_id_selects_first_listed
        (E : Env) (svc : Service) (s : state E)
        (current time_max : datetime) (w0 w : world E) (items : list GEvent)
        (m : Meeting) (rest : list Meeting) (gid : pystr) :
  let listed := after_list E current time_max (mkState w0 (st_trace s)) w in
  is_enabled svc = true ->
  env_now E (st_world s) = (current, w0) ->
  add_days current 30 = Some time_max ->
  list_request E svc current time_max (mkState w0 (st_trace s)) = (inr items, w) ->
  convert_all items = m :: rest ->
  m_google_event_id m = Some gid ->
  gid <> [] ->
  (exists r s',
      delete_meeting E svc [] s = (inr r, s')
      /\ st_trace s' = st_trace listed ++ [SvcDelete gid; ApiDelete gid]
      /\ (success r = true -> deleted_meeting r = Some m))
  /\ (forall title participants description,
        exists r s' m',
          update_meeting E svc [] title None None participants description s
          = (inr r, s')
          /\ In (SvcUpdate m' gid) (st_trace s')
          /\ m_id m' = m_id m).
Proof.
  intros listed Hen Hnow Hmax Hl Hconv Hgid Hne. split.
  - pose proof (delete_meeting_found E svc [] s _ _ _ _ _ Hen Hnow Hmax Hl) as H.
    rewrite selected_by_id, Hconv in H. exact (H gid Hgid Hne).
  - intros title participants description.
    destruct (get_meeting_details_listed E svc None None (Some []) s
                _ _ _ _ _ Hen Hnow Hmax Hl) as (r0 & Hrun & Hs & Hm & _).
    rewrite selected_by_id, Hconv in Hm.
    pose proof (first_meeting_of _ _ Hs Hm) as Hfirst. cbn in Hfirst.
    destruct (merge_fields_no_date_time m title participants description)
      as (m' & Hmerge).
    pose proof (update_meeting_resolved E svc [] title None None participants
                  description _ _ _ _ _ Hrun Hfirst Hgid Hne) as Hupd.
    rewrite Hmerge in Hupd. cbn [otruthy orb] in Hupd.
    destruct (update_outcome_calls E svc m' gid listed)
      as (r2 & s2 & Hu & (l2 & Hl2 & _) & _).
    fold listed in Hupd. rewrite Hu in Hupd.
    exists r2, s2, m'. split; [exact Hupd|]. split.
    + rewrite Hl2. apply in_or_app. right. left. reflexivity.
    + clear - Hmerge. unfold merge_fields in Hmerge. cbn [otruthy] in Hmerge.
      destruct (otruthy title), participants as [[|p ps]|], description as [d|];
        injection Hmerge as <-; reflexivity.
Qed.

(** On the example calendar [delete_meeting("")] deletes the meeting. *)
Lemma empty_id_selects_first_listed_witness :
  exists r s',
    delete_meeting MemoryCalendar.env MemoryCalendar.service [] MemoryCalendar.booked
    = (inr r, s')
    /\ st_trace s'
       = st_trace (after_list MemoryCalendar.env
                     (mkdt 2025 6 1 9 0 0 0) (mkdt 2025 7 1 9 0 0 0)
                     MemoryCalendar.booked (st_world MemoryCalendar.booked))
         ++ [SvcDelete (lit "evt1"); ApiDelete (lit "evt1")]
    /\ (success r = true -> deleted_meeting r = Some MemoryCalendar.standup_fetched).
Proof.
  refine (proj1 (empty_id_selects_first_listed
                   MemoryCalendar.env MemoryCalendar.service MemoryCalendar.booked
                   (mkdt 2025 6 1 9 0 0 0) (mkdt 2025 7 1 9 0 0 0)
                   (st_world MemoryCalendar.booked) (st_world MemoryCalendar.booked)
                   [MemoryCalendar.standup_event]
                   MemoryCalendar.standup_fetched [] (lit "evt1")
                   eq_refl eq_refl eq_refl eq_refl _ eq_refl _)).
  - vm_compute. reflexivity.
  - discriminate.
Defined.

Section Validation.
Variable E : Env.
Variable svc : Service.

Lemma merge_fields_bad_date m title date time participants description :
  otruthy date = true ->
  parse_date (ostr date) = None ->
  merge_fields m title date time participants description
  = inl (failure (lit "Invalid date format '" ++ ostr date ++ lit "'")).
Proof.
  intros Ht Hp. unfold merge_fields. rewrite Ht, Hp. reflexivity.
Qed.

Lemma merge_fields_bad_time m title date time participants description :
  otruthy time = true ->
  parse_time (ostr time) = None ->
  exists msg,
    merge_fields m title date time participants description = inl (failure msg).
Proof.
  intros Ht Hp. unfold merge_fields. rewrite Ht, Hp.
  destruct (otruthy date); [destruct (parse_date (ostr date))|]; eauto.
Qed.

Lemma update_meeting_rejected meeting_id title date time participants description :
  (forall m, exists msg,
      merge_fields m title date time participants description = inl (failure msg)) ->
  only E is_read
       (update_meeting E svc meeting_id title date time participants description)
  /\ returns E (fun r => success r = false)
       (update_meeting E svc meeting_id title date time participants description).
Proof.
  intros Hbad. split.
  - unfold update_meeting. apply only_try; [|intros e; apply only_ret].
    apply only_bind; [apply get_meeting_details_only_reads|]. intros result.
    destruct (first_meeting result) as [m|]; [|apply only_ret].
    destruct (m_google_event_id m) as [[|a gid]|]; try apply only_ret.
    destruct (Hbad m) as (msg & ->). apply only_ret.
  - unfold update_meeting. apply returns_try; [|intros e; apply returns_ret; reflexivity].
    apply returns_bind. intros result.
    destruct (first_meeting result) as [m|]; [|apply returns_ret; reflexivity].
    destruct (m_google_event_id m) as [[|a gid]|]; try (apply returns_ret; reflexivity).
    destruct (Hbad m) as (msg & ->). apply returns_ret. reflexivity.
Qed.

End Validation.

(** X9.  [update_meeting] validates before it writes: when the new date
    or the new time is supplied and does not parse, the result is a
    failure and the calendar has only been read. *)
Theorem update_meeting_invalid_field_writes_nothing
        (E : Env) (svc : Service) (meeting_id : pystr)
        (title date time : option pystr) (participants : option (list pystr))
        (description : option pystr) (s s' : state E) (r : exn + Result) :
  (otruthy date = true /\ parse_date (ostr date) = None)
  \/ (otruthy time = true /\ parse_time (ostr time) = None) ->
  update_meeting E svc meeting_id title date time participants description s
  = (r, s') ->
  (exists l, st_trace s' = st_trace s ++ l /\ Forall is_read l)
  /\ (forall result, r = inr result -> success result = false).
Proof.
  intros Hbad Hrun.
  assert (H : forall m, exists msg,
               merge_fields m title date time participants description
               = inl (failure msg)).
  { intros m. destruct Hbad as [[Ht Hp]|[Ht Hp]].
    - eexists. apply merge_fields_bad_date; assumption.
    - apply merge_fields_bad_time; assumption. }
  destruct (update_meeting_rejected E svc meeting_id title date time participants
              description H) as [Honly Hret].
  split; [exact (Honly _ _ _ Hrun)|].
  intros result ->. exact (Hret _ _ _ Hrun).
Qed.

(** Moving the example meeting to [25:00] fails after one listing. *)
Lemma update_meeting_invalid_field_writes_nothing_witness :
  exists l,
    st_trace (snd (update_meeting MemoryCalendar.env MemoryCalendar.service
                     (lit "evt1") None None (Some (lit "25:00")) None None
                     MemoryCalendar.booked))
    = st_trace MemoryCalendar.booked ++ l
    /\ Forall is_read l.
Proof.
  refine (proj1 (update_meeting_invalid_field_writes_nothing
                   MemoryCalendar.env MemoryCalendar.service (lit "evt1")
                   None None (Some (lit "25:00")) None None
                   MemoryCalendar.booked _ _ _ _)).
  - right. split; reflexivity.
  - apply surjective_pairing.
Defined.

(** ** [sync_event] *)

(** X10.  [sync_event] does nothing and returns [None] when the adapter is
    not enabled, and also when the action is not ["create"] and either the
    meeting has no remote id or the action is neither ["update"] nor
    ["delete"]. *)
Theorem sync_event_without_target_does_nothing
        (E : Env) (svc : Service) (meeting : Meeting) (action : pystr)
        (s : state E) :
  is_enabled svc = false
  \/ (action <> lit "create"
      /\ (otruthy (m_google_event_id meeting) = false
          \/ (action <> lit "update" /\ action <> lit "delete"))) ->
  sync_event E svc meeting action s = (inr None, s).
Proof.
  unfold sync_event. intros [Hen|[Hc Hrest]].
  - rewrite Hen. reflexivity.
  - destruct (negb (is_enabled svc)); [reflexivity|].
    destruct (str_eqb action (lit "create")) eqn:Ec.
    { apply str_eqb_eq in Ec. contradiction. }
    destruct Hrest as [Hid|[Hu Hd]].
    + rewrite Hid, !andb_false_r. reflexivity.
    + destruct (str_eqb action (lit "update")) eqn:Eu.
      { apply str_eqb_eq in Eu. contradiction. }
      destruct (str_eqb action (lit "delete")) eqn:Ed.
      { apply str_eqb_eq in Ed. contradiction. }
      reflexivity.
Qed.

(** A meeting that was never stored cannot be updated. *)
Lemma sync_event_without_target_does_nothing_witness :
  sync_event MemoryCalendar.env MemoryCalendar.service
    (mkMeeting (Some (lit "id7")) (lit "Draft") (lit "2025-06-12") (lit "10:00")
               [] [] None None false None None)
    (lit "update") MemoryCalendar.booked
  = (inr None, MemoryCalendar.booked).
Proof.
  apply sync_event_without_target_does_nothing.
  right. split; [discriminate|]. left. reflexivity.
Defined.

(** X11.  [sync_event] runs the operation its action names and no other,
    and an id it returns for ["update"] or ["delete"] is the remote id of
    the meeting it was given. *)
Theorem sync_event_runs_the_requested_operation
        (E : Env) (svc : Service) (meeting : Meeting) (action : pystr) :
  only E (requested action) (sync_event E svc meeting action)
  /\ returns E
       (fun r => forall id, r = Some id ->
                            action = lit "create"
                            \/ m_google_event_id meeting = Some id)
       (sync_event E svc meeting action).
Proof.
  unfold sync_event. split.
  - destruct (negb (is_enabled svc)); [apply only_ret|].
    destruct (str_eqb action (lit "create")) eqn:Ec.
    { apply str_eqb_eq in Ec.
      eapply only_weaken; [|apply create_event_only_creates].
      intros c Hc. left. auto. }
    destruct (str_eqb action (lit "update")) eqn:Eu.
    { apply str_eqb_eq in Eu. cbn [andb].
      destruct (otruthy (m_google_event_id meeting)); [|
        destruct (str_eqb action (lit "delete") && false) eqn:Hf;
          [rewrite andb_false_r in Hf; discriminate Hf|apply only_ret]].
      apply only_bind; [|intros ok; apply only_ret].
      eapply only_weaken; [|apply update_event_only_updates].
      intros c Hc. right. left. auto. }
    cbn [andb].
    destruct (str_eqb action (lit "delete")) eqn:Ed; [|apply only_ret].
    apply str_eqb_eq in Ed. cbn [andb].
    destruct (otruthy (m_google_event_id meeting)); [|apply only_ret].
    apply only_bind; [|intros ok; apply only_ret].
    eapply only_weaken; [|apply delete_event_only_deletes].
    intros c Hc. right. right. auto.
  - destruct (negb (is_enabled svc)); [apply returns_ret; discriminate|].
    destruct (str_eqb action (lit "create")) eqn:Ec.
    { apply str_eqb_eq in Ec. intros s r s' _ id _. left. exact Ec. }
    destruct (str_eqb action (lit "update") && otruthy (m_google_event_id meeting)).
    { apply returns_bind. intros [|]; apply returns_ret.
      - intros id H. right. exact H.
      - discriminate. }
    destruct (str_eqb action (lit "delete") && otruthy (m_google_event_id meeting)).
    { apply returns_bind. intros [|]; apply returns_ret.
      - intros id H. right. exact H.
      - discriminate. }
    apply returns_ret. discriminate.
Qed.

(** Deleting the example meeting through [sync_event] reads nothing and
    creates nothing. *)
Lemma sync_event_runs_the_requested_operation_witness :
  exists l,
    st_trace (snd (sync_event MemoryCalendar.env MemoryCalendar.service
                     MemoryCalendar.standup_fetched (lit "delete")
                     MemoryCalendar.booked))
    = st_trace MemoryCalendar.booked ++ l
    /\ Forall (requested (lit "delete")) l.
Proof.
  refine (proj1 (sync_event_runs_the_requested_operation
                   MemoryCalendar.env MemoryCalendar.service
                   MemoryCalendar.standup_fetched (lit "delete"))
                MemoryCalendar.booked _ _ _).
  apply surjective_pairing.
Defined.

(** ** Writing a meeting that has no valid start *)

Lemma range_bounds (lo hi a : ascii) :
  cls_mem (CRange lo hi) a = true -> code lo <= code a <= code hi.
Proof.
  cbn [cls_mem]. intros H. apply andb_true_iff in H. destruct H as [H1 H2].
  apply Z.leb_le in H1. apply Z.leb_le in H2. lia.
Qed.

Lemma digit_bounds (a : ascii) : cls_mem CDigit a = true -> 48 <= code a <= 57.
Proof.
  cbn [cls_mem]. unfold is_digit. intros H. apply andb_true_iff in H.
  destruct H as [H1 H2]. apply Z.leb_le in H1. apply Z.leb_le in H2. lia.
Qed.

Lemma bounds_digit (a : ascii) : 48 <= code a <= 57 -> is_digit a = true.
Proof.
  intros H. unfold is_digit. apply andb_true_iff. split; apply Z.leb_le; lia.
Qed.

Ltac known_codes :=
  change (code "0"%char) with 48 in *; change (code "1"%char) with 49 in *;
  change (code "2"%char) with 50 in *; change (code "3"%char) with 51 in *;
  change (code "5"%char) with 53 in *; change (code "9"%char) with 57 in *.

Lemma py_int_one (a : ascii) :
  48 <= code a <= 57 -> py_int [a] = Some (code a - 48).
Proof.
  intros H. rewrite py_int_digit_string; [reflexivity| |discriminate].
  repeat constructor. apply bounds_digit, H.
Qed.

Lemma py_int_two (a b : ascii) :
  48 <= code a <= 57 -> 48 <= code b <= 57 ->
  py_int [a; b] = Some (10 * (code a - 48) + (code b - 48)).
Proof.
  intros Ha Hb.
  rewrite py_int_digit_string;
    [|repeat constructor; apply bounds_digit; assumption|discriminate].
  unfold digits_value. cbn [fold_left]. f_equal; lia.
Qed.

Lemma py_int_four (a b c d : ascii) :
  48 <= code a <= 57 -> 48 <= code b <= 57 ->
  48 <= code c <= 57 -> 48 <= code d <= 57 ->
  py_int [a; b; c; d]
  = Some (1000 * (code a - 48) + 100 * (code b - 48) + 10 * (code c - 48)
          + (code d - 48)).
Proof.
  intros Ha Hb Hc Hd.
  rewrite py_int_digit_string;
    [|repeat constructor; apply bounds_digit; assumption|discriminate].
  unfold digits_value. cbn [fold_left]. f_equal; lia.
Qed.

Lemma py_int_space_one (a : ascii) :
  48 <= code a <= 57 -> py_int [" "%char; a] = Some (code a - 48).
Proof.
  intros H. rewrite <- (py_int_one a H). unfold py_int, strip, rstrip.
  cbn [lstrip]. change (is_space " "%char) with true. cbv iota.
  rewrite (digit_not_space a (bounds_digit a H)). reflexivity.
Qed.

Lemma directive_reads (d : ascii) (lo hi : Z) (p : pystr) (c c' : captures) :
  In (d, lo, hi) directive_ranges ->
  Matches (inner d) p c c' ->
  c' = c /\ exists v, py_int p = Some v /\ lo <= v <= hi.
Proof.
  intros Hd H.
  destruct Hd as [Hd|[Hd|[Hd|[Hd|[Hd|[]]]]]]; injection Hd as <- <- <-;
    unfold inner, directive in H; cbn [Ascii.eqb Bool.eqb] in H;
    invert_matches;
    repeat match goal with
           | H : cls_mem (CChar _) _ = true |- _ =>
               cbn [cls_mem] in H; apply Ascii.eqb_eq in H; subst
           | H : cls_mem (CRange _ _) _ = true |- _ => apply range_bounds in H
           | H : cls_mem CDigit _ = true |- _ => apply digit_bounds in H
           end;
    known_codes; (split; [reflexivity|]); cbn [app].
  all: eexists;
    first [ split; [apply py_int_one; known_codes; lia|known_codes; lia]
          | split; [apply py_int_two; known_codes; lia|known_codes; lia]
          | split; [apply py_int_space_one; known_codes; lia|known_codes; lia]
          | split; [apply py_int_four; known_codes; lia|known_codes; lia] ].
Qed.

Lemma matches_stamp_reads (p : pystr) (c : captures) :
  Matches re_stamp p [] c ->
  exists y m d h mi,
    int_group "Y" 1900 c = Some y /\ int_group "m" 1 c = Some m
    /\ int_group "d" 1 c = Some d /\ int_group "H" 0 c = Some h
    /\ int_group "M" 0 c = Some mi
    /\ 0 <= y <= 9999 /\ 1 <= m <= 12 /\ 1 <= d <= 31
    /\ 0 <= h <= 23 /\ 0 <= mi <= 59.
Proof.
  unfold re_stamp. intros H. invert_matches.
  repeat match goal with
         | H : Matches (inner ?d) _ _ _ |- _ =>
             eapply (directive_reads d) in H;
             [destruct H as (-> & ? & ? & ?)|unfold directive_ranges; cbn [In]; eauto 6]
         end.
  unfold int_group. cbn [group String.eqb Ascii.eqb Bool.eqb].
  do 5 eexists. repeat (split; [eassumption|]). eassumption.
Qed.

Lemma repr_stamp_format :
  py_repr (lit "%Y-%m-%d %H:%M") = lit "'%Y-%m-%d %H:%M'".
Proof. reflexivity. Qed.

Lemma range_message_of_date (y m d h mi : Z) :
  0 <= y <= 9999 -> 1 <= m <= 12 -> 0 <= h <= 23 -> 0 <= mi <= 59 ->
  make y m d h mi 0 0 = None ->
  range_message y m d h mi
  = if y =? 0 then lit "year 0 is out of range"
    else lit "day is out of range for month".
Proof.
  intros Hy Hm Hh Hmi Hmake. unfold range_message.
  destruct (Z.eqb_spec y 0) as [->|Hy0]; [reflexivity|].
  replace ((1 <=? y) && (y <=? 9999)) with true
    by (symmetry; apply andb_true_iff; split; apply Z.leb_le; lia).
  replace ((1 <=? m) && (m <=? 12)) with true
    by (symmetry; apply andb_true_iff; split; apply Z.leb_le; lia).
  cbn [negb]. cbv iota.
  destruct ((1 <=? d) && (d <=? days_in_month y m)) eqn:Hd; [|reflexivity].
  exfalso. unfold make, valid_date, valid_time in Hmake.
  apply andb_true_iff in Hd. destruct Hd as [Hd1 Hd2].
  replace (1 <=? y) with true in Hmake by (symmetry; apply Z.leb_le; lia).
  replace (y <=? 9999) with true in Hmake by (symmetry; apply Z.leb_le; lia).
  replace (1 <=? m) with true in Hmake by (symmetry; apply Z.leb_le; lia).
  replace (m <=? 12) with true in Hmake by (symmetry; apply Z.leb_le; lia).
  replace (0 <=? h) with true in Hmake by (symmetry; apply Z.leb_le; lia).
  replace (h <=? 23) with true in Hmake by (symmetry; apply Z.leb_le; lia).
  replace (0 <=? mi) with true in Hmake by (symmetry; apply Z.leb_le; lia).
  replace (mi <=? 59) with true in Hmake by (symmetry; apply Z.leb_le; lia).
  rewrite Hd1, Hd2 in Hmake. discriminate Hmake.
Qed.

Lemma strptime_of_outcome (s fmt : pystr) :
  strptime s fmt
  = match strptime_outcome s fmt with
    | inr dt => Some dt
    | inl _ => None
    end.
Proof.
  unfold strptime, strptime_outcome, match_all.
  destruct (pattern false fmt) as [r|]; [|reflexivity].
  destruct (matchk r s [] (fun s' c => Some (s', c))) as [[[|a rest] c]|];
    [|reflexivity|reflexivity].
  destruct (int_group "Y" 1900 c), (int_group "m" 1 c), (int_group "d" 1 c),
    (int_group "H" 0 c), (int_group "M" 0 c); try reflexivity.
  destruct (make _ _ _ _ _ 0 0); reflexivity.
Qed.

Lemma strptime_outcome_texts (s : pystr) :
  match strptime_outcome s (lit "%Y-%m-%d %H:%M") with
  | inl message => error_text s message
  | inr _ => True
  end.
Proof.
  unfold error_text, strptime_outcome. rewrite pattern_stamp.
  destruct (matchk re_stamp s [] (fun s' c => Some (s', c)))
    as [[[|a rest] c]|] eqn:Hm.
  - apply matchk_sound in Hm. destruct Hm as (p & rest & c' & -> & Hm & Hk).
    injection Hk as -> ->. apply matches_stamp_reads in Hm.
    destruct Hm as (y & m & d & h & mi & -> & -> & -> & -> & ->
                    & Hy & Hmo & _ & Hh & Hmi).
    destruct (make y m d h mi 0 0) eqn:Hmake; [exact I|].
    rewrite (range_message_of_date y m d h mi Hy Hmo Hh Hmi Hmake).
    destruct (y =? 0); auto.
  - apply matchk_sound in Hm. destruct Hm as (p & rest' & c' & -> & Hm & Hk).
    injection Hk as -> ->. right. left. exists p, (a :: rest).
    split; [reflexivity|]. split; [discriminate|reflexivity].
  - left. rewrite repr_stamp_format. reflexivity.
Qed.

Lemma strptime_message_texts (s : pystr) :
  strptime s (lit "%Y-%m-%d %H:%M") = None ->
  error_text s (strptime_message s (lit "%Y-%m-%d %H:%M")).
Proof.
  intros Hnone. rewrite strptime_of_outcome in Hnone.
  pose proof (strptime_outcome_texts s) as H. unfold strptime_message.
  destruct (strptime_outcome s (lit "%Y-%m-%d %H:%M")); [exact H|discriminate Hnone].
Qed.

Module StrptimeErrorTests.
Example no_such_day :
    strptime_message (lit "2025-02-30 10:00") (lit "%Y-%m-%d %H:%M")
    = lit "day is out of range for month".
  Proof. vm_compute. reflexivity. Qed.
Example no_such_day_short :
    strptime_message (lit "2025-2-30 1:0") (lit "%Y-%m-%d %H:%M")
    = lit "day is out of range for month".
  Proof. vm_compute. reflexivity. Qed.
Example year_zero :
    strptime_message (lit "0000-02-30 10:00") (lit "%Y-%m-%d %H:%M")
    = lit "year 0 is out of range".
  Proof. vm_compute. reflexivity. Qed.
Example seconds_remain :
    strptime_message (lit "2025-06-10 10:00:00") (lit "%Y-%m-%d %H:%M")
    = lit "unconverted data remains: :00".
  Proof. vm_compute. reflexivity. Qed.
Example minute_sixty :
    strptime_message (lit "2025-06-10 10:60") (lit "%Y-%m-%d %H:%M")
    = lit "unconverted data remains: 0".
  Proof. vm_compute. reflexivity. Qed.
Example remains_before_day :
    strptime_message (lit "2025-06-31 10:00x") (lit "%Y-%m-%d %H:%M")
    = lit "unconverted data remains: x".
  Proof. vm_compute. reflexivity. Qed.
Example no_such_month :
    strptime_message (lit "2025-13-01 10:00") (lit "%Y-%m-%d %H:%M")
    = lit "time data '2025-13-01 10:00' does not match format '%Y-%m-%d %H:%M'".
  Proof. vm_compute. reflexivity. Qed.
Example no_such_hour :
    strptime_message (lit "2025-06-10 24:00") (lit "%Y-%m-%d %H:%M")
    = lit "time data '2025-06-10 24:00' does not match format '%Y-%m-%d %H:%M'".
  Proof. vm_compute. reflexivity. Qed.
Example blank_text :
    strptime_message (lit " ") (lit "%Y-%m-%d %H:%M")
    = lit "time data ' ' does not match format '%Y-%m-%d %H:%M'".
  Proof. vm_compute. reflexivity. Qed.
Example quoted_text :
    strptime_message (lit "it's 10") (lit "%Y-%m-%d %H:%M")
    = lit "time data " ++ [double_quote] ++ lit "it's 10" ++ [double_quote]
      ++ lit " does not match format '%Y-%m-%d %H:%M'".
  Proof. vm_compute. reflexivity. Qed.
Example parsed :
    strptime_message (lit "2025-6-1  9:5") (lit "%Y-%m-%d %H:%M") = [].
  Proof. vm_compute. reflexivity. Qed.
End StrptimeErrorTests.

(** X12.  [create_event] and [update_event] catch [HttpError] only.  For a
    meeting whose date and time do not read as ["%Y-%m-%d %H:%M"] the
    conversion raises the [ValueError] of [strptime]; both functions let it
    through with its text, and no request is sent to the provider.  The
    text is one of four (in the words of CPython 3.11): the text does not
    match the format, data remains after the match, the year is 0, or the
    month does not have the day. *)
Theorem write_of_unparsable_meeting_raises
        (E : Env) (svc : Service) (meeting : Meeting) (google_event_id : pystr)
        (s : state E) :
  is_enabled svc = true ->
  combine (m_date meeting) (m_time meeting) = None ->
  let text := m_date meeting ++ lit " " ++ m_time meeting in
  let message := strptime_message text (lit "%Y-%m-%d %H:%M") in
  create_event E svc meeting s
  = (inl (ValueError message),
     mkState (st_world s) (st_trace s ++ [SvcCreate meeting]))
  /\ update_event E svc meeting google_event_id s
     = (inl (ValueError message),
        mkState (st_world s) (st_trace s ++ [SvcUpdate meeting google_event_id]))
  /\ error_text text message.
Proof.
  intros Hen Hc text message.
  split; [|split].
  - unfold create_event, bind, record, except_http, try_except, lift_sum,
      _convert_to_google_event.
    rewrite Hen, Hc. reflexivity.
  - unfold update_event, bind, record, except_http, try_except, lift_sum,
      _convert_to_google_event.
    rewrite Hen, Hc. reflexivity.
  - apply strptime_message_texts. exact Hc.
Qed.

(** The 30th of February: [create_event] and [update_event] raise
    [ValueError("day is out of range for month")]. *)
Lemma write_of_unparsable_meeting_raises_witness :
  let meeting :=
    mkMeeting None (lit "Sync") (lit "2025-02-30") (lit "10:00") [] []
              None None false None None in
  create_event MemoryCalendar.env MemoryCalendar.service meeting
               MemoryCalendar.empty
  = (inl (ValueError (lit "day is out of range for month")),
     mkState (st_world MemoryCalendar.empty) [SvcCreate meeting])
  /\ update_event MemoryCalendar.env MemoryCalendar.service meeting (lit "evt1")
                  MemoryCalendar.empty
     = (inl (ValueError (lit "day is out of range for month")),
        mkState (st_world MemoryCalendar.empty) [SvcUpdate meeting (lit "evt1")]).
Proof.
  intros meeting.
  pose proof (write_of_unparsable_meeting_raises
                MemoryCalendar.env MemoryCalendar.service meeting (lit "evt1")
                MemoryCalendar.empty eq_refl eq_refl) as (Hc & Hu & _).
  split; [exact Hc|exact Hu].
Defined.

(** ** Reading events *)

Lemma before_first_lacks (c : ascii) (s : pystr) :
  contains_char c (before_first c s) = false.
Proof.
  induction s as [|a s IH]; simpl; [reflexivity|].
  destruct (Ascii.eqb a c) eqn:Hac; simpl; [reflexivity|].
  rewrite Ascii.eqb_sym, Hac. exact IH.
Qed.

Lemma attendee_name_is_no_address (a : Attendee) :
  otruthy (a_displayName a) = false -> is_email (attendee_name a) = false.
Proof.
  intros H. unfold attendee_name, is_email. rewrite H, before_first_lacks.
  reflexivity.
Qed.

Lemma no_address_no_attendee (ps : list pystr) :
  Forall (fun p => is_email p = false) ps ->
  fst (partition_participants ps) = [].
Proof.
  intros H. rewrite partition_participants_spec. cbn [fst].
  assert (Hf : filter is_email (filter truthy ps) = []).
  { induction H as [|p ps Hp _ IH]; simpl; [reflexivity|].
    destruct (truthy p); simpl; [rewrite Hp|]; exact IH. }
  rewrite Hf. reflexivity.
Qed.

Lemma read_names_are_no_addresses (ev : GEvent) (m : Meeting) :
  _convert_from_google_event ev = Some m ->
  Forall (fun a => otruthy (a_displayName a) = false) (attendees_of ev) ->
  Forall (fun p => is_email p = false) (m_participants m).
Proof.
  intros Hread Hnames.
  assert (Hps : m_participants m = map attendee_name (attendees_of ev)).
  { unfold _convert_from_google_event in Hread.
    destruct (negb (truthy _)); [discriminate Hread|].
    destruct (if contains_char "T" _ then _ else _); [|discriminate Hread].
    injection Hread as <-. reflexivity. }
  rewrite Hps. apply Forall_map.
  eapply Forall_impl; [|exact Hnames].
  intros a Ha. apply attendee_name_is_no_address. exact Ha.
Qed.

Lemma no_address_written (svc : Service) (m : Meeting) (body : GEvent) :
  Forall (fun p => is_email p = false) (m_participants m) ->
  _convert_to_google_event svc m = inr body ->
  g_attendees body = None.
Proof.
  intros Hnames Hwrite.
  pose proof (no_address_no_attendee _ Hnames) as Hnone.
  unfold _convert_to_google_event in Hwrite.
  destruct (combine (m_date m) (m_time m)); [|discriminate Hwrite].
  destruct (add_minutes _ 60); [|discriminate Hwrite].
  destruct (partition_participants (m_participants m)) as [att non].
  cbn [fst] in Hnone. subst att. injection Hwrite as <-. reflexivity.
Qed.

(** X13.  The names under which attendees are read are never taken for
    addresses when they are written: a meeting read from an event whose
    attendees carry no display name converts back to an event without
    attendees. *)
Theorem write_back_drops_attendees
        (svc : Service) (ev : GEvent) (m : Meeting) (body : GEvent) :
  _convert_from_google_event ev = Some m ->
  Forall (fun a => otruthy (a_displayName a) = false) (attendees_of ev) ->
  _convert_to_google_event svc m = inr body ->
  g_attendees body = None.
Proof.
  intros Hread Hnames Hwrite.
  exact (no_address_written svc m body
           (read_names_are_no_addresses ev m Hread Hnames) Hwrite).
Qed.

(** The example meeting: its attendee [alice@example.com] is read as
    [alice] and is lost when the meeting is written again. *)
Lemma write_back_drops_attendees_witness :
  exists body,
    _convert_to_google_event MemoryCalendar.service MemoryCalendar.standup_fetched
    = inr body
    /\ g_attendees body = None.
Proof.
  destruct (_convert_to_google_event MemoryCalendar.service
              MemoryCalendar.standup_fetched) as [e|body] eqn:Hw.
  - vm_compute in Hw. discriminate Hw.
  - exists body. split; [reflexivity|].
    apply (write_back_drops_attendees MemoryCalendar.service
             MemoryCalendar.standup_event MemoryCalendar.standup_fetched body).
    + vm_compute. reflexivity.
    + repeat constructor.
    + exact Hw.
Defined.

Lemma split_at_sign_first (p z : pystr) (sign : ascii) :
  sign = "+"%char \/ sign = "-"%char ->
  Forall (fun a => Ascii.eqb a "-" || Ascii.eqb a "+" = false) p ->
  split_at_sign (p ++ sign :: z) = (p, Some z).
Proof.
  intros Hs. induction 1 as [|a p Ha _ IH]; simpl.
  - destruct Hs as [-> | ->]; reflexivity.
  - rewrite Ha, IH. reflexivity.
Qed.

Lemma valid_offset_hours_minutes (oh om : Z) :
  0 <= oh <= 23 -> 0 <= om <= 59 ->
  valid_offset (two_digits oh ++ lit ":" ++ two_digits om) = true.
Proof.
  intros Hh Hm. unfold valid_offset.
  change (List.length (two_digits oh ++ lit ":" ++ two_digits om)) with 5%nat.
  cbv beta iota. unfold parse_hh_mm_ss_ff.
  change (firstn 2 (two_digits oh ++ lit ":" ++ two_digits om)) with (two_digits oh).
  rewrite digits_n_two by lia.
  change (skipn 2 (two_digits oh ++ lit ":" ++ two_digits om))
    with (":"%char :: two_digits om).
  cbv beta iota. change (negb (Ascii.eqb ":" ":")) with false. cbv beta iota.
  change (firstn 2 (two_digits om)) with (two_digits om).
  rewrite digits_n_two by lia.
  change (skipn 2 (two_digits om)) with (@nil ascii).
  cbv beta iota. apply Z.ltb_lt. unfold us_per_day. lia.
Qed.

Lemma fromisoformat_offset_stamp (y m d h mi : Z) (sign : ascii) (oh om : Z) :
  valid_date y m d = true -> in_range h mi = true ->
  sign = "+"%char \/ sign = "-"%char ->
  0 <= oh <= 23 -> 0 <= om <= 59 ->
  fromisoformat (offset_stamp y m d h mi sign oh om) = Some (mkdt y m d h mi 0 0).
Proof.
  intros Hd Ht Hs Hoh Hom.
  destruct (valid_date_bounds _ _ _ Hd) as (Hy & Hm & Hdd).
  destruct (in_range_bounds _ _ Ht) as (Hh & Hmi).
  set (z := two_digits oh ++ lit ":" ++ two_digits om).
  unfold fromisoformat.
  change (firstn 4 (firstn 10 (offset_stamp y m d h mi sign oh om)))
    with (zpad 4 y).
  change (firstn 2 (skipn 5 (firstn 10 (offset_stamp y m d h mi sign oh om))))
    with (two_digits m).
  change (skipn 8 (firstn 10 (offset_stamp y m d h mi sign oh om)))
    with (two_digits d).
  change (nth_error (firstn 10 (offset_stamp y m d h mi sign oh om)) 4)
    with (Some "-"%char).
  change (nth_error (firstn 10 (offset_stamp y m d h mi sign oh om)) 7)
    with (Some "-"%char).
  rewrite digits_n_four, !digits_n_two by lia.
  change (skipn 11 (offset_stamp y m d h mi sign oh om))
    with (digit_char (h / 10)
          :: digit_char h :: lit ":" ++ two_digits mi ++ lit ":00" ++ sign :: z).
  change (negb (Ascii.eqb "-" "-" && Ascii.eqb "-" "-")) with false.
  cbv beta iota. cbn [List.length Nat.ltb Nat.leb].
  change (digit_char (h / 10)
          :: digit_char h :: lit ":" ++ two_digits mi ++ lit ":00" ++ sign :: z)
    with ((two_digits h ++ lit ":" ++ two_digits mi ++ lit ":00") ++ sign :: z).
  rewrite (split_at_sign_first _ _ _ Hs).
  - rewrite parse_hh_mm_00 by lia. unfold z.
    rewrite valid_offset_hours_minutes by assumption.
    unfold make. rewrite Hd. unfold in_range in Ht. unfold valid_time.
    rewrite Ht. reflexivity.
  - repeat constructor;
      first [ rewrite !digit_char_not by reflexivity; reflexivity | reflexivity ].
Qed.

Lemma offset_stamp_chars (y m d h mi : Z) (sign : ascii) (oh om : Z) :
  offset_stamp y m d h mi sign oh om
  = [digit_char (y / 10 / 10 / 10); digit_char (y / 10 / 10); digit_char (y / 10);
     digit_char y; "-"%char; digit_char (m / 10); digit_char m; "-"%char;
     digit_char (d / 10); digit_char d; "T"%char; digit_char (h / 10);
     digit_char h; ":"%char; digit_char (mi / 10); digit_char mi; ":"%char;
     "0"%char; "0"%char; sign; digit_char (oh / 10); digit_char oh; ":"%char;
     digit_char (om / 10); digit_char om].
Proof. reflexivity. Qed.

Lemma offset_stamp_text (y m d h mi : Z) (sign : ascii) (oh om : Z) :
  sign = "+"%char \/ sign = "-"%char ->
  truthy (offset_stamp y m d h mi sign oh om) = true
  /\ contains_char "T" (offset_stamp y m d h mi sign oh om) = true
  /\ replace_Z (offset_stamp y m d h mi sign oh om)
     = offset_stamp y m d h mi sign oh om.
Proof.
  intros Hs. rewrite offset_stamp_chars. split; [reflexivity|]. split.
  - unfold contains_char. cbn [existsb].
    rewrite !not_digit_char by reflexivity. reflexivity.
  - apply replace_Z_none.
    repeat constructor;
      first [ apply digit_char_not; reflexivity
            | destruct Hs as [-> | ->]; reflexivity ].
Qed.

(** X14.  A start time is read by its wall clock, whatever its UTC offset:
    [2025-06-10T14:00:00+05:30] and [2025-06-10T14:00:00-08:00] are both
    read as the date [2025-06-10] and the time [14:00]. *)
Theorem read_keeps_wall_clock_of_any_offset
        (ev : GEvent) (start : EventTime) (y m d h mi : Z) (sign : ascii)
        (oh om : Z) :
  valid_date y m d = true ->
  1000 <= y ->
  in_range h mi = true ->
  sign = "+"%char \/ sign = "-"%char ->
  0 <= oh <= 23 ->
  0 <= om <= 59 ->
  g_start ev = Some start ->
  et_dateTime start = Some (offset_stamp y m d h mi sign oh om) ->
  exists meeting,
    _convert_from_google_event ev = Some meeting
    /\ m_date meeting = date_stamp y m d
    /\ m_time meeting = hhmm h mi.
Proof.
  intros Hd _ Ht Hs Hoh Hom Hstart Htext.
  destruct (offset_stamp_text y m d h mi sign oh om Hs) as (Htr & HT & HZ).
  unfold _convert_from_google_event. rewrite Hstart, Htext, Htr, HT, HZ.
  cbn [negb]. rewrite (fromisoformat_offset_stamp _ _ _ _ _ _ _ _ Hd Ht Hs Hoh Hom).
  eexists. split; [reflexivity|]. split; reflexivity.
Qed.

(** An event of a calendar kept at UTC+05:30. *)
Lemma read_keeps_wall_clock_of_any_offset_witness :
  exists meeting,
    _convert_from_google_event
      (mkGEvent (Some (lit "evt9")) (Some (lit "Call")) None
         (Some (mkEventTime (Some (lit "2025-06-10T14:00:00+05:30")) None
                            (Some (lit "Asia/Kolkata"))))
         None None [] None None None None)
    = Some meeting
    /\ m_date meeting = lit "2025-06-10"
    /\ m_time meeting = lit "14:00".
Proof.
  apply (read_keeps_wall_clock_of_any_offset
           (mkGEvent (Some (lit "evt9")) (Some (lit "Call")) None
              (Some (mkEventTime (Some (lit "2025-06-10T14:00:00+05:30")) None
                                 (Some (lit "Asia/Kolkata"))))
              None None [] None None None None)
           (mkEventTime (Some (lit "2025-06-10T14:00:00+05:30")) None
                        (Some (lit "Asia/Kolkata")))
           2025 6 10 14 0 "+"%char 5 30).
  - reflexivity.
  - lia.
  - reflexivity.
  - left. reflexivity.
  - lia.
  - lia.
  - reflexivity.
  - reflexivity.
Defined.

Lemma date_stamp_text (y m d : Z) :
  truthy (date_stamp y m d) = true
  /\ contains_char "T" (date_stamp y m d) = false.
Proof.
  split; [reflexivity|].
  change (date_stamp y m d)
    with [digit_char (y / 10 / 10 / 10); digit_char (y / 10 / 10);
          digit_char (y / 10); digit_char y; "-"%char; digit_char (m / 10);
          digit_char m; "-"%char; digit_char (d / 10); digit_char d].
  unfold contains_char. cbn [existsb].
  rewrite !not_digit_char by reflexivity. reflexivity.
Qed.

(** X15.  An all-day event, which has a start date and no start time, is
    read as a meeting at [00:00] on that date. *)
Theorem all_day_event_reads_as_midnight
        (ev : GEvent) (start : EventTime) (y m d : Z) :
  valid_date y m d = true ->
  1000 <= y ->
  g_start ev = Some start ->
  et_dateTime start = None ->
  et_date start = Some (date_stamp y m d) ->
  exists meeting,
    _convert_from_google_event ev = Some meeting
    /\ m_date meeting = date_stamp y m d
    /\ m_time meeting = lit "00:00".
Proof.
  intros Hd _ Hstart Hnone Hdate.
  destruct (date_stamp_text y m d) as (Htr & HT).
  unfold _convert_from_google_event. rewrite Hstart, Hnone, Hdate, Htr, HT.
  cbn [negb]. rewrite (strptime_date_stamp _ _ _ Hd).
  eexists. split; [reflexivity|]. split; reflexivity.
Qed.

(** A public holiday. *)
Lemma all_day_event_reads_as_midnight_witness :
  exists meeting,
    _convert_from_google_event
      (mkGEvent (Some (lit "evt8")) (Some (lit "Holiday")) None
         (Some (mkEventTime None (Some (lit "2025-12-25")) None))
         None None [] None None None None)
    = Some meeting
    /\ m_date meeting = lit "2025-12-25"
    /\ m_time meeting = lit "00:00".
Proof.
  apply (all_day_event_reads_as_midnight
           (mkGEvent (Some (lit "evt8")) (Some (lit "Holiday")) None
              (Some (mkEventTime None (Some (lit "2025-12-25")) None))
              None None [] None None None None)
           (mkEventTime None (Some (lit "2025-12-25")) None) 2025 12 25);
    first [ reflexivity | lia ].
Defined.

(** ** The order of [list_all_meetings] *)

Lemma lex_lt_asym (a b : list Z) : lex_lt a b = true -> lex_lt b a = false.
Proof.
  revert b. induction a as [|x a IH]; intros [|y b]; simpl; try discriminate.
  intros H. apply orb_true_iff in H. destruct H as [H|H].
  - apply Z.ltb_lt in H.
    assert (H1 : (y <? x) = false) by (apply Z.ltb_ge; lia).
    assert (H2 : (y =? x) = false) by (apply Z.eqb_neq; lia).
    rewrite H1, H2. reflexivity.
  - apply andb_true_iff in H. destruct H as [He Hl]. apply Z.eqb_eq in He. subst y.
    rewrite Z.ltb_irrefl, Z.eqb_refl, (IH _ Hl). reflexivity.
Qed.

Lemma lex_lt_chain (a b c : list Z) :
  List.length a = List.length b -> List.length b = List.length c ->
  lex_lt b a = false -> lex_lt c b = false -> lex_lt c a = false.
Proof.
  revert b c. induction a as [|x a IH]; intros [|y b] [|z c]; simpl;
    try discriminate; try reflexivity.
  intros Hab Hbc H1 H2.
  injection Hab as Hab. injection Hbc as Hbc.
  apply orb_false_iff in H1. destruct H1 as [H1 H1'].
  apply orb_false_iff in H2. destruct H2 as [H2 H2'].
  apply Z.ltb_ge in H1. apply Z.ltb_ge in H2.
  apply orb_false_iff. split; [apply Z.ltb_ge; lia|].
  destruct (z =? x) eqn:Hzx; [|reflexivity]. apply Z.eqb_eq in Hzx. subst z.
  assert (y = x) by lia. subst y.
  rewrite Z.eqb_refl in H1', H2'. cbn [andb] in *.
  apply (IH b c); assumption.
Qed.

Lemma lt_asym (a b : datetime) : lt a b = true -> lt b a = false.
Proof. apply lex_lt_asym. Qed.

Lemma lt_chain (a b c : datetime) :
  lt b a = false -> lt c b = false -> lt c a = false.
Proof. apply lex_lt_chain; reflexivity. Qed.

Lemma insert_sorted_perm x l : Permutation (x :: l) (insert_sorted x l).
Proof.
  induction l as [|y l IH]; simpl; [apply Permutation_refl|].
  destruct (lt (fst y) (fst x)); [|apply Permutation_refl].
  eapply perm_trans; [apply perm_swap|]. apply perm_skip. exact IH.
Qed.

Lemma insert_sorted_sorted x l :
  StronglySorted key_le l -> StronglySorted key_le (insert_sorted x l).
Proof.
  induction 1 as [|y l Hs IH Hall]; simpl.
  - constructor; constructor.
  - destruct (lt (fst y) (fst x)) eqn:Hyx.
    + constructor; [exact IH|].
      eapply Permutation_Forall; [apply insert_sorted_perm|].
      constructor; [|exact Hall]. apply lt_asym. exact Hyx.
    + constructor; [constructor; assumption|].
      constructor; [exact Hyx|].
      eapply Forall_impl; [|exact Hall].
      intros z Hz. unfold key_le in *. eapply lt_chain; eassumption.
Qed.

Lemma sort_sorted l :
  Permutation l (fold_right insert_sorted [] l)
  /\ StronglySorted key_le (fold_right insert_sorted [] l).
Proof.
  induction l as [|x l [IHp IHs]]; simpl.
  - split; constructor.
  - split; [|apply insert_sorted_sorted; exact IHs].
    eapply perm_trans; [apply perm_skip; exact IHp|apply insert_sorted_perm].
Qed.

Lemma sort_keys_parsed (l : list Meeting) :
  Forall (fun m => exists start, combine (m_date m) (m_time m) = Some start) l ->
  exists keyed,
    sort_keys l = Some keyed /\ map snd keyed = l /\ keyed_right keyed.
Proof.
  induction 1 as [|m l (k & Hc) _ (keyed & Hk & Hm & Hr)]; simpl.
  - exists []. repeat split. constructor.
  - exists ((k, m) :: keyed). simpl. rewrite Hc, Hk, Hm.
    repeat split. constructor; assumption.
Qed.

Lemma sorted_by_start (l : list (datetime * Meeting)) :
  keyed_right l -> StronglySorted key_le l ->
  StronglySorted starts_no_later (map snd l).
Proof.
  intros Hk Hs. induction Hs as [|p l Hs IH Hall]; simpl; [constructor|].
  inversion Hk as [|? ? Hp Hl]; subst.
  constructor; [apply IH; exact Hl|].
  apply Forall_map. unfold keyed_right in Hl.
  rewrite Forall_forall in *. intros q Hq.
  exists (fst p), (fst q). split; [exact Hp|]. split; [apply Hl; exact Hq|].
  apply Hall. exact Hq.
Qed.

(** X16.  When the date and time of every meeting read parse,
    [list_all_meetings] returns the meetings of the next 30 days rearranged
    by start, earliest first: the result is a permutation of what the
    adapter read and every meeting starts no later than those after it.
    [count] is the number of meetings. *)
Theorem list_all_meetings_sorts_by_start
        (E : Env) (svc : Service) (s : state E)
        (current time_max : datetime) (w0 w : world E) (items : list GEvent) :
  is_enabled svc = true ->
  env_now E (st_world s) = (current, w0) ->
  add_days current 30 = Some time_max ->
  list_request E svc current time_max (mkState w0 (st_trace s)) = (inr items, w) ->
  Forall (fun m => exists start, combine (m_date m) (m_time m) = Some start)
         (convert_all items) ->
  exists r sorted,
    list_all_meetings E svc s
    = (inr r, after_list E current time_max (mkState w0 (st_trace s)) w)
    /\ success r = true
    /\ meetings r = Some sorted
    /\ Permutation (convert_all items) sorted
    /\ StronglySorted starts_no_later sorted
    /\ count r = Some (len sorted).
Proof.
  intros Hen Hnow Hmax Hl Hparse.
  unfold list_all_meetings, try_except, bind, now, lift_world, expect.
  rewrite Hnow, Hmax. unfold ret at 1.
  rewrite (get_events_items _ _ _ _ _ _ _ Hen Hl).
  destruct (sort_keys_parsed _ Hparse) as (keyed & Hk & Hm & Hr).
  destruct (sort_sorted keyed) as [Hperm Hsorted].
  destruct (convert_all items) as [|m l] eqn:Hc.
  - eexists. exists []. split; [reflexivity|].
    repeat split; constructor.
  - rewrite Hk. eexists. exists (sorted_by_key keyed). split; [reflexivity|].
    split; [reflexivity|]. split; [reflexivity|]. split; [|split; [|reflexivity]].
    + rewrite <- Hm. unfold sorted_by_key. apply Permutation_map. exact Hperm.
    + unfold sorted_by_key. apply sorted_by_start; [|exact Hsorted].
      unfold keyed_right. eapply Permutation_Forall; [exact Hperm|exact Hr].
Qed.

(** On a calendar that lists the stand-up of the 10th before the review of
    the 9th, the review comes first. *)
Lemma list_all_meetings_sorts_by_start_witness :
  exists r,
    fst (list_all_meetings MemoryCalendar.env MemoryCalendar.service two_booked)
    = inr r
    /\ meetings r = Some [review_fetched; MemoryCalendar.standup_fetched].
Proof.
  destruct (list_all_meetings_sorts_by_start
              MemoryCalendar.env MemoryCalendar.service two_booked
              (mkdt 2025 6 1 9 0 0 0) (mkdt 2025 7 1 9 0 0 0)
              (st_world two_booked) (st_world two_booked)
              [MemoryCalendar.standup_event; review_event]
              eq_refl eq_refl eq_refl eq_refl)
    as (r & sorted & Hrun & _).
  { repeat constructor; eexists; vm_compute; reflexivity. }
  exists r. rewrite Hrun. split; [reflexivity|].
  assert (Hr : inr r = fst (list_all_meetings MemoryCalendar.env
                              MemoryCalendar.service two_booked)).
  { rewrite Hrun. reflexivity. }
  vm_compute in Hr. injection Hr as ->. reflexivity.
Defined.

(** ** The two routers *)

Section Routers.
Variable E : Env.
Variable svc : Service.
Variable cfg : Config.

Lemma schedule_meeting_by_envelope title date time participants description :
  returns E well_formed
    (schedule_meeting_by E svc cfg title date time participants description).
Proof.
  unfold schedule_meeting_by.
  destruct title, date, time;
    first [ apply schedule_meeting_envelope | apply returns_ret; nonempty_text ].
Qed.

Lemma update_meeting_by_envelope meeting_id title date time participants
      description :
  returns E well_formed
    (update_meeting_by E svc meeting_id title date time participants description).
Proof.
  unfold update_meeting_by. apply returns_try; [|intros e; envelope].
  apply returns_bind. intros result.
  destruct (first_meeting result); [|envelope].
  destruct (m_google_event_id m) as [[|a g]|]; try solve [envelope].
  destruct (merge_fields m title date time participants description) eqn:Hm.
  - apply returns_ret. apply (merge_fields_envelope _ _ _ _ _ _ _ Hm).
  - envelope.
Qed.

Lemma delete_meeting_by_envelope meeting_id :
  returns E well_formed (delete_meeting_by E svc meeting_id).
Proof.
  unfold delete_meeting_by. apply returns_try; [|intros e]; envelope.
Qed.

Lemma call_tool_envelope name arguments :
  returns E well_formed (call_tool E svc cfg name arguments).
Proof.
  unfold call_tool. apply returns_try; [|intros e; envelope].
  repeat match goal with
         | |- returns _ _ (if ?b then _ else _) => destruct b
         end;
    first [ apply schedule_meeting_by_envelope
          | apply get_meeting_details_envelope
          | apply list_all_meetings_envelope
          | apply update_meeting_by_envelope
          | apply delete_meeting_by_envelope
          | envelope ].
Qed.

End Routers.

(** X17.  [call_tool] always answers, whatever the tool name and whatever
    keys the arguments have or lack: it raises nothing, and its result
    carries a non-empty error when it fails and no error when it
    succeeds. *)
Theorem call_tool_always_answers
        (E : Env) (svc : Service) (cfg : Config)
        (name : pystr) (arguments : ToolInput) (s : state E) :
  exists r s', call_tool E svc cfg name arguments s = (inr r, s') /\ well_formed r.
Proof.
  apply total_returns; [|apply call_tool_envelope].
  unfold call_tool. apply total_try_ret.
Qed.

Lemma routers_agree_for_bound
        (E : Env) (svc : Service) (cfg : Config)
        (name : pystr) (arguments : ToolInput) (s : state E) :
  is_enabled svc = true ->
  binds name arguments = true ->
  _execute_tool E svc cfg name arguments s = call_tool E svc cfg name arguments s.
Proof.
  intros Hen Hb.
  unfold _execute_tool, new_handlers, bind. rewrite Hen. unfold ret at 1.
  unfold call_tool, dispatch, try_except. unfold binds in Hb.
  destruct (str_eqb name (lit "schedule_meeting")).
  { repeat (apply andb_true_iff in Hb; destruct Hb as [Hb ?]).
    destruct (ti_other_keys arguments); [|discriminate].
    destruct (ti_participant arguments); [discriminate|].
    destruct (ti_meeting_id arguments); [discriminate|].
    destruct (ti_title arguments); [|discriminate].
    destruct (ti_date arguments); [|discriminate].
    destruct (ti_time arguments); [|discriminate].
    reflexivity. }
  destruct (str_eqb name (lit "get_meeting_details")).
  { repeat (apply andb_true_iff in Hb; destruct Hb as [Hb ?]).
    destruct (ti_other_keys arguments); [|discriminate].
    destruct (ti_time arguments); [discriminate|].
    destruct (ti_participants arguments); [discriminate|].
    destruct (ti_description arguments); [discriminate|].
    reflexivity. }
  destruct (str_eqb name (lit "list_all_meetings")); [reflexivity|].
  destruct (str_eqb name (lit "update_meeting")).
  { repeat (apply andb_true_iff in Hb; destruct Hb as [Hb ?]).
    destruct (ti_other_keys arguments); [|discriminate].
    destruct (ti_participant arguments); [discriminate|].
    destruct (ti_meeting_id arguments); [|discriminate].
    reflexivity. }
  destruct (str_eqb name (lit "delete_meeting")); [|reflexivity].
  repeat (apply andb_true_iff in Hb; destruct Hb as [Hb ?]).
  destruct (ti_other_keys arguments); [|discriminate].
  destruct (ti_title arguments); [discriminate|].
  destruct (ti_date arguments); [discriminate|].
  destruct (ti_time arguments); [discriminate|].
  destruct (ti_participants arguments); [discriminate|].
  destruct (ti_description arguments); [discriminate|].
  destruct (ti_participant arguments); [discriminate|].
  destruct (ti_meeting_id arguments); [|discriminate].
  reflexivity.
Qed.

(** X18.  On arguments that Python can bind to the parameters of the
    handler, the router of the agent and the router of the server do the
    same: same result, same calls, same final state. *)
Theorem routers_agree_on_bound_arguments
        (E : Env) (svc : Service) (cfg : Config)
        (name : pystr) (arguments : ToolInput) (s : state E) :
  is_enabled svc = true ->
  binds name arguments = true ->
  _execute_tool E svc cfg name arguments s = call_tool E svc cfg name arguments s.
Proof. apply routers_agree_for_bound. Qed.

(** Deleting the example meeting by its remote id, through either
    router. *)
Lemma routers_agree_on_bound_arguments_witness :
  _execute_tool MemoryCalendar.env MemoryCalendar.service GOOGLE_CALENDAR_CONFIG
    (lit "delete_meeting")
    (mkToolInput None None None None None None (Some (lit "evt1")) [])
    MemoryCalendar.booked
  = call_tool MemoryCalendar.env MemoryCalendar.service GOOGLE_CALENDAR_CONFIG
      (lit "delete_meeting")
      (mkToolInput None None None None None None (Some (lit "evt1")) [])
      MemoryCalendar.booked.
Proof.
  apply routers_agree_on_bound_arguments; reflexivity.
Defined.

(** X19.  The router of the agent refuses arguments that Python cannot
    bind to the parameters of the handler, a stray key or a missing
    required one: the result is a failure and the handler has not run, so
    the state is untouched. *)
Theorem execute_tool_refuses_unbound_arguments
        (E : Env) (svc : Service) (cfg : Config)
        (name : pystr) (arguments : ToolInput) (s : state E) :
  is_enabled svc = true ->
  binds name arguments = false ->
  exists msg,
    _execute_tool E svc cfg name arguments s
    = (inr (failure (lit "Tool execution error: " ++ msg)), s).
Proof.
  intros Hen Hb.
  unfold _execute_tool, new_handlers, bind. rewrite Hen. unfold ret at 1.
  unfold dispatch, try_except. unfold binds in Hb.
  destruct arguments as [t d ti ps de p id others].
  cbn [ti_title ti_date ti_time ti_participants ti_description ti_participant
       ti_meeting_id ti_other_keys] in *.
  repeat match goal with
         | |- context [if str_eqb name ?l then _ else _] =>
             destruct (str_eqb name l)
         end;
    try discriminate Hb;
    destruct t, d, ti, ps, de, p, id, others;
    cbn [present orb andb negb] in *;
    first [ discriminate Hb | eexists; reflexivity ].
Qed.

(** A delete without [meeting_id] is refused by the agent's router. *)
Lemma execute_tool_refuses_unbound_arguments_witness :
  exists msg,
    _execute_tool MemoryCalendar.env MemoryCalendar.service GOOGLE_CALENDAR_CONFIG
      (lit "delete_meeting")
      (mkToolInput None None None None None None None [])
      MemoryCalendar.booked
    = (inr (failure (lit "Tool execution error: " ++ msg)), MemoryCalendar.booked).
Proof.
  apply execute_tool_refuses_unbound_arguments; reflexivity.
Defined.

(** X20.  The router of the server reads [meeting_id] with
    [arguments.get]; when the key is absent the handler receives [None],
    which filters nothing, and [delete_meeting] deletes the first meeting
    of the next 30 days. *)
Theorem call_tool_delete_without_id_deletes_first
        (E : Env) (svc : Service) (cfg : Config) (arguments : ToolInput)
        (s : state E) (current time_max : datetime) (w0 w : world E)
        (items : list GEvent) (m : Meeting) (rest : list Meeting) (gid : pystr) :
  let listed := after_list E current time_max (mkState w0 (st_trace s)) w in
  ti_meeting_id arguments = None ->
  is_enabled svc = true ->
  env_now E (st_world s) = (current, w0) ->
  add_days current 30 = Some time_max ->
  list_request E svc current time_max (mkState w0 (st_trace s)) = (inr items, w) ->
  convert_all items = m :: rest ->
  m_google_event_id m = Some gid ->
  gid <> [] ->
  exists r s',
    call_tool E svc cfg (lit "delete_meeting") arguments s = (inr r, s')
    /\ st_trace s' = st_trace listed ++ [SvcDelete gid; ApiDelete gid]
    /\ (success r = true -> deleted_meeting r = Some m).
Proof.
  intros listed Hid Hen Hnow Hmax Hl Hconv Hgid Hne.
  pose proof (delete_meeting_by_found E svc None s _ _ _ _ _ Hen Hnow Hmax Hl) as H.
  assert (Hall : filter (selected None None None) (convert_all items)
                 = convert_all items) by (apply filter_all; reflexivity).
  rewrite Hall, Hconv in H. destruct (H gid Hgid Hne) as (r & s' & Hrun & Htr & Hok).
  exists r, s'. split; [|split; assumption].
  unfold call_tool, try_except.
  change (str_eqb (lit "delete_meeting") (lit "schedule_meeting")) with false.
  change (str_eqb (lit "delete_meeting") (lit "get_meeting_details")) with false.
  change (str_eqb (lit "delete_meeting") (lit "list_all_meetings")) with false.
  change (str_eqb (lit "delete_meeting") (lit "update_meeting")) with false.
  change (str_eqb (lit "delete_meeting") (lit "delete_meeting")) with true.
  cbv beta iota. rewrite Hid, Hrun. reflexivity.
Qed.

(** On the example calendar. *)
Lemma call_tool_delete_without_id_deletes_first_witness :
  exists r s',
    call_tool MemoryCalendar.env MemoryCalendar.service GOOGLE_CALENDAR_CONFIG
      (lit "delete_meeting") (mkToolInput None None None None None None None [])
      MemoryCalendar.booked = (inr r, s')
    /\ st_trace s'
       = st_trace (after_list MemoryCalendar.env
                     (mkdt 2025 6 1 9 0 0 0) (mkdt 2025 7 1 9 0 0 0)
                     MemoryCalendar.booked (st_world MemoryCalendar.booked))
         ++ [SvcDelete (lit "evt1"); ApiDelete (lit "evt1")]
    /\ (success r = true -> deleted_meeting r = Some MemoryCalendar.standup_fetched).
Proof.
  refine (call_tool_delete_without_id_deletes_first
            MemoryCalendar.env MemoryCalendar.service GOOGLE_CALENDAR_CONFIG
            (mkToolInput None None None None None None None [])
            MemoryCalendar.booked
            (mkdt 2025 6 1 9 0 0 0) (mkdt 2025 7 1 9 0 0 0)
            (st_world MemoryCalendar.booked) (st_world MemoryCalendar.booked)
            [MemoryCalendar.standup_event]
            MemoryCalendar.standup_fetched [] (lit "evt1")
            eq_refl eq_refl eq_refl eq_refl eq_refl _ eq_refl _).
  - vm_compute. reflexivity.
  - discriminate.
Defined.

(** ** Dates carry no time of day *)

Lemma matches_keeps_other_groups (r : re) (p : pystr) (c c' : captures)
      (name : string) :
  Matches r p c c' -> ~ In name (group_names r) -> group name c' = group name c.
Proof.
  induction 1; cbn [group_names]; intros Hn; try reflexivity.
  - rewrite IHMatches2, IHMatches1; [reflexivity| |];
      intros Hin; apply Hn; apply in_or_app; auto.
  - apply IHMatches. intros Hin. apply Hn. apply in_or_app. auto.
  - apply IHMatches. intros Hin. apply Hn. apply in_or_app. auto.
  - cbn [group]. destruct (String.eqb name0 name) eqn:He.
    + apply String.eqb_eq in He. subst. exfalso. apply Hn. left. reflexivity.
    + apply IHMatches. intros Hin. apply Hn. right. exact Hin.
Qed.

Lemma match_all_sound (r : re) (s : pystr) (c : captures) :
  match_all r s = Some c -> Matches r s [] c.
Proof.
  unfold match_all.
  destruct (matchk r s [] (fun s' c0 => Some (s', c0))) as [[rest c0]|] eqn:Hm;
    [|discriminate].
  destruct rest; [|discriminate]. intros H. injection H as <-.
  destruct (matchk_sound r s [] _ _ Hm) as (p & rest & caps' & -> & HM & Hk).
  injection Hk as -> ->. rewrite app_nil_r. exact HM.
Qed.

Lemma strptime_without_time (s fmt : pystr) (r : re) (dt : datetime) :
  pattern false fmt = Some r ->
  ~ In "H"%string (group_names r) ->
  ~ In "M"%string (group_names r) ->
  strptime s fmt = Some dt ->
  hour dt = 0 /\ minute dt = 0 /\ second dt = 0 /\ microsecond dt = 0.
Proof.
  intros Hp HH HM. unfold strptime. rewrite Hp.
  destruct (match_all r s) as [c|] eqn:Hc; [|discriminate].
  apply match_all_sound in Hc.
  unfold int_group at 4 5.
  rewrite (matches_keeps_other_groups _ _ _ _ _ Hc HH),
          (matches_keeps_other_groups _ _ _ _ _ Hc HM).
  cbn [group].
  destruct (int_group "Y" 1900 c), (int_group "m" 1 c), (int_group "d" 1 c);
    try discriminate.
  intros H. apply make_some in H. destruct H as (-> & _). repeat split.
Qed.

(** X21.  [parse_date] returns calendar dates only: whatever text it
    accepts, the result is a valid date at 00:00:00, and, from the year
    1000 on, formatting that result as [YYYY-MM-DD] and parsing it again
    returns the same value. *)
Theorem parse_date_returns_dates_at_midnight (s : pystr) (d : datetime) :
  parse_date s = Some d ->
  valid_date (year d) (month d) (day d) = true
  /\ midnight d = d
  /\ (1000 <= year d -> parse_date (strftime d (lit "%Y-%m-%d")) = Some d).
Proof.
  intros H.
  assert (Hv : valid_date (year d) (month d) (day d) = true)
    by exact (parse_date_valid _ _ H).
  assert (Hm : midnight d = d).
  { apply first_parse_some in H.
    destruct H as (before & fmt & after & Hf & Hs & _).
    assert (Hin : In fmt formats) by (rewrite Hf; apply in_or_app; right; left; auto).
    assert (Ht : hour d = 0 /\ minute d = 0 /\ second d = 0 /\ microsecond d = 0).
    { unfold formats in Hin. cbn [In] in Hin.
      destruct Hin as [<-|[<-|[<-|[<-|[]]]]];
        (match type of Hs with
         | strptime _ ?f = _ =>
             eapply (strptime_without_time s f _ d);
             [vm_compute; reflexivity| | |exact Hs]
         end; cbn; intuition discriminate). }
    destruct Ht as (H1 & H2 & H3 & H4). destruct d. cbn in *. subst.
    reflexivity. }
  split; [exact Hv|]. split; [exact Hm|]. intros _.
  rewrite (parse_date_of_formatted_midnight d Hv). rewrite Hm. reflexivity.
Qed.

(** The first of February 2025, written day first. *)
Lemma parse_date_returns_dates_at_midnight_witness :
  midnight (mkdt 2025 2 1 0 0 0 0) = mkdt 2025 2 1 0 0 0 0.
Proof.
  apply (parse_date_returns_dates_at_midnight (lit "01/02/2025")). reflexivity.
Defined.

(** ** Creating the event *)

(** X22.  Once the checks of [schedule_meeting] have passed and the
    conflict check has found nothing, one insert request is sent and its
    outcome decides the result.  An event with an id gives a success whose
    meeting carries that id and is marked as synced.  An event without an
    id and an [HttpError] both give "Failed to create event in Google
    Calendar".  Any other exception gives "Error scheduling meeting: "
    followed by its message. *)
Theorem schedule_meeting_reports_the_insert
        (E : Env) (svc : Service) (cfg : Config)
        (title date time : pystr) (participants : option (list pystr))
        (description : pystr) (s s1 : state E)
        (parsed_date : datetime) (hour minute : Z)
        (current created : datetime) (w0 w1 w2 w3 : world E) (new_id : pystr)
        (body : GEvent) (answer : exn + GEvent) :
  let start :=
    mkdt (year parsed_date) (month parsed_date) (day parsed_date) hour minute 0 0 in
  let draft google_event_id synced :=
    mkMeeting (Some new_id) title (strftime parsed_date (lit "%Y-%m-%d"))
      (hhmm hour minute)
      (filter (fun p => truthy p && truthy (strip p))
              (match participants with Some l => l | None => [] end))
      description (Some (isoformat created)) google_event_id synced None None in
  title <> [] ->
  parse_date date = Some parsed_date ->
  1000 <= year parsed_date ->
  parse_time time = Some (hhmm hour minute) ->
  in_range hour minute = true ->
  env_now E (st_world s) = (current, w0) ->
  gt start current = true ->
  (if conflict_detection_on cfg
   then _check_time_conflict E svc (strftime parsed_date (lit "%Y-%m-%d"))
                             (hhmm hour minute) None
   else ret None) (mkState w0 (st_trace s)) = (inr None, s1) ->
  is_enabled svc = true ->
  env_uuid8 E (st_world s1) = (new_id, w1) ->
  env_now E w1 = (created, w2) ->
  _convert_to_google_event svc (draft None false) = inr body ->
  env_insert E (calendar_id (config svc)) body w2 = (answer, w3) ->
  schedule_meeting E svc cfg title date time participants description s
  = (inr match answer with
         | inr event =>
             if otruthy (g_id event) then
               mkResult true None (Some (draft (g_id event) true)) None None
                 (Some (lit "Successfully scheduled '" ++ title ++ lit "' on "
                        ++ strftime parsed_date (lit "%Y-%m-%d") ++ lit " at "
                        ++ hhmm hour minute ++ lit " (Synced to Google Calendar)"))
                 None
             else failure (lit "Failed to create event in Google Calendar")
         | inl e =>
             if is_http e
             then failure (lit "Failed to create event in Google Calendar")
             else failure (lit "Error scheduling meeting: " ++ exn_msg e)
         end,
     mkState w3 (st_trace s1 ++ [SvcCreate (draft None false); ApiInsert body])).
Proof.
  intros start draft Htitle Hdate _ Htime Hrange Hnow Hfuture Hcheck Hen Hid Hclock
         Hbody Hinsert.
  rewrite (schedule_meeting_checked E svc cfg title date time participants
             description s parsed_date hour minute current w0 None s1
             Htitle Hdate Htime Hrange Hnow Hfuture Hcheck).
  unfold schedule_outcome. rewrite Hid, Hclock.
  fold (draft None false).
  unfold create_event, bind, record, except_http, try_except, lift_sum, lift_api.
  rewrite Hen, Hbody. cbn [negb st_world st_trace]. unfold ret at 1.
  cbn [st_world st_trace]. rewrite Hinsert.
  rewrite <- !app_assoc. cbn [app].
  destruct answer as [e|event].
  - destruct (is_http e); reflexivity.
  - unfold ret. destruct (otruthy (g_id event)); reflexivity.
Qed.

(** The stand-up is created on the empty example calendar. *)
Lemma schedule_meeting_reports_the_insert_witness :
  exists r s',
    schedule_meeting MemoryCalendar.env MemoryCalendar.service GOOGLE_CALENDAR_CONFIG
      (lit "Standup") (lit "2025-06-10") (lit "14:00")
      (Some [lit "alice@example.com"; lit "Bob"]) [] MemoryCalendar.empty
    = (inr r, s')
    /\ success r = true.
Proof.
  eexists. eexists. split.
  - eapply (schedule_meeting_reports_the_insert
              MemoryCalendar.env MemoryCalendar.service GOOGLE_CALENDAR_CONFIG
              (lit "Standup") (lit "2025-06-10") (lit "14:00")
              (Some [lit "alice@example.com"; lit "Bob"]) [] MemoryCalendar.empty
              _ (mkdt 2025 6 10 0 0 0 0) 14 0).
    + discriminate.
    + reflexivity.
    + cbn. lia.
    + reflexivity.
    + reflexivity.
    + reflexivity.
    + reflexivity.
    + lazy. reflexivity.
    + reflexivity.
    + lazy. reflexivity.
    + lazy. reflexivity.
    + lazy. reflexivity.
    + lazy. reflexivity.
  - reflexivity.
Defined.

(** ** A disabled adapter *)

(** X23.  An adapter that is not enabled sends nothing to the provider:
    [create_event] and [sync_event] return [None], [update_event] and
    [delete_event] return [False], [get_events] returns no meeting, and
    the provider is left as it was. *)
Theorem disabled_adapter_sends_nothing
        (E : Env) (svc : Service) (meeting : Meeting) (google_event_id action : pystr)
        (time_min time_max : datetime) (s : state E) :
  is_enabled svc = false ->
  let quiet {A} (run : (exn + A) * state E) (value : A) :=
    fst run = inr value
    /\ st_world (snd run) = st_world s
    /\ exists l, st_trace (snd run) = st_trace s ++ l
                 /\ Forall (fun c => ~ is_request c) l in
  quiet (create_event E svc meeting s) None
  /\ quiet (update_event E svc meeting google_event_id s) false
  /\ quiet (delete_event E svc google_event_id s) false
  /\ quiet (get_events E svc time_min time_max s) []
  /\ quiet (sync_event E svc meeting action s) None.
Proof.
  intros Hen quiet. unfold quiet.
  unfold create_event, update_event, delete_event, get_events, sync_event,
    bind, record.
  rewrite Hen. cbn [negb fst snd st_world st_trace].
  repeat split;
    first [ exists []; split; [symmetry; apply app_nil_r|constructor]
          | eexists; split; [reflexivity|]; repeat constructor; intros [] ].
Qed.

(** Without credentials nothing is listed. *)
Lemma disabled_adapter_sends_nothing_witness :
  fst (get_events MemoryCalendar.env (mkService GOOGLE_CALENDAR_CONFIG false)
         (mkdt 2025 6 1 0 0 0 0) (mkdt 2025 7 1 0 0 0 0) MemoryCalendar.booked)
  = inr [].
Proof.
  exact (proj1 (proj1 (proj2 (proj2 (proj2
           (disabled_adapter_sends_nothing
              MemoryCalendar.env (mkService GOOGLE_CALENDAR_CONFIG false)
              MemoryCalendar.standup_fetched (lit "evt1") (lit "create")
              (mkdt 2025 6 1 0 0 0 0) (mkdt 2025 7 1 0 0 0 0)
              MemoryCalendar.booked eq_refl)))))).
Defined.

(** ** Updating a meeting that has attendees *)

Lemma convert_all_in (items : list GEvent) (m : Meeting) :
  In m (convert_all items) ->
  exists ev, In ev items /\ _convert_from_google_event ev = Some m.
Proof.
  induction items as [|x items IH]; simpl; [contradiction|].
  destruct (_convert_from_google_event x) as [m0|] eqn:Hx.
  - intros [<-|Hin]; [eauto|]. destruct (IH Hin) as (ev & He & Hc). eauto.
  - intros Hin. destruct (IH Hin) as (ev & He & Hc). eauto.
Qed.

Lemma merge_fields_keeps_participants m title date time description m' :
  merge_fields m title date time None description = inr m' ->
  m_participants m' = m_participants m.
Proof.
  unfold merge_fields. intros H.
  repeat match type of H with
         | context [match ?x with _ => _ end] =>
             lazymatch x with
             | context [match _ with _ => _ end] => fail
             | _ => destruct x
             end
         | context [if ?x then _ else _] =>
             lazymatch x with
             | context [match _ with _ => _ end] => fail
             | context [if _ then _ else _] => fail
             | _ => destruct x
             end
         end; try discriminate H; injection H as <-; reflexivity.
Qed.

Section Attendees.
Variable E : Env.
Variable svc : Service.

Lemma reads_carry_no_update (l : list call) :
  Forall is_read l -> updates_without_attendees l.
Proof.
  intros H g body Hin. rewrite Forall_forall in H. destruct (H _ Hin).
Qed.

Lemma update_outcome_bodies merged gid s :
  Forall (fun p => is_email p = false) (m_participants merged) ->
  exists r s' l,
    update_outcome E svc merged gid s = (r, s')
    /\ st_trace s' = st_trace s ++ l
    /\ updates_without_attendees l.
Proof.
  intros Hnames. unfold update_outcome.
  destruct (update_event E svc merged gid s) as [ok s'] eqn:Hu.
  destruct (update_event_trace _ _ _ _ _ _ _ Hu) as (l & Hl & Hall).
  assert (Hb : updates_without_attendees (SvcUpdate merged gid :: l)).
  { intros g body [Heq|Hin]; [discriminate Heq|].
    rewrite Forall_forall in Hall. destruct (Hall _ Hin) as (b & Hb & Hc).
    injection Hb as <- <-. exact (no_address_written svc merged _ Hnames Hc). }
  destruct ok as [e|[|]]; eexists; eexists; eexists;
    (split; [reflexivity|]); (split; [exact Hl|exact Hb]).
Qed.

End Attendees.

(** X24.  An update that supplies no participants sends the names it read
    back as participants, and names are not addresses: when the attendees
    of the listed events carry no display name, every update request that
    [update_meeting] sends is without attendees, whichever fields it
    changes. *)
Theorem update_without_participants_drops_attendees
        (E : Env) (svc : Service) (meeting_id : pystr)
        (title date time description : option pystr)
        (s s' : state E) (r : exn + Result)
        (current time_max : datetime) (w0 w : world E) (items : list GEvent) :
  is_enabled svc = true ->
  env_now E (st_world s) = (current, w0) ->
  add_days current 30 = Some time_max ->
  list_request E svc current time_max (mkState w0 (st_trace s)) = (inr items, w) ->
  Forall (fun ev => Forall (fun a => otruthy (a_displayName a) = false)
                           (attendees_of ev)) items ->
  update_meeting E svc meeting_id title date time None description s = (r, s') ->
  exists l, st_trace s' = st_trace s ++ l /\ updates_without_attendees l.
Proof.
  intros Hen Hnow Hmax Hl Hnames Hrun.
  destruct (get_meeting_details_listed E svc None None (Some meeting_id) s
              _ _ _ _ _ Hen Hnow Hmax Hl) as (r0 & Hget & Hs & Hm & _).
  set (listed := after_list E current time_max (mkState w0 (st_trace s)) w) in *.
  assert (Hlisted : exists l0, st_trace listed = st_trace s ++ l0 /\ Forall is_read l0).
  { eexists. split; [unfold listed, after_list; cbn [st_trace];
                     rewrite <- app_assoc; reflexivity|].
    repeat constructor. }
  destruct Hlisted as (l0 & Hl0 & Hr0).
  assert (Hquiet : forall (s2 : state E) l1,
             st_trace s2 = st_trace listed ++ l1 -> updates_without_attendees l1 ->
             exists l, st_trace s2 = st_trace s ++ l /\ updates_without_attendees l).
  { intros s2 l1 H1 H2. exists (l0 ++ l1). rewrite H1, Hl0, app_assoc.
    split; [reflexivity|]. intros g body Hin. apply in_app_or in Hin.
    destruct Hin as [Hin|Hin]; [exact (reads_carry_no_update _ Hr0 _ _ Hin)|eauto]. }
  assert (Hstay : exists l, st_trace listed = st_trace s ++ l
                            /\ updates_without_attendees l).
  { apply (Hquiet listed []); [symmetry; apply app_nil_r|intros ? ? []]. }
  pose proof (first_meeting_of _ _ Hs Hm) as Hfirst.
  destruct (filter (selected None None (Some meeting_id)) (convert_all items))
    as [|m found] eqn:Hfound.
  { unfold update_meeting, try_except, bind in Hrun.
    rewrite Hget, Hfirst in Hrun. injection Hrun as <- <-. exact Hstay. }
  assert (Hin : In m (convert_all items)).
  { assert (H : In m (m :: found)) by (left; reflexivity).
    rewrite <- Hfound in H. apply filter_In in H. exact (proj1 H). }
  destruct (convert_all_in _ _ Hin) as (ev & Hev & Hconv).
  assert (Hps : Forall (fun p => is_email p = false) (m_participants m)).
  { apply (read_names_are_no_addresses ev m Hconv).
    rewrite Forall_forall in Hnames. exact (Hnames _ Hev). }
  destruct (m_google_event_id m) as [[|a gid]|] eqn:Hgid.
  - unfold update_meeting, try_except, bind in Hrun.
    rewrite Hget, Hfirst, Hgid in Hrun. injection Hrun as <- <-. exact Hstay.
  - assert (Hne : a :: gid <> []) by discriminate.
    rewrite (update_meeting_resolved E svc meeting_id title date time None description
               _ _ _ _ _ Hget Hfirst Hgid Hne) in Hrun.
    destruct (merge_fields m title date time None description) as [early|merged]
      eqn:Hmerge.
    { injection Hrun as <- <-. exact Hstay. }
    assert (Hpm : Forall (fun p => is_email p = false) (m_participants merged)).
    { rewrite (merge_fields_keeps_participants _ _ _ _ _ _ Hmerge). exact Hps. }
    destruct (otruthy date || otruthy time).
    + match type of Hrun with
      | context [_check_time_conflict ?x1 ?x2 ?x3 ?x4 ?x5 ?x6] =>
          destruct (_check_time_conflict x1 x2 x3 x4 x5 x6)
            as [[e|[c|]] s2] eqn:Hc
      end;
        destruct (check_time_conflict_trace _ _ _ _ _ _ _ _ Hc) as (l1 & Hl1 & Hr1).
      * injection Hrun as <- <-.
        exact (Hquiet _ _ Hl1 (reads_carry_no_update _ Hr1)).
      * injection Hrun as <- <-.
        exact (Hquiet _ _ Hl1 (reads_carry_no_update _ Hr1)).
      * destruct (update_outcome_bodies E svc merged (a :: gid) s2 Hpm)
          as (r2 & s3 & l2 & Hu & Hl2 & Hb2).
        rewrite Hu in Hrun. injection Hrun as <- <-.
        apply (Hquiet _ (l1 ++ l2)); [rewrite Hl2, Hl1, app_assoc; reflexivity|].
        intros g body Hi. apply in_app_or in Hi.
        destruct Hi as [Hi|Hi]; [exact (reads_carry_no_update _ Hr1 _ _ Hi)|eauto].
    + destruct (update_outcome_bodies E svc merged (a :: gid) listed Hpm)
        as (r2 & s3 & l2 & Hu & Hl2 & Hb2).
      rewrite Hu in Hrun. injection Hrun as <- <-.
      exact (Hquiet _ _ Hl2 Hb2).
  - unfold update_meeting, try_except, bind in Hrun.
    rewrite Hget, Hfirst, Hgid in Hrun. injection Hrun as <- <-. exact Hstay.
Qed.

(** Moving the example meeting to 16:00 sends an update without its
    attendee. *)
Lemma update_without_participants_drops_attendees_witness :
  exists l,
    st_trace (snd (update_meeting MemoryCalendar.env MemoryCalendar.service
                     (lit "evt1") None None (Some (lit "16:00")) None None
                     MemoryCalendar.booked))
    = st_trace MemoryCalendar.booked ++ l
    /\ updates_without_attendees l.
Proof.
  apply (update_without_participants_drops_attendees
           MemoryCalendar.env MemoryCalendar.service (lit "evt1")
           None None (Some (lit "16:00")) None
           MemoryCalendar.booked
           (snd (update_meeting MemoryCalendar.env MemoryCalendar.service
                   (lit "evt1") None None (Some (lit "16:00")) None None
                   MemoryCalendar.booked))
           (fst (update_meeting MemoryCalendar.env MemoryCalendar.service
                   (lit "evt1") None None (Some (lit "16:00")) None None
                   MemoryCalendar.booked))
           (mkdt 2025 6 1 9 0 0 0) (mkdt 2025 7 1 9 0 0 0)
           (st_world MemoryCalendar.booked) (st_world MemoryCalendar.booked)
           [MemoryCalendar.standup_event]).
  - reflexivity.
  - reflexivity.
  - reflexivity.
  - reflexivity.
  - repeat constructor.
  - apply surjective_pairing.
Defined.

(** ** Declared tools and handler signatures *)

Lemma conforms_no_other_keys (d : Declaration) (i : ToolInput) :
  In d function_declarations ->
  Forall (fun k => member k parameter_names = false) (ti_other_keys i) ->
  conforms d i = true ->
  ti_other_keys i = [].
Proof.
  intros Hd Hother Hc.
  destruct (ti_other_keys i) as [|k others] eqn:Hk; [reflexivity|exfalso].
  inversion Hother as [|? ? Hknown _]; subst.
  unfold conforms in Hc. apply andb_true_iff in Hc. destruct Hc as [Hc _].
  rewrite forallb_forall in Hc.
  assert (Hin : In k (keys i)).
  { unfold keys. rewrite Hk. repeat (apply in_or_app; right). left. reflexivity. }
  specialize (Hc _ Hin).
  assert (Hsub : forall x, member x (d_properties d) = true ->
                           member x parameter_names = true).
  { intros x. unfold function_declarations in Hd. cbn [In] in Hd.
    destruct Hd as [<-|[<-|[<-|[<-|[<-|[]]]]]];
      unfold member; cbn [d_properties parameter_names existsb];
      intros Hx; repeat (apply orb_true_iff in Hx; destruct Hx as [Hx|Hx]);
      try discriminate Hx; rewrite Hx, ?orb_true_r; reflexivity. }
  rewrite (Hsub _ Hc) in Hknown. discriminate Hknown.
Qed.

(** X25.  The tools the agent declares fit the signatures of the handlers:
    arguments that have declared keys only and every required key of the
    declaration can always be bound to the parameters of the handler, so
    with the adapter enabled [_execute_tool] runs the handler on them as
    [call_tool] does. *)
Theorem declared_arguments_bind
        (E : Env) (svc : Service) (cfg : Config)
        (d : Declaration) (arguments : ToolInput) (s : state E) :
  In d function_declarations ->
  Forall (fun k => member k parameter_names = false) (ti_other_keys arguments) ->
  conforms d arguments = true ->
  binds (d_name d) arguments = true
  /\ (is_enabled svc = true ->
      _execute_tool E svc cfg (d_name d) arguments s
      = call_tool E svc cfg (d_name d) arguments s).
Proof.
  intros Hd Hother Hc.
  assert (Hb : binds (d_name d) arguments = true).
  { pose proof (conforms_no_other_keys d arguments Hd Hother Hc) as Hnone.
    unfold conforms, keys in Hc. unfold binds. rewrite Hnone in *.
    destruct arguments as [t da ti ps de p id others].
    cbn [ti_title ti_date ti_time ti_participants ti_description ti_participant
         ti_meeting_id ti_other_keys] in *.
    unfold function_declarations in Hd. cbn [In] in Hd.
    destruct Hd as [<-|[<-|[<-|[<-|[<-|[]]]]]];
      destruct t, da, ti, ps, de, p, id;
      try reflexivity; vm_compute in Hc; discriminate Hc. }
  split; [exact Hb|]. intros Hen.
  apply routers_agree_for_bound; assumption.
Qed.

(** Moving a meeting: the id and the new time. *)
Lemma declared_arguments_bind_witness :
  binds (lit "update_meeting")
        (mkToolInput None None (Some (lit "16:00")) None None None
                     (Some (lit "evt1")) [])
  = true.
Proof.
  refine (proj1 (declared_arguments_bind
                   MemoryCalendar.env MemoryCalendar.service GOOGLE_CALENDAR_CONFIG
                   (mkDeclaration (lit "update_meeting")
                      [lit "meeting_id"; lit "title"; lit "date"; lit "time";
                       lit "participants"; lit "description"]
                      [lit "meeting_id"])
                   (mkToolInput None None (Some (lit "16:00")) None None None
                                (Some (lit "evt1")) [])
                   MemoryCalendar.booked _ _ _)).
  - right. right. right. left. reflexivity.
  - constructor.
  - vm_compute. reflexivity.
Defined.
